(** * Repository versioning of pulpcore: the membership ledger, the version
    life cycle and the squash performed when a version is deleted.

    The development embeds [pulpcore/app/models/repository.py].  Django
    model instances are records, the database is a record of tables (lists
    of rows in insertion order), and every method that talks to the database
    is a computation in a state-and-exception monad over that record.

    A method receives its instance [self] as a record and reads the fields
    of that record, as the Python method reads the attributes of the object
    in memory.  The repository of a version is reached through its key:
    [self.repository.last_version = n; self.repository.save()] writes the
    row of that key.  In [with repository.new_version() as version] the
    object [version.repository] is the caller's [repository] itself, so the
    caller sees what the store holds. *)

From Stdlib Require Import ZArith List Bool Lia String Arith.
Import ListNotations.
Open Scope Z_scope.

(** ** Rows *)

(** Primary keys.  Every model row carries one; a fresh one is drawn when an
    instance is constructed. *)
Definition pk := nat.

(** [Repository]: [name] and [description] take no part in versioning and
    are left out; [last_version] is a [PositiveIntegerField]. *)
Record Repository := mkRepository {
  repo_pk : pk;
  last_version : Z
}.

(** [RepositoryVersion].  [repository] and [base_version] are foreign keys,
    stored as the key of the row they point to. *)
Record RepositoryVersion := mkVersion {
  version_pk : pk;
  repository : pk;
  number : Z;
  complete : bool;
  base_version : option pk
}.

(** [RepositoryContent], one row of the membership ledger.  [content_id] is
    the key of a [Content] row; content units are identified with their
    keys throughout (the foreign key, with [on_delete=CASCADE], guarantees
    that the row exists as long as the membership does). *)
Record RepositoryContent := mkRC {
  content_id : pk;
  rc_repository : pk;
  version_added : pk;
  version_removed : option pk
}.

(** [RepositoryVersionContentDetails] *)
Inductive CountType := ADDED | PRESENT | REMOVED.

Record RepositoryVersionContentDetails := mkDetails {
  count_type : CountType;
  content_type : string;
  repository_version : pk;
  count : Z
}.

(** ** The database *)

(** [created_resources] holds the [object_id] of each [CreatedResource] row
    (the model lives in [.task], outside this file; only [object_id] is
    used here).  [pulp_type] is the column of that name of the [Content]
    table.  [next_pk] is the source of fresh primary keys. *)
Record DB := mkDB {
  repositories : list Repository;
  versions : list RepositoryVersion;
  repository_content : list RepositoryContent;
  created_resources : list pk;
  content_details : list RepositoryVersionContentDetails;
  pulp_type : pk -> string;
  next_pk : pk
}.

Definition set_repositories (l : list Repository) (db : DB) : DB :=
  mkDB l (versions db) (repository_content db) (created_resources db)
       (content_details db) (pulp_type db) (next_pk db).

Definition set_versions (l : list RepositoryVersion) (db : DB) : DB :=
  mkDB (repositories db) l (repository_content db) (created_resources db)
       (content_details db) (pulp_type db) (next_pk db).

Definition set_repository_content (l : list RepositoryContent) (db : DB) : DB :=
  mkDB (repositories db) (versions db) l (created_resources db)
       (content_details db) (pulp_type db) (next_pk db).

Definition set_created_resources (l : list pk) (db : DB) : DB :=
  mkDB (repositories db) (versions db) (repository_content db) l
       (content_details db) (pulp_type db) (next_pk db).

Definition set_content_details (l : list RepositoryVersionContentDetails) (db : DB) : DB :=
  mkDB (repositories db) (versions db) (repository_content db)
       (created_resources db) l (pulp_type db) (next_pk db).

Definition set_next_pk (n : pk) (db : DB) : DB :=
  mkDB (repositories db) (versions db) (repository_content db)
       (created_resources db) (content_details db) (pulp_type db) n.

(** ** Exceptions and the monad of database computations *)

Inductive exn :=
| ResourceImmutableError (v : RepositoryVersion)
| DoesNotExist
| MultipleObjectsReturned
| IntegrityError
| PluginError (msg : string).

(** A computation receives the database and returns either an exception or
    a value, together with the database it leaves behind.  A raised
    exception keeps the writes made so far, as Python does outside of a
    transaction. *)
Definition M (A : Type) : Type := DB -> (exn + A) * DB.

Definition ret {A} (a : A) : M A := fun db => (inr a, db).

Definition bind {A B} (m : M A) (k : A -> M B) : M B :=
  fun db =>
    match m db with
    | (inl e, db') => (inl e, db')
    | (inr a, db') => k a db'
    end.

Definition raise {A} (e : exn) : M A := fun db => (inl e, db).

Definition get_db : M DB := fun db => (inr db, db).

Definition modify (f : DB -> DB) : M unit := fun db => (inr tt, f db).

Declare Scope db_scope.
Delimit Scope db_scope with db.
Notation "x <- m ;; k" := (bind m (fun x => k))
  (at level 61, m at next level, right associativity) : db_scope.
Notation "m ;; k" := (bind m (fun _ => k))
  (at level 61, right associativity) : db_scope.
Open Scope db_scope.

(** [with transaction.atomic(): m].  When [m] raises, the tables go back to
    what they were on entry and the exception propagates.  Keys already
    drawn are not handed out again. *)
Definition atomic {A} (m : M A) : M A :=
  fun db =>
    match m db with
    | (inl e, db') => (inl e, set_next_pk (next_pk db') db)
    | (inr a, db') => (inr a, db')
    end.

(** [try: m  except handles: h] *)
Definition try_except {A} (m : M A) (handles : exn -> bool) (h : exn -> M A) : M A :=
  fun db =>
    match m db with
    | (inl e, db') => if handles e then h e db' else (inl e, db')
    | (inr a, db') => (inr a, db')
    end.

Definition is_DoesNotExist (e : exn) : bool :=
  match e with DoesNotExist => true | _ => false end.

Definition fresh_pk : M pk :=
  fun db => (inr (next_pk db), set_next_pk (S (next_pk db)) db).

(** ** Comparisons on keys *)

Definition opk_eqb (a b : option pk) : bool :=
  match a, b with
  | Some x, Some y => Nat.eqb x y
  | None, None => true
  | _, _ => false
  end.

Definition mem (c : pk) (l : list pk) : bool := existsb (Nat.eqb c) l.

(** ** Statements on the tables *)

(** *** [Repository] rows *)

Definition get_repository (db : DB) (p : pk) : option Repository :=
  find (fun r => Nat.eqb (repo_pk r) p) (repositories db).

(** [Model.save] on a [Repository]: an existing row with the same key is
    overwritten, otherwise the row is inserted.  [last_version] is a
    [PositiveIntegerField]: the store refuses a negative value. *)
Definition Model_save_Repository (self : Repository) : M unit :=
  db <- get_db ;;
  if last_version self <? 0 then raise IntegrityError
  else if existsb (fun r => Nat.eqb (repo_pk r) (repo_pk self)) (repositories db)
  then modify (set_repositories
                 (map (fun r => if Nat.eqb (repo_pk r) (repo_pk self) then self else r)
                      (repositories db)))
  else modify (set_repositories (repositories db ++ [self])).

(** *** [RepositoryVersion] rows *)

Definition get_version (db : DB) (p : pk) : option RepositoryVersion :=
  find (fun v => Nat.eqb (version_pk v) p) (versions db).

(** [unique_together = ('repository', 'number')] *)
Definition version_clash (v w : RepositoryVersion) : bool :=
  negb (Nat.eqb (version_pk v) (version_pk w))
  && Nat.eqb (repository v) (repository w)
  && (number v =? number w).

(** [Model.save] on a [RepositoryVersion]; [number] is a
    [PositiveIntegerField]. *)
Definition RepositoryVersion_save (self : RepositoryVersion) : M unit :=
  db <- get_db ;;
  if number self <? 0 then raise IntegrityError
  else if existsb (version_clash self) (versions db) then raise IntegrityError
  else if existsb (fun v => Nat.eqb (version_pk v) (version_pk self)) (versions db)
  then modify (set_versions
                 (map (fun v => if Nat.eqb (version_pk v) (version_pk self) then self else v)
                      (versions db)))
  else modify (set_versions (versions db ++ [self])).

(** *** [RepositoryContent] rows *)

(** [unique_together = (('repository', 'content', 'version_added'),
                        ('repository', 'content', 'version_removed'))].
    A null [version_removed] never equals another one. *)
Definition same_added (r s : RepositoryContent) : bool :=
  Nat.eqb (rc_repository r) (rc_repository s)
  && Nat.eqb (content_id r) (content_id s)
  && Nat.eqb (version_added r) (version_added s).

Definition same_removed (r s : RepositoryContent) : bool :=
  Nat.eqb (rc_repository r) (rc_repository s)
  && Nat.eqb (content_id r) (content_id s)
  && match version_removed r, version_removed s with
     | Some a, Some b => Nat.eqb a b
     | _, _ => false
     end.

(** A statement is refused when a row it wrote agrees with another row on a
    unique key.  Rows come paired with the flag "written by the statement". *)
Fixpoint violates (clash : RepositoryContent -> RepositoryContent -> bool)
         (l : list (bool * RepositoryContent)) : bool :=
  match l with
  | [] => false
  | (t, r) :: rest =>
      existsb (fun p => (t || fst p) && clash r (snd p)) rest || violates clash rest
  end.

Definition set_version_added (x : pk) (r : RepositoryContent) : RepositoryContent :=
  mkRC (content_id r) (rc_repository r) x (version_removed r).

Definition set_version_removed (x : option pk) (r : RepositoryContent) : RepositoryContent :=
  mkRC (content_id r) (rc_repository r) (version_added r) x.

(** [RepositoryContent.objects.bulk_create(objs)]; an empty list issues no
    statement. *)
Definition bulk_create (objs : list RepositoryContent) : M unit :=
  match objs with
  | [] => ret tt
  | _ =>
      db <- get_db ;;
      if violates (fun r s => same_added r s || same_removed r s)
                  (map (pair false) (repository_content db) ++ map (pair true) objs)
      then raise IntegrityError
      else modify (set_repository_content (repository_content db ++ objs))
  end.

(** [q.update(version_removed=x)] *)
Definition update_version_removed (q : RepositoryContent -> bool) (x : option pk) : M unit :=
  db <- get_db ;;
  let marked := map (fun r => if q r then (true, set_version_removed x r) else (false, r))
                    (repository_content db) in
  if violates same_removed marked then raise IntegrityError
  else modify (set_repository_content (map snd marked)).

(** [q.update(version_added=x)] *)
Definition update_version_added (q : RepositoryContent -> bool) (x : pk) : M unit :=
  db <- get_db ;;
  let marked := map (fun r => if q r then (true, set_version_added x r) else (false, r))
                    (repository_content db) in
  if violates same_added marked then raise IntegrityError
  else modify (set_repository_content (map snd marked)).

(** [q.delete()] *)
Definition delete_where (q : RepositoryContent -> bool) : M unit :=
  modify (fun db => set_repository_content
                      (filter (fun r => negb (q r)) (repository_content db)) db).

(** Lookups [version_added=v] and [version_removed=v] compare keys. *)
Definition added_is (v : RepositoryVersion) (r : RepositoryContent) : bool :=
  Nat.eqb (version_added r) (version_pk v).

Definition removed_is (v : RepositoryVersion) (r : RepositoryContent) : bool :=
  opk_eqb (version_removed r) (Some (version_pk v)).

(** ** [Repository.save] and [Repository.create_initial_version] *)

Definition create_initial_version (self : Repository) : M unit :=
  p <- fresh_pk ;;
  RepositoryVersion_save (mkVersion p (repo_pk self) (last_version self) true None).

(** [self._state.adding] holds for an instance that has no row yet. *)
Definition Repository_save (self : Repository) : M unit :=
  atomic (
    db <- get_db ;;
    let adding := negb (existsb (fun r => Nat.eqb (repo_pk r) (repo_pk self)) (repositories db)) in
    Model_save_Repository self ;;
    if adding then create_initial_version self else ret tt).

(** ** Queries of [RepositoryVersion] *)

(** [<fk>__number__lte=n]: the join finds the version row and compares. *)
Definition number_lte (db : DB) (fk : pk) (n : Z) : bool :=
  match get_version db fk with
  | Some w => number w <=? n
  | None => false
  end.

(** The test that the [content] property puts on a membership:
    [filter(repository=self.repository, version_added__number__lte=self.number)]
    [.exclude(version_removed__number__lte=self.number)]. *)
Definition present_at (db : DB) (self : RepositoryVersion) (r : RepositoryContent) : bool :=
  Nat.eqb (rc_repository r) (repository self)
  && number_lte db (version_added r) (number self)
  && negb (match version_removed r with
           | Some w => number_lte db w (number self)
           | None => false
           end).

(** The [relationships] of the [content] property. *)
Definition relationships (self : RepositoryVersion) (db : DB) : list RepositoryContent :=
  filter (present_at db self) (repository_content db).

(** [RepositoryVersion.content]: one entry per matching membership. *)
Definition content (self : RepositoryVersion) (db : DB) : list pk :=
  map content_id (relationships self db).

Definition added (self : RepositoryVersion) (db : DB) : list pk :=
  map content_id (filter (added_is self) (repository_content db)).

Definition removed (self : RepositoryVersion) (db : DB) : list pk :=
  map content_id (filter (removed_is self) (repository_content db)).

Definition contains (self : RepositoryVersion) (c : pk) (db : DB) : bool :=
  mem c (content self db).

(** [qs.exclude(pk__in=other)] on an evaluated list of content keys. *)
Definition exclude_in (qs other : list pk) : list pk :=
  filter (fun c => negb (mem c other)) qs.

(** ** Mutations of an open version *)

(** [RepositoryVersion.add_content].  [content] is the evaluated queryset,
    the keys of the units to add, in the order the store returns them. *)
Definition add_content (self : RepositoryVersion) (content_q : list pk) : M unit :=
  if complete self then raise (ResourceImmutableError self)
  else
    db <- get_db ;;
    let repo_content :=
      map (fun content_pk => mkRC content_pk (repository self) (version_pk self) None)
          (exclude_in content_q (content self db)) in
    bulk_create repo_content.

(** [RepositoryVersion.remove_content] *)
Definition remove_content (self : RepositoryVersion) (content_q : list pk) : M unit :=
  if complete self then raise (ResourceImmutableError self)
  else
    update_version_removed
      (fun r => Nat.eqb (rc_repository r) (repository self)
                && mem (content_id r) content_q
                && opk_eqb (version_removed r) None)
      (Some (version_pk self)).

(** ** Neighbours *)

(** [order_by('number')[0]]: the row with the least number, the earlier row
    on a tie. *)
Fixpoint lowest (l : list RepositoryVersion) : option RepositoryVersion :=
  match l with
  | [] => None
  | v :: t =>
      match lowest t with
      | Some w => if number w <? number v then Some w else Some v
      | None => Some v
      end
  end.

(** [order_by('-number')[0]] *)
Fixpoint highest (l : list RepositoryVersion) : option RepositoryVersion :=
  match l with
  | [] => None
  | v :: t =>
      match highest t with
      | Some w => if number v <? number w then Some w else Some v
      | None => Some v
      end
  end.

Definition next (self : RepositoryVersion) : M RepositoryVersion :=
  db <- get_db ;;
  match lowest (filter (fun w => Nat.eqb (repository w) (repository self)
                                 && complete w
                                 && (number self <? number w))
                       (versions db)) with
  | Some w => ret w
  | None => raise DoesNotExist
  end.

Definition previous (self : RepositoryVersion) : M RepositoryVersion :=
  db <- get_db ;;
  match highest (filter (fun w => Nat.eqb (repository w) (repository self)
                                  && complete w
                                  && (number w <? number self))
                        (versions db)) with
  | Some w => ret w
  | None => raise DoesNotExist
  end.

(** ** Deleting a version *)

(** [RepositoryVersion._squash].  [repo_relations] is the queryset
    [RepositoryContent.objects.filter(repository=self.repository)], kept as
    its filter.  [content_added] is a lazy queryset: it is evaluated inside
    the statement that builds [content_removed_and_readded], after the first
    [delete()].  [values_list('content_id')] yields 1-tuples, which the
    [__in] lookup of a foreign key unwraps to keys. *)
Definition _squash (self : RepositoryVersion)
           (repo_relations : RepositoryContent -> bool)
           (next_version : RepositoryVersion) : M unit :=
  delete_where (fun r => repo_relations r && added_is self r && removed_is next_version r) ;;
  db <- get_db ;;
  let content_added :=
    map content_id
        (filter (fun r => repo_relations r && added_is next_version r)
                (repository_content db)) in
  let content_removed_and_readded :=
    map content_id
        (filter (fun r => repo_relations r && removed_is self r
                          && mem (content_id r) content_added)
                (repository_content db)) in
  update_version_removed
    (fun r => repo_relations r && removed_is self r
              && mem (content_id r) content_removed_and_readded) None ;;
  delete_where (fun r => repo_relations r && added_is next_version r
                         && mem (content_id r) content_removed_and_readded) ;;
  update_version_added (fun r => repo_relations r && added_is self r)
                       (version_pk next_version) ;;
  update_version_removed (fun r => repo_relations r && removed_is self r)
                         (Some (version_pk next_version)).

(** [Model.delete] on a [RepositoryVersion]: the row goes, and so do the
    rows that point to it with [on_delete=CASCADE] (memberships through
    [version_added] or [version_removed], count details); a [base_version]
    pointing to it is set to null. *)
Definition Model_delete_RepositoryVersion (self : RepositoryVersion) : M unit :=
  modify (fun db =>
    mkDB (repositories db)
         (map (fun v => if opk_eqb (base_version v) (Some (version_pk self))
                        then mkVersion (version_pk v) (repository v) (number v) (complete v) None
                        else v)
              (filter (fun v => negb (Nat.eqb (version_pk v) (version_pk self))) (versions db)))
         (filter (fun r => negb (added_is self r || removed_is self r)) (repository_content db))
         (created_resources db)
         (filter (fun d => negb (Nat.eqb (repository_version d) (version_pk self)))
                 (content_details db))
         (pulp_type db) (next_pk db)).

(** [RepositoryVersion.delete].  The [try] block covers [next()] and
    [_squash]; only [DoesNotExist] is handled.  The branch of a complete
    version runs outside of a transaction. *)
Definition delete (self : RepositoryVersion) : M unit :=
  if complete self then
    let repo_relations := fun r => Nat.eqb (rc_repository r) (repository self) in
    try_except
      (next_version <- next self ;;
       _squash self repo_relations next_version)
      is_DoesNotExist
      (fun _ =>
         delete_where (fun r => repo_relations r && added_is self r) ;;
         update_version_removed (fun r => repo_relations r && removed_is self r) None) ;;
    Model_delete_RepositoryVersion self
  else
    atomic (
      delete_where (added_is self) ;;
      update_version_removed (removed_is self) None ;;
      modify (fun db => set_created_resources
                          (filter (fun o => negb (Nat.eqb o (version_pk self)))
                                  (created_resources db)) db) ;;
      Repository_save (mkRepository (repository self) (number self - 1)) ;;
      Model_delete_RepositoryVersion self).

(** ** Counts *)

(** [qs.values('pulp_type').annotate(count=Count('pulp_type'))] on the
    types of the rows of [qs]. *)
Fixpoint annotate (types : list string) : list (string * Z) :=
  match types with
  | [] => []
  | t :: rest =>
      let counted := annotate rest in
      if existsb (fun p => String.eqb (fst p) t) counted
      then map (fun p => if String.eqb (fst p) t then (fst p, snd p + 1) else p) counted
      else (t, 1) :: counted
  end.

(** One round of the loop of [_compute_counts]. *)
Definition counts_of (self : RepositoryVersion) (value : CountType)
  : M (list RepositoryVersionContentDetails) :=
  modify (fun db => set_content_details
                      (filter (fun d => negb (Nat.eqb (repository_version d) (version_pk self)))
                              (content_details db)) db) ;;
  db <- get_db ;;
  let qs := match value with
            | ADDED => added self db
            | PRESENT => content self db
            | REMOVED => removed self db
            end in
  ret (map (fun item => mkDetails value (fst item) (version_pk self) (snd item))
           (annotate (map (pulp_type db) qs))).

Definition _compute_counts (self : RepositoryVersion) : M unit :=
  atomic (
    a <- counts_of self ADDED ;;
    p <- counts_of self PRESENT ;;
    r <- counts_of self REMOVED ;;
    modify (fun db => set_content_details (content_details db ++ a ++ p ++ r) db)).

(** ** The version-building scope *)

Definition with_complete (b : bool) (v : RepositoryVersion) : RepositoryVersion :=
  mkVersion (version_pk v) (repository v) (number v) b (base_version v).

Definition isnil {A} (l : list A) : bool :=
  match l with [] => true | _ => false end.

Definition catch_all (e : exn) : bool := true.

(** [RepositoryVersion.__exit__].  [finalize_new_version] is the method of
    that name of the repository, which plugins override; it receives the
    version.  The handler of [except Exception] deletes the instance as it
    is when the exception arrives: complete once [self.complete = True] has
    run. *)
Definition __exit__ (finalize_new_version : RepositoryVersion -> M unit)
           (self : RepositoryVersion) (exc_value : option exn) : M unit :=
  match exc_value with
  | Some _ => delete self
  | None =>
      let handler (self : RepositoryVersion) (e : exn) : M unit :=
        delete self ;; raise e in
      no_change <-
        try_except
          (finalize_new_version self ;;
           db <- get_db ;;
           let no_change := isnil (added self db) && isnil (removed self db) in
           (if no_change then delete self else ret tt) ;;
           ret no_change)
          catch_all
          (fun e => handler self e ;; ret true) ;;
      if no_change then ret tt
      else
        let self := with_complete true self in
        try_except
          (RepositoryVersion_save self ;;
           _compute_counts self)
          catch_all
          (handler self)
  end.

(** [Repository.finalize_new_version] as this file defines it: [pass]. *)
Definition finalize_new_version (new_version : RepositoryVersion) : M unit := ret tt.

(** [with version: body].  [__exit__] returns [None], so an exception of
    the body propagates once [__exit__] has returned; an exception raised by
    [__exit__] itself replaces it. *)
Definition with_version (hook : RepositoryVersion -> M unit)
           (version : RepositoryVersion) (body : M unit) : M unit :=
  fun db =>
    match body db with
    | (inl e, db1) =>
        match __exit__ hook version (Some e) db1 with
        | (inl e', db2) => (inl e', db2)
        | (inr _, db2) => (inl e, db2)
        end
    | (inr _, db1) => __exit__ hook version None db1
    end.

(** ** [Repository.new_version] and [Repository.latest_version] *)

(** [task_current] is the truth value of [Task.current], read from the
    task module. *)
Definition new_version (self : Repository) (base : option RepositoryVersion)
           (task_current : bool) : M RepositoryVersion :=
  atomic (
    p <- fresh_pk ;;
    let version := mkVersion p (repo_pk self) (last_version self + 1) false
                             (option_map version_pk base) in
    let self := mkRepository (repo_pk self) (number version) in
    Repository_save self ;;
    RepositoryVersion_save version ;;
    match base with
    | Some base_version =>
        db <- get_db ;;
        remove_content version (exclude_in (content version db) (content base_version db)) ;;
        db <- get_db ;;
        add_content version (exclude_in (content base_version db) (content version db))
    | None => ret tt
    end ;;
    (if task_current
     then modify (fun db => set_created_resources (created_resources db ++ [version_pk version]) db)
     else ret tt) ;;
    ret version).

(** [self.versions.get(number=self.last_version)] under
    [suppress(RepositoryVersion.DoesNotExist)]. *)
Definition latest_version (self : Repository) : M (option RepositoryVersion) :=
  try_except
    (db <- get_db ;;
     match filter (fun v => Nat.eqb (repository v) (repo_pk self)
                            && (number v =? last_version self))
                  (versions db) with
     | [] => raise DoesNotExist
     | [model] => ret (Some model)
     | _ => raise MultipleObjectsReturned
     end)
    is_DoesNotExist
    (fun _ => ret None).

(** ** Integrity conditions of the store *)

(** Referential integrity of [version_removed]: a non-null foreign key
    points to a version row. *)
Definition removed_fk_ok (db : DB) : bool :=
  forallb (fun r => match version_removed r with
                    | Some w => existsb (fun v => Nat.eqb (version_pk v) w) (versions db)
                    | None => true
                    end)
          (repository_content db).


(** Keys of version rows are unique, and so are their pairs
    (repository, number). *)
Fixpoint versions_unique (l : list RepositoryVersion) : bool :=
  match l with
  | [] => true
  | v :: t =>
      forallb (fun w => negb (Nat.eqb (version_pk v) (version_pk w))
                        && negb (Nat.eqb (repository v) (repository w)
                                 && (number v =? number w))) t
      && versions_unique t
  end.

(** A membership points to versions of its own repository, and is not
    removed at a lower number than it was added. *)
Definition record_ok (db : DB) (r : RepositoryContent) : bool :=
  match get_version db (version_added r) with
  | Some a =>
      Nat.eqb (repository a) (rc_repository r)
      && match version_removed r with
         | None => true
         | Some w =>
             match get_version db w with
             | Some x => Nat.eqb (repository x) (rc_repository r) && (number a <=? number x)
             | None => false
             end
         end
  | None => false
  end.

Definition ledger_ok (db : DB) : bool :=
  versions_unique (versions db) && forallb (record_ok db) (repository_content db).

(** [p] and [n] are versions of one repository, [p] below [n], and no
    version row of that repository has a number strictly between. *)
Definition consecutive (db : DB) (p n : RepositoryVersion) : bool :=
  Nat.eqb (repository p) (repository n)
  && (number p <? number n)
  && forallb (fun w => negb (Nat.eqb (repository w) (repository n)
                             && (number p <? number w) && (number w <? number n)))
             (versions db).

(** The consecutive-version law at one content unit, and for all units:
    [content_at(N) == (content_at(N-1) | added_at(N)) - removed_at(N)]. *)
Definition law_at (db : DB) (p n : RepositoryVersion) (c : pk) : Prop :=
  In c (content n db) <->
  (In c (content p db) \/ In c (added n db)) /\ ~ In c (removed n db).

Definition consecutive_law (db : DB) (p n : RepositoryVersion) : Prop :=
  forall c, law_at db p n c.

(** ** States named in the statements *)

(** The ledger once a version is discarded: its additions are gone and its
    removals are cleared. *)
Definition undo_version (self : RepositoryVersion) (l : list RepositoryContent)
  : list RepositoryContent :=
  map (fun r => if removed_is self r then set_version_removed None r else r)
      (filter (fun r => negb (added_is self r)) l).

(** The database after an open version has been deleted. *)
Definition discarded (self : RepositoryVersion) (db : DB) : DB :=
  mkDB (map (fun r => if Nat.eqb (repo_pk r) (repository self)
                      then mkRepository (repository self) (number self - 1) else r)
            (repositories db))
       (map (fun v => if opk_eqb (base_version v) (Some (version_pk self))
                      then mkVersion (version_pk v) (repository v) (number v) (complete v) None
                      else v)
            (filter (fun v => negb (Nat.eqb (version_pk v) (version_pk self))) (versions db)))
       (undo_version self (repository_content db))
       (filter (fun o => negb (Nat.eqb o (version_pk self))) (created_resources db))
       (filter (fun d => negb (Nat.eqb (repository_version d) (version_pk self)))
               (content_details db))
       (pulp_type db) (next_pk db).

Definition has_repository (db : DB) (p : pk) : bool :=
  existsb (fun r => Nat.eqb (repo_pk r) p) (repositories db).

(** The version that [new_version] constructs, and the database once the
    repository and the version have been saved. *)
Definition opened_version (self : Repository) (base : option RepositoryVersion) (db : DB)
  : RepositoryVersion :=
  mkVersion (next_pk db) (repo_pk self) (last_version self + 1) false
            (option_map version_pk base).

Definition opened (self : Repository) (base : option RepositoryVersion) (db : DB) : DB :=
  mkDB (map (fun r => if Nat.eqb (repo_pk r) (repo_pk self)
                      then mkRepository (repo_pk self) (last_version self + 1) else r)
            (repositories db))
       (versions db ++ [opened_version self base db])
       (repository_content db) (created_resources db) (content_details db)
       (pulp_type db) (S (next_pk db)).

(** The block [if base_version: ...] of [new_version]. *)
Definition diff_base (version : RepositoryVersion) (base : option RepositoryVersion) : M unit :=
  match base with
  | Some base_version =>
      db <- get_db ;;
      remove_content version (exclude_in (content version db) (content base_version db)) ;;
      db <- get_db ;;
      add_content version (exclude_in (content base_version db) (content version db))
  | None => ret tt
  end.

(** Every key stored in the database was drawn before [next_pk]. *)
Definition keys_fresh (db : DB) : bool :=
  forallb (fun v => (version_pk v <? next_pk db)%nat
                    && match base_version v with
                       | Some b => (b <? next_pk db)%nat
                       | None => true
                       end) (versions db)
  && forallb (fun r => (version_added r <? next_pk db)%nat
                       && match version_removed r with
                          | Some w => (w <? next_pk db)%nat
                          | None => true
                          end) (repository_content db)
  && forallb (fun o => (o <? next_pk db)%nat) (created_resources db)
  && forallb (fun d => (repository_version d <? next_pk db)%nat) (content_details db).

(** Two databases that differ in the ledger only. *)
Definition same_but_ledger (db db' : DB) : Prop :=
  db' = set_repository_content (repository_content db') db.

(** ** Code run inside the scope of an open version *)

(** What the body of the [with] statement, or a plugin's
    [finalize_new_version], does to the version: calls of [add_content] and
    [remove_content], and possibly an exception. *)
Inductive Mutation :=
| AddContent (content_q : list pk)
| RemoveContent (content_q : list pk)
| Raise (e : exn).

Definition run_mutation (version : RepositoryVersion) (m : Mutation) : M unit :=
  match m with
  | AddContent content_q => add_content version content_q
  | RemoveContent content_q => remove_content version content_q
  | Raise e => raise e
  end.

Fixpoint run_script (version : RepositoryVersion) (s : list Mutation) : M unit :=
  match s with
  | [] => ret tt
  | m :: rest => run_mutation version m ;; run_script version rest
  end.

(** The instance [self] carries the counter of its row. *)
Definition in_sync (self : Repository) (db : DB) : bool :=
  forallb (fun r => negb (Nat.eqb (repo_pk r) (repo_pk self))
                    || (last_version r =? last_version self))
          (repositories db).

(** ** Conditions and states of base-version cloning *)

Fixpoint nodupb (l : list pk) : bool :=
  match l with
  | [] => true
  | c :: t => negb (mem c t) && nodupb t
  end.

(** No version of the repository, and no removal boundary of its records,
    is numbered above the counter of [self]. *)
Definition counter_covers (self : Repository) (db : DB) : bool :=
  forallb (fun w => negb (Nat.eqb (repository w) (repo_pk self))
                    || (number w <=? last_version self)) (versions db)
  && forallb (fun r => negb (Nat.eqb (rc_repository r) (repo_pk self))
                       || match version_removed r with
                          | None => true
                          | Some w => number_lte db w (last_version self)
                          end) (repository_content db).

(** A record of the repository that has not been removed. *)
Definition active_in (p : pk) (r : RepositoryContent) : bool :=
  Nat.eqb (rc_repository r) p && opk_eqb (version_removed r) None.

(** A unit has at most one record of the repository that is not removed. *)
Definition active_unique (self : Repository) (db : DB) : bool :=
  nodupb (map content_id (filter (active_in (repo_pk self)) (repository_content db))).

(** What [new_version self (Some b)] takes out of the new version, and
    what it adds: the units in the content of the new version but not in
    the content of [b], and the units in the content of [b] but not in the
    content of the new version. *)
Definition clone_removed (self : Repository) (b : RepositoryVersion) (db : DB) : list pk :=
  exclude_in (content (opened_version self (Some b) db) (opened self (Some b) db))
             (content b db).

Definition clone_added (self : Repository) (b : RepositoryVersion) (db : DB) : list pk :=
  exclude_in (content b db)
             (content (opened_version self (Some b) db) (opened self (Some b) db)).

(** The records that get [version_removed = the new version]: those of the
    repository, not removed, of a unit in [clone_removed]. *)
Definition to_remove (self : Repository) (b : RepositoryVersion) (db : DB)
           (r : RepositoryContent) : bool :=
  Nat.eqb (rc_repository r) (repo_pk self)
  && mem (content_id r) (clone_removed self b db)
  && opk_eqb (version_removed r) None.

(** The ledger after [new_version self (Some b)]: the old records, marked
    where [to_remove] says so, then one record
    [version_added = the new version] for each unit of [clone_added]. *)
Definition cloned_ledger (self : Repository) (b : RepositoryVersion) (db : DB)
  : list RepositoryContent :=
  map (fun r => if to_remove self b db r
                then set_version_removed (Some (next_pk db)) r else r)
      (repository_content db)
  ++ map (fun c => mkRC c (repo_pk self) (next_pk db) None)
         (clone_added self b db).

(** [d] has the version rows of [db] and one more, [w], which carries the
    key and the number of the version that [new_version self] opens. *)
Definition extends (self : Repository) (db d : DB) (w : RepositoryVersion) : Prop :=
  versions d = versions db ++ [w]
  /\ version_pk w = next_pk db
  /\ number w = last_version self + 1.

(** The database after a complete version without successor has been
    deleted. *)
Definition deleted_latest (self : RepositoryVersion) (db : DB) : DB :=
  let repo_relations := fun r => Nat.eqb (rc_repository r) (repository self) in
  mkDB (repositories db)
       (map (fun v => if opk_eqb (base_version v) (Some (version_pk self))
                      then mkVersion (version_pk v) (repository v) (number v) (complete v) None
                      else v)
            (filter (fun v => negb (Nat.eqb (version_pk v) (version_pk self))) (versions db)))
       (filter (fun r => negb (added_is self r || removed_is self r))
               (map (fun r => if repo_relations r && removed_is self r
                              then set_version_removed None r else r)
                    (filter (fun r => negb (repo_relations r && added_is self r))
                            (repository_content db))))
       (created_resources db)
       (filter (fun d => negb (Nat.eqb (repository_version d) (version_pk self)))
               (content_details db))
       (pulp_type db) (next_pk db).

(** ** States named in the further statements *)

(** The list [content_removed_and_readded] that [_squash] computes on the
    ledger [l1] left by its first statement. *)
Definition squash_readded (self : RepositoryVersion)
           (repo_relations : RepositoryContent -> bool)
           (next_version : RepositoryVersion)
           (l1 : list RepositoryContent) : list pk :=
  let content_added :=
    map content_id (filter (fun r => repo_relations r && added_is next_version r) l1) in
  map content_id (filter (fun r => repo_relations r && removed_is self r
                                   && mem (content_id r) content_added) l1).

(** The ledger that [_squash] leaves when none of its statements is
    refused, statement by statement. *)
Definition squashed_ledger (self : RepositoryVersion)
           (repo_relations : RepositoryContent -> bool)
           (next_version : RepositoryVersion)
           (l : list RepositoryContent) : list RepositoryContent :=
  let l1 := filter (fun r => negb (repo_relations r && added_is self r
                                   && removed_is next_version r)) l in
  let content_removed_and_readded := squash_readded self repo_relations next_version l1 in
  let l3 := map (fun r => if repo_relations r && removed_is self r
                             && mem (content_id r) content_removed_and_readded
                          then set_version_removed None r else r) l1 in
  let l4 := filter (fun r => negb (repo_relations r && added_is next_version r
                                   && mem (content_id r) content_removed_and_readded)) l3 in
  let l5 := map (fun r => if repo_relations r && added_is self r
                          then set_version_added (version_pk next_version) r else r) l4 in
  map (fun r => if repo_relations r && removed_is self r
                then set_version_removed (Some (version_pk next_version)) r else r) l5.

(** The units that the deleted version removed, that the next version
    added again, and that a later version removed again: the units of the
    records [version_added = next_version] with a non-null
    [version_removed], for which the repository also has a record
    [version_removed = self]. *)
Definition removed_again (self next_version : RepositoryVersion) (db : DB) : list pk :=
  map content_id
      (filter (fun r2 =>
                 Nat.eqb (rc_repository r2) (repository self)
                 && added_is next_version r2
                 && negb (opk_eqb (version_removed r2) None)
                 && existsb (fun r1 => Nat.eqb (rc_repository r1) (repository self)
                                       && removed_is self r1
                                       && Nat.eqb (content_id r1) (content_id r2))
                            (repository_content db))
              (repository_content db)).

(** What the last four statements of [_squash] make of one record, given
    the list [content_removed_and_readded]. *)
Definition squash_record (self next_version : RepositoryVersion) (readded : list pk)
           (r : RepositoryContent) : RepositoryContent :=
  let repo_relations := fun r => Nat.eqb (rc_repository r) (repository self) in
  let f3 := fun r => if repo_relations r && removed_is self r && mem (content_id r) readded
                     then set_version_removed None r else r in
  let f5 := fun r => if repo_relations r && added_is self r
                     then set_version_added (version_pk next_version) r else r in
  let f6 := fun r => if repo_relations r && removed_is self r
                     then set_version_removed (Some (version_pk next_version)) r else r in
  f6 (f5 (f3 r)).

(** The queryset that [_compute_counts] counts for one count type, and
    the objects it makes of it. *)
Definition counted (self : RepositoryVersion) (value : CountType) (db : DB) : list pk :=
  match value with
  | ADDED => added self db
  | PRESENT => content self db
  | REMOVED => removed self db
  end.

Definition count_rows (self : RepositoryVersion) (value : CountType) (db : DB)
  : list RepositoryVersionContentDetails :=
  map (fun item => mkDetails value (fst item) (version_pk self) (snd item))
      (annotate (map (pulp_type db) (counted self value db))).

Definition other_details (self : RepositoryVersion) (db : DB)
  : list RepositoryVersionContentDetails :=
  filter (fun d => negb (Nat.eqb (repository_version d) (version_pk self)))
         (content_details db).

(** The initial version that [Repository.save] makes for a new repository. *)
Definition initial_version (self : Repository) (db : DB) : RepositoryVersion :=
  mkVersion (next_pk db) (repo_pk self) (last_version self) true None.

(** No version row points to the repository with key [p]. *)
Definition no_versions_of (p : pk) (db : DB) : bool :=
  forallb (fun v => negb (Nat.eqb (repository v) p)) (versions db).

(** ** [Remote] *)

(** The exceptions of the methods of [Remote].  The text of a
    [ValueError] goes through [gettext] and is left out. *)
Inductive remote_exn := ValueError | TypeError.

(** Of the fields of [Remote], the methods below read [url]. *)
Record Remote := mkRemote { remote_url : string }.

(** [RemoteArtifact] as [get_downloader] reads it: [url], [size], and the
    digest fields through [getattr]. *)
Record RemoteArtifact := mkRemoteArtifact {
  ra_url : string;
  ra_size : option Z;
  ra_digest : string -> option string
}.

(** *** [os.path] on POSIX *)

Definition sep : string := "/"%string.

(** [path.isabs(s)]: [s.startswith('/')]. *)
Definition isabs (s : string) : bool := String.prefix sep s.

(** [s.endswith(suffix)] *)
Fixpoint endswith (s suffix : string) : bool :=
  String.eqb s suffix
  || match s with
     | EmptyString => false
     | String _ t => endswith t suffix
     end.

(** [path.join(a, b)] *)
Definition join (a b : string) : string :=
  if String.prefix sep b then b
  else if (String.eqb a EmptyString || endswith a sep)%bool then String.append a b
  else String.append a (String.append sep b).

(** [Remote.get_remote_artifact_url]; without argument [relative_path] is
    [None], which [path.isabs] refuses. *)
Definition get_remote_artifact_url (self : Remote) (relative_path : option string)
  : remote_exn + string :=
  match relative_path with
  | None => inl TypeError
  | Some relative_path =>
      if isabs relative_path then inl ValueError
      else inr (join (remote_url self) relative_path)
  end.

(** *** Dictionaries *)

(** [d[k] = v] on a dictionary kept in insertion order. *)
Fixpoint dict_set {V} (k : string) (v : V) (d : list (string * V)) : list (string * V) :=
  match d with
  | [] => [(k, v)]
  | (k', v') :: t =>
      if String.eqb k' k then (k, v) :: t else (k', v') :: dict_set k v t
  end.

Definition dict_get {V} (k : string) (d : list (string * V)) : option V :=
  option_map snd (find (fun p => String.eqb (fst p) k) d).

(** Truth value of a nullable string, of a nullable integer. *)
Definition truthy_str (s : option string) : bool :=
  match s with
  | Some (String _ _) => true
  | _ => false
  end.

Definition truthy_int (n : option Z) : bool :=
  match n with
  | Some n => negb (n =? 0)
  | None => false
  end.

Section Downloader.

(** [Artifact.DIGEST_FIELDS], defined with the [Artifact] model, and the
    values of the keyword arguments that the caller passes on to the
    downloader. *)
Variable DIGEST_FIELDS : list string.
Variable Value : Type.

Inductive kwarg :=
| ExpectedDigests (d : list (string * string))
| ExpectedSize (n : Z)
| Passed (v : Value).

(** The loop over [Artifact.DIGEST_FIELDS]. *)
Definition collect_digests (remote_artifact : RemoteArtifact) : list (string * string) :=
  fold_left (fun expected_digests digest_name =>
               match ra_digest remote_artifact digest_name with
               | Some digest_value =>
                   if truthy_str (Some digest_value)
                   then dict_set digest_name digest_value expected_digests
                   else expected_digests
               | None => expected_digests
               end)
            DIGEST_FIELDS [].

(** [Remote.get_downloader].  The result is the call
    [self.download_factory.build(url, **kwargs)], given by its arguments. *)
Definition get_downloader (self : Remote) (remote_artifact : option RemoteArtifact)
           (url : option string) (kwargs : list (string * kwarg))
  : remote_exn + (string * list (string * kwarg)) :=
  if (match remote_artifact with Some _ => true | None => false end) && truthy_str url
  then inl ValueError
  else
    match remote_artifact, url with
    | None, None => inl ValueError
    | Some remote_artifact, _ =>
        let url := ra_url remote_artifact in
        let expected_digests := collect_digests remote_artifact in
        let kwargs :=
          if isnil expected_digests then kwargs
          else dict_set "expected_digests"%string (ExpectedDigests expected_digests) kwargs in
        let kwargs :=
          match ra_size remote_artifact with
          | Some size =>
              if truthy_int (Some size)
              then dict_set "expected_size"%string (ExpectedSize size) kwargs
              else kwargs
          | None => kwargs
          end in
        inr (url, kwargs)
    | None, Some url => inr (url, kwargs)
    end.

End Downloader.

(** ** Integrity of the store around a repository *)

(** The conditions under which the properties of a repository are stated:
    the ledger is consistent, every key was drawn from the counter of
    keys, and the counter of the repository covers its versions. *)
Definition store_ok (self : Repository) (db : DB) : bool :=
  ledger_ok db && keys_fresh db && counter_covers self db.

(** What the conditions ask of one record. *)
Definition record_fits (self : Repository) (db : DB) (r : RepositoryContent) : bool :=
  record_ok db r
  && (version_added r <? next_pk db)%nat
  && match version_removed r with
     | Some w =>
         (w <? next_pk db)%nat
         && (negb (Nat.eqb (rc_repository r) (repo_pk self))
             || number_lte db w (last_version self))
     | None => true
     end.

(** The repository as an open version sees it: the counter is the number
    of the version. *)
Definition repository_of (v : RepositoryVersion) : Repository :=
  mkRepository (repository v) (number v).

(** ** Scenarios *)

Module Scenario.

Definition empty_db : DB := mkDB [] [] [] [] [] (fun _ => "file"%string) 1%nat.

Definition repo : pk := 0%nat.
Definition unit_a : pk := 10%nat.
Definition unit_b : pk := 11%nat.
Definition unit_c : pk := 12%nat.

(** A task: fetch the repository, open a version and run [body] in its
    scope, as in [with repository.new_version() as v: body(v)]. *)
Definition build (base : option RepositoryVersion) (body : RepositoryVersion -> M unit)
  : M RepositoryVersion :=
  db <- get_db ;;
  match get_repository db repo with
  | Some r =>
      v <- new_version r base true ;;
      with_version finalize_new_version v (body v) ;;
      ret v
  | None => raise DoesNotExist
  end.

(** Version 1 adds a unit; version 2 removes it and adds it again. *)
Definition readd : M unit :=
  Repository_save (mkRepository repo 0) ;;
  build None (fun v => add_content v [unit_a]) ;;
  build None (fun v => remove_content v [unit_a] ;; add_content v [unit_a]) ;;
  ret tt.

Definition db_readd : DB := Eval vm_compute in snd (readd empty_db).

Definition v0 : RepositoryVersion := mkVersion 1%nat repo 0 true None.
Definition v1 : RepositoryVersion := mkVersion 2%nat repo 1 true None.
Definition v2 : RepositoryVersion := mkVersion 3%nat repo 2 true None.

(** Version 3, open, right after [new_version]. *)
Definition v3 : RepositoryVersion := mkVersion 4%nat repo 3 false None.

Definition db_open3 : DB :=
  Eval vm_compute in snd (new_version (mkRepository repo 2) None true db_readd).

(** A body that adds a unit to version 3 and then fails. *)
Definition failing_body : list Mutation :=
  [AddContent [unit_b]; Raise (PluginError "sync failed")].

Definition db_failed : DB :=
  Eval vm_compute in snd (run_script v3 failing_body db_open3).

(** Four versions of a second history: the unit is added by version 1,
    removed by version 2, added again by version 3 and removed again by
    version 4. *)
Definition churn : M unit :=
  Repository_save (mkRepository repo 0) ;;
  build None (fun v => add_content v [unit_a]) ;;
  build None (fun v => remove_content v [unit_a]) ;;
  build None (fun v => add_content v [unit_a]) ;;
  build None (fun v => remove_content v [unit_a]) ;;
  ret tt.

Definition db_churn : DB := Eval vm_compute in snd (churn empty_db).

Definition w2 : RepositoryVersion := mkVersion 3%nat repo 2 true None.
Definition w3 : RepositoryVersion := mkVersion 4%nat repo 3 true None.
Definition w4 : RepositoryVersion := mkVersion 5%nat repo 4 true None.

(** The same history once version 2 has been deleted. *)
Definition db_squashed : DB := Eval vm_compute in snd (delete w2 db_churn).

(** The scenario of the specification: version 1 adds three units,
    version 2 removes the second one. *)
Definition three_units : M unit :=
  Repository_save (mkRepository repo 0) ;;
  build None (fun v => add_content v [unit_a; unit_b; unit_c]) ;;
  build None (fun v => remove_content v [unit_b]) ;;
  ret tt.

Definition db_three : DB := Eval vm_compute in snd (three_units empty_db).

End Scenario.


(** ** Further scenarios *)

Module Further.

(** Version 3 of the first history, closed without exception after a unit
    was added to it. *)
Definition db_closed3 : DB :=
  Eval vm_compute in
    snd (__exit__ finalize_new_version Scenario.v3 None Scenario.db_failed).

(** A remote, and an artifact with a size, one digest set and one digest
    left empty. *)
Definition remote : Remote := mkRemote "http://example.org/repo"%string.

Definition digest_fields : list string := ["md5"; "sha256"]%string.

Definition artifact : RemoteArtifact :=
  mkRemoteArtifact "http://example.org/repo/a.rpm"%string (Some 5)
    (fun name => if String.eqb name "sha256"%string then Some "c0ffee"%string
                 else if String.eqb name "md5"%string then Some EmptyString
                 else None).

End Further.
(** * Properties *)

(** ** Basic facts on keys and on the monad *)

Lemma mem_In (c : pk) (l : list pk) : mem c l = true <-> In c l.
Proof.
  unfold mem. rewrite existsb_exists. split.
  - intros [x [Hx Heq]]. apply Nat.eqb_eq in Heq. now subst.
  - intros H. exists c. split; [assumption | apply Nat.eqb_refl].
Qed.

Lemma mem_false (c : pk) (l : list pk) : mem c l = false <-> ~ In c l.
Proof.
  rewrite <- mem_In. destruct (mem c l); split; intros H; congruence.
Qed.

Lemma opk_eqb_eq (a b : option pk) : opk_eqb a b = true <-> a = b.
Proof.
  destruct a as [x|], b as [y|]; simpl; try (split; congruence).
  rewrite Nat.eqb_eq. split; congruence.
Qed.

Lemma removed_is_eq (v : RepositoryVersion) (r : RepositoryContent) :
  removed_is v r = true <-> version_removed r = Some (version_pk v).
Proof. apply opk_eqb_eq. Qed.

Lemma added_is_eq (v : RepositoryVersion) (r : RepositoryContent) :
  added_is v r = true <-> version_added r = version_pk v.
Proof. apply Nat.eqb_eq. Qed.

Lemma exclude_in_In (c : pk) (qs other : list pk) :
  In c (exclude_in qs other) <-> In c qs /\ ~ In c other.
Proof.
  unfold exclude_in. rewrite filter_In, negb_true_iff, mem_false. tauto.
Qed.

Lemma bind_inr {A B} (m : M A) (k : A -> M B) db b db' :
  bind m k db = (inr b, db') ->
  exists a db1, m db = (inr a, db1) /\ k a db1 = (inr b, db').
Proof.
  unfold bind. destruct (m db) as [[e|a] db1]; intros H; [discriminate|].
  now exists a, db1.
Qed.

Lemma atomic_inr {A} (m : M A) db a db' :
  atomic m db = (inr a, db') -> m db = (inr a, db').
Proof.
  unfold atomic. destruct (m db) as [[e|x] db1]; intros H; congruence.
Qed.

(** ** The ledger and [content]: C3 *)

Lemma get_version_exists (db : DB) (w : pk) :
  existsb (fun v => Nat.eqb (version_pk v) w) (versions db) = true ->
  exists x, get_version db w = Some x.
Proof.
  unfold get_version. intros H. apply existsb_exists in H as [v [Hin Hv]].
  destruct (find (fun v0 => Nat.eqb (version_pk v0) w) (versions db)) as [x|] eqn:E.
  - now exists x.
  - exfalso. apply (find_none _ _ E) in Hin. congruence.
Qed.

Lemma relationships_In (self : RepositoryVersion) (db : DB) (r : RepositoryContent) :
  In r (relationships self db) <->
  In r (repository_content db)
  /\ rc_repository r = repository self
  /\ number_lte db (version_added r) (number self) = true
  /\ match version_removed r with
     | Some w => number_lte db w (number self) = false
     | None => True
     end.
Proof.
  unfold relationships, present_at.
  rewrite filter_In, !andb_true_iff, negb_true_iff, Nat.eqb_eq.
  destruct (version_removed r); intuition congruence.
Qed.

Lemma number_lte_true (db : DB) (p : pk) (n : Z) :
  number_lte db p n = true <-> exists a, get_version db p = Some a /\ number a <= n.
Proof.
  unfold number_lte. destruct (get_version db p) as [a|].
  - rewrite Z.leb_le. split; [intros H; now exists a | intros [b [Hb Hle]]; congruence].
  - split; [discriminate | intros [b [Hb _]]; discriminate].
Qed.

(** C3.  A content unit is in the content of a version exactly when the
    ledger holds a record for it, of the version's repository, whose
    [version_added] has a number at most the version's and whose
    [version_removed] is null or has a greater number.  The store is assumed
    to keep the foreign key [version_removed] valid. *)
Theorem content_iff_record (self : RepositoryVersion) (db : DB) (c : pk) :
  removed_fk_ok db = true ->
  (In c (content self db) <->
   exists r, In r (repository_content db)
             /\ content_id r = c
             /\ rc_repository r = repository self
             /\ (exists a, get_version db (version_added r) = Some a
                           /\ number a <= number self)
             /\ (version_removed r = None
                 \/ exists w x, version_removed r = Some w
                                /\ get_version db w = Some x
                                /\ number self < number x)).
Proof.
  intros Hfk. unfold content. rewrite in_map_iff. split.
  - intros [r [Hc Hr]]. apply relationships_In in Hr as (Hin & Hrepo & Hadd & Hrem).
    exists r. repeat split; try assumption.
    + now apply number_lte_true.
    + destruct (version_removed r) as [w|] eqn:Ew; [right | now left].
      unfold removed_fk_ok in Hfk. rewrite forallb_forall in Hfk.
      specialize (Hfk r Hin). rewrite Ew in Hfk.
      destruct (get_version_exists db w Hfk) as [x Hx].
      exists w, x. repeat split; try assumption.
      unfold number_lte in Hrem. rewrite Hx in Hrem. apply Z.leb_gt in Hrem. lia.
  - intros [r (Hin & Hc & Hrepo & Hadd & Hrem)]. exists r. split; [assumption|].
    apply relationships_In. repeat split; try assumption.
    + now apply number_lte_true.
    + destruct Hrem as [Hnone | [w [x (Hw & Hx & Hlt)]]]; rewrite ?Hnone, ?Hw; [exact I|].
      unfold number_lte. rewrite Hx. apply Z.leb_gt. lia.
Qed.

(** Witness of [content_iff_record]: version 2 of the scenario and the unit
    it removed and added again. *)
Lemma content_iff_record_witness :
  In Scenario.unit_a (content Scenario.v2 Scenario.db_readd) <->
  exists r, In r (repository_content Scenario.db_readd)
            /\ content_id r = Scenario.unit_a
            /\ rc_repository r = repository Scenario.v2
            /\ (exists a, get_version Scenario.db_readd (version_added r) = Some a
                          /\ number a <= number Scenario.v2)
            /\ (version_removed r = None
                \/ exists w x, version_removed r = Some w
                               /\ get_version Scenario.db_readd w = Some x
                               /\ number Scenario.v2 < number x).
Proof.
  apply (content_iff_record Scenario.v2 Scenario.db_readd Scenario.unit_a).
  vm_compute. reflexivity.
Defined.

(** ** Immutability of complete versions: C7 *)

Lemma bulk_create_cases (objs : list RepositoryContent) (db : DB) :
  bulk_create objs db = (inr tt, set_repository_content (repository_content db ++ objs) db)
  \/ bulk_create objs db = (inl IntegrityError, db).
Proof.
  destruct objs as [|o objs].
  - left. simpl. unfold ret. rewrite app_nil_r. now destruct db.
  - unfold bulk_create, bind, get_db.
    destruct (violates _ _); [right | left]; reflexivity.
Qed.

Lemma update_version_removed_cases (q : RepositoryContent -> bool) (x : option pk) (db : DB) :
  update_version_removed q x db =
    (inr tt, set_repository_content
               (map (fun r => if q r then set_version_removed x r else r)
                    (repository_content db)) db)
  \/ update_version_removed q x db = (inl IntegrityError, db).
Proof.
  unfold update_version_removed, bind, get_db.
  destruct (violates _ _); [right; reflexivity | left].
  unfold modify. rewrite map_map. do 2 f_equal.
  apply map_ext. intros r. now destruct (q r).
Qed.

(** C7.  [add_content] and [remove_content] raise [ResourceImmutableError]
    exactly when the version is complete; they then leave the database, the
    ledger included, as it was. *)
Theorem immutable_iff_complete (self : RepositoryVersion) (content_q : list pk) (db : DB) :
  ((exists v, fst (add_content self content_q db) = inl (ResourceImmutableError v))
   <-> complete self = true)
  /\ ((exists v, fst (remove_content self content_q db) = inl (ResourceImmutableError v))
      <-> complete self = true)
  /\ (complete self = true ->
      add_content self content_q db = (inl (ResourceImmutableError self), db)
      /\ remove_content self content_q db = (inl (ResourceImmutableError self), db)).
Proof.
  unfold add_content, remove_content.
  destruct (complete self) eqn:Ec.
  - repeat split; try (intros _; exists self; reflexivity); reflexivity.
  - repeat split; try discriminate.
    + intros [v H]. exfalso. unfold bind, get_db in H.
      match type of H with context [bulk_create ?o ?d] =>
        destruct (bulk_create_cases o d) as [E|E]; rewrite E in H end;
        discriminate.
    + intros [v H]. exfalso.
      match type of H with context [update_version_removed ?q ?x ?d] =>
        destruct (update_version_removed_cases q x d) as [E|E]; rewrite E in H end;
        discriminate.
Qed.

(** Witness of [immutable_iff_complete]: version 2 of the scenario, which
    is complete. *)
Lemma immutable_iff_complete_witness :
  add_content Scenario.v2 [Scenario.unit_b] Scenario.db_readd
  = (inl (ResourceImmutableError Scenario.v2), Scenario.db_readd)
  /\ remove_content Scenario.v2 [Scenario.unit_b] Scenario.db_readd
     = (inl (ResourceImmutableError Scenario.v2), Scenario.db_readd).
Proof.
  apply (proj2 (proj2 (immutable_iff_complete Scenario.v2 [Scenario.unit_b]
                                              Scenario.db_readd))).
  reflexivity.
Defined.

(** ** Idempotence of [add_content]: C8 *)

Lemma exclude_in_all (qs other : list pk) :
  (forall c, In c qs -> In c other) -> exclude_in qs other = [].
Proof.
  intros H. unfold exclude_in. induction qs as [|c qs IH]; [reflexivity|].
  simpl. assert (Hc : mem c other = true) by (apply mem_In, H; now left).
  rewrite Hc. simpl. apply IH. intros x Hx. apply H. now right.
Qed.

(** C8.  On an open version, [add_content] with units that are all in the
    version's content creates no record and leaves the database as it was,
    so the content and the number of records are unchanged.  In general the
    call either appends one record [version_added = self], with null
    [version_removed], for each given unit not in the content, and nothing
    else, or is refused by the store and changes nothing. *)
Theorem add_content_idempotent (self : RepositoryVersion) (content_q : list pk) (db : DB) :
  complete self = false ->
  ((forall c, In c content_q -> In c (content self db)) ->
   add_content self content_q db = (inr tt, db))
  /\ (add_content self content_q db =
        (inr tt,
         set_repository_content
           (repository_content db
            ++ map (fun c => mkRC c (repository self) (version_pk self) None)
                   (exclude_in content_q (content self db))) db)
      \/ add_content self content_q db = (inl IntegrityError, db)).
Proof.
  intros Hopen. unfold add_content. rewrite Hopen. unfold bind, get_db. split.
  - intros Hall. rewrite (exclude_in_all _ _ Hall). reflexivity.
  - apply bulk_create_cases.
Qed.

(** Witness of [add_content_idempotent]: the open version 3 of the
    scenario, asked to add a unit it already contains. *)
Lemma add_content_idempotent_witness :
  add_content Scenario.v3 [Scenario.unit_a] Scenario.db_open3
  = (inr tt, Scenario.db_open3).
Proof.
  apply (proj1 (add_content_idempotent Scenario.v3 [Scenario.unit_a]
                                       Scenario.db_open3 eq_refl)).
  intros c [Hc | []]. subst c. vm_compute. now left.
Defined.

(** ** The consecutive-version law: C2 *)

(** C2 as stated fails on a reachable ledger: version 2 removed the unit and
    added it again, so the unit is in the content, the added set and the
    removed set of version 2 at once. *)
Lemma consecutive_law_fails_on_readd :
  Scenario.readd Scenario.empty_db = (inr tt, Scenario.db_readd)
  /\ In Scenario.v1 (versions Scenario.db_readd)
  /\ In Scenario.v2 (versions Scenario.db_readd)
  /\ complete Scenario.v1 = true /\ complete Scenario.v2 = true
  /\ consecutive Scenario.db_readd Scenario.v1 Scenario.v2 = true
  /\ ledger_ok Scenario.db_readd = true
  /\ ~ consecutive_law Scenario.db_readd Scenario.v1 Scenario.v2.
Proof.
  split; [vm_compute; reflexivity|].
  repeat (split; [vm_compute; tauto|]).
  intros H. destruct (H Scenario.unit_a) as [H1 _].
  assert (Hin : In Scenario.unit_a (content Scenario.v2 Scenario.db_readd))
    by (vm_compute; now left).
  destruct (H1 Hin) as [_ Hnot]. apply Hnot. vm_compute. now left.
Qed.

Lemma versions_unique_pk (l : list RepositoryVersion) (a b : RepositoryVersion) :
  versions_unique l = true -> In a l -> In b l ->
  version_pk a = version_pk b -> a = b.
Proof.
  induction l as [|v t IH]; simpl; [tauto|].
  rewrite andb_true_iff, forallb_forall. intros [Hv Ht] Ha Hb Heq.
  destruct Ha as [Ha | Ha], Hb as [Hb | Hb]; subst; auto.
  - apply Hv in Hb. rewrite Heq, Nat.eqb_refl in Hb. discriminate.
  - apply Hv in Ha. rewrite Heq, Nat.eqb_refl in Ha. discriminate.
Qed.

Lemma versions_unique_number (l : list RepositoryVersion) (a b : RepositoryVersion) :
  versions_unique l = true -> In a l -> In b l ->
  repository a = repository b -> number a = number b -> a = b.
Proof.
  induction l as [|v t IH]; simpl; [tauto|].
  rewrite andb_true_iff, forallb_forall. intros [Hv Ht] Ha Hb Hr Hn.
  destruct Ha as [Ha | Ha], Hb as [Hb | Hb]; subst; auto.
  - apply Hv in Hb. rewrite Hr, Hn, Nat.eqb_refl, Z.eqb_refl, andb_false_r in Hb.
    discriminate.
  - apply Hv in Ha. rewrite <- Hr, <- Hn, Nat.eqb_refl, Z.eqb_refl, andb_false_r in Ha.
    discriminate.
Qed.

Lemma get_version_some (db : DB) (p : pk) (a : RepositoryVersion) :
  get_version db p = Some a -> In a (versions db) /\ version_pk a = p.
Proof.
  unfold get_version. intros H. apply find_some in H as [Hin Heq].
  apply Nat.eqb_eq in Heq. now split.
Qed.

Lemma get_version_of_row (db : DB) (v : RepositoryVersion) :
  versions_unique (versions db) = true -> In v (versions db) ->
  get_version db (version_pk v) = Some v.
Proof.
  intros Hu Hin.
  destruct (get_version db (version_pk v)) as [a|] eqn:E.
  - apply get_version_some in E as [Ha Hpk].
    f_equal. now apply (versions_unique_pk _ _ _ Hu).
  - unfold get_version in E. apply (find_none _ _ E) in Hin.
    rewrite Nat.eqb_refl in Hin. discriminate.
Qed.

(** What [record_ok] says of one membership. *)
Lemma record_ok_inv (db : DB) (r : RepositoryContent) :
  record_ok db r = true ->
  exists a, get_version db (version_added r) = Some a
            /\ repository a = rc_repository r
            /\ (version_removed r = None
                \/ exists w x, version_removed r = Some w
                               /\ get_version db w = Some x
                               /\ repository x = rc_repository r
                               /\ number a <= number x).
Proof.
  unfold record_ok. destruct (get_version db (version_added r)) as [a|]; [|discriminate].
  rewrite andb_true_iff, Nat.eqb_eq. intros [Hrepo Hrem].
  exists a. repeat split; try assumption.
  destruct (version_removed r) as [w|]; [right | now left].
  destruct (get_version db w) as [x|] eqn:Ex; [|discriminate].
  apply andb_true_iff in Hrem as [Hx Hle]. apply Nat.eqb_eq in Hx. apply Z.leb_le in Hle.
  exists w, x. auto.
Qed.

Lemma ledger_ok_inv (db : DB) :
  ledger_ok db = true ->
  versions_unique (versions db) = true
  /\ forall r, In r (repository_content db) -> record_ok db r = true.
Proof.
  unfold ledger_ok. rewrite andb_true_iff, forallb_forall. tauto.
Qed.

Lemma consecutive_inv (db : DB) (p n : RepositoryVersion) :
  consecutive db p n = true ->
  repository p = repository n
  /\ number p < number n
  /\ forall w, In w (versions db) -> repository w = repository n ->
               number p < number w -> number w <= number n -> number w = number n.
Proof.
  unfold consecutive. rewrite !andb_true_iff, Nat.eqb_eq, Z.ltb_lt, forallb_forall.
  intros [[Hr Hlt] Hall]. repeat split; try assumption.
  intros w Hin Hw Hpw Hwn. specialize (Hall w Hin).
  rewrite Hw, Nat.eqb_refl in Hall. simpl in Hall.
  apply negb_true_iff, andb_false_iff in Hall.
  destruct Hall as [H | H]; [apply Z.ltb_ge in H | apply Z.ltb_ge in H]; lia.
Qed.

Lemma content_In (v : RepositoryVersion) (db : DB) (c : pk) :
  In c (content v db) <->
  exists r, In r (repository_content db)
            /\ content_id r = c
            /\ rc_repository r = repository v
            /\ number_lte db (version_added r) (number v) = true
            /\ match version_removed r with
               | Some w => number_lte db w (number v) = false
               | None => True
               end.
Proof.
  unfold content. rewrite in_map_iff. split.
  - intros [r [Hc Hr]]. apply relationships_In in Hr. exists r. tauto.
  - intros [r (Hin & Hc & Hrest)]. exists r. split; [assumption|].
    apply relationships_In. tauto.
Qed.

Lemma added_In (v : RepositoryVersion) (db : DB) (c : pk) :
  In c (added v db) <->
  exists r, In r (repository_content db) /\ content_id r = c
            /\ version_added r = version_pk v.
Proof.
  unfold added. rewrite in_map_iff. split.
  - intros [r [Hc Hr]]. apply filter_In in Hr as [Hin Hr]. apply added_is_eq in Hr.
    now exists r.
  - intros [r (Hin & Hc & Hr)]. exists r. split; [assumption|].
    apply filter_In. split; [assumption | now apply added_is_eq].
Qed.

Lemma removed_In (v : RepositoryVersion) (db : DB) (c : pk) :
  In c (removed v db) <->
  exists r, In r (repository_content db) /\ content_id r = c
            /\ version_removed r = Some (version_pk v).
Proof.
  unfold removed. rewrite in_map_iff. split.
  - intros [r [Hc Hr]]. apply filter_In in Hr as [Hin Hr]. apply removed_is_eq in Hr.
    now exists r.
  - intros [r (Hin & Hc & Hr)]. exists r. split; [assumption|].
    apply filter_In. split; [assumption | now apply removed_is_eq].
Qed.

(** C2, amended.  On a ledger that satisfies the integrity conditions, for
    consecutive versions [p] and [n] of a repository, the law holds at every
    content unit that is not both in the content of [n] and in its removed
    set. *)
Theorem consecutive_law_unless_readded (db : DB) (p n : RepositoryVersion) (c : pk) :
  ledger_ok db = true ->
  In n (versions db) ->
  consecutive db p n = true ->
  ~ (In c (content n db) /\ In c (removed n db)) ->
  law_at db p n c.
Proof.
  intros Hok Hn Hcons Hnot.
  apply ledger_ok_inv in Hok as [Hu Hrec].
  apply consecutive_inv in Hcons as (Hrepo & Hlt & Hbetween).
  pose proof (get_version_of_row db n Hu Hn) as Hgetn.
  unfold law_at. split.
  - intros Hc. split; [| tauto].
    apply content_In in Hc as [r (Hin & Hid & Hr & Hadd & Hrem)].
    destruct (record_ok_inv db r (Hrec r Hin)) as [a (Ha & Hra & Hx)].
    unfold number_lte in Hadd. rewrite Ha in Hadd. apply Z.leb_le in Hadd.
    destruct (Z_le_gt_dec (number a) (number p)) as [Hle | Hgt].
    + left. apply content_In. exists r. repeat split; try assumption; try congruence.
      * unfold number_lte. rewrite Ha. now apply Z.leb_le.
      * destruct (version_removed r) as [w|]; [|exact I].
        unfold number_lte in *. destruct (get_version db w) as [x|]; [|reflexivity].
        apply Z.leb_gt in Hrem. apply Z.leb_gt. lia.
    + right. apply added_In. exists r. repeat split; try assumption.
      apply get_version_some in Ha as [Hain Hapk]. rewrite <- Hapk. f_equal.
      apply (versions_unique_number _ _ _ Hu Hain Hn); [congruence|].
      apply Hbetween; try assumption; try congruence; lia.
  - intros [[Hc | Hc] Hnr].
    + apply content_In in Hc as [r (Hin & Hid & Hr & Hadd & Hrem)].
      apply content_In. exists r. repeat split; try assumption; try congruence.
      * unfold number_lte in *. destruct (get_version db (version_added r)); [|discriminate].
        apply Z.leb_le in Hadd. apply Z.leb_le. lia.
      * destruct (record_ok_inv db r (Hrec r Hin)) as [a (Ha & Hra & Hx)].
        destruct Hx as [Hnone | [w [x (Hw & Hgx & Hrx & Hax)]]]; [now rewrite Hnone|].
        rewrite Hw in *. unfold number_lte in *. rewrite Hgx in *.
        apply Z.leb_gt in Hrem. apply Z.leb_gt.
        destruct (Z_le_gt_dec (number x) (number n)) as [Hle | Hgt]; [| lia].
        exfalso. apply Hnr. apply removed_In. exists r. repeat split; try assumption.
        rewrite Hw. f_equal.
        apply get_version_some in Hgx as [Hxin Hxpk]. rewrite <- Hxpk. f_equal.
        apply (versions_unique_number _ _ _ Hu Hxin Hn); [congruence|].
        apply Hbetween; try assumption; try congruence; lia.
    + apply added_In in Hc as [r (Hin & Hid & Hr)].
      destruct (record_ok_inv db r (Hrec r Hin)) as [a (Ha & Hra & Hx)].
      rewrite Hr, Hgetn in Ha. injection Ha as <-.
      apply content_In. exists r. repeat split; try assumption; try congruence.
      * unfold number_lte. rewrite Hr, Hgetn. apply Z.leb_le. lia.
      * destruct Hx as [Hnone | [w [x (Hw & Hgx & Hrx & Hax)]]]; [now rewrite Hnone|].
        rewrite Hw. unfold number_lte. rewrite Hgx. apply Z.leb_gt.
        destruct (Z.eq_dec (number x) (number n)) as [Heq | Hne]; [| lia].
        exfalso. apply Hnr. apply removed_In. exists r. repeat split; try assumption.
        rewrite Hw. f_equal.
        apply get_version_some in Hgx as [Hxin Hxpk]. rewrite <- Hxpk. f_equal.
        apply (versions_unique_number _ _ _ Hu Hxin Hn); congruence.
Qed.

(** Witness of [consecutive_law_unless_readded]: versions 0 and 1 of the
    scenario, at the unit added by version 1. *)
Lemma consecutive_law_unless_readded_witness :
  law_at Scenario.db_readd Scenario.v0 Scenario.v1 Scenario.unit_a.
Proof.
  apply consecutive_law_unless_readded.
  - vm_compute. reflexivity.
  - vm_compute. tauto.
  - vm_compute. reflexivity.
  - intros [_ H]. vm_compute in H. tauto.
Defined.

(** ** Running computations *)

Lemma bind_run {A B} (m : M A) (k : A -> M B) db a db1 :
  m db = (inr a, db1) -> bind m k db = k a db1.
Proof. intros H. unfold bind. now rewrite H. Qed.

Lemma bind_fail {A B} (m : M A) (k : A -> M B) db e db1 :
  m db = (inl e, db1) -> bind m k db = (inl e, db1).
Proof. intros H. unfold bind. now rewrite H. Qed.

Lemma try_except_run {A} (m : M A) handles h db a db1 :
  m db = (inr a, db1) -> try_except m handles h db = (inr a, db1).
Proof. intros H. unfold try_except. now rewrite H. Qed.

Lemma atomic_run {A} (m : M A) db a db1 :
  m db = (inr a, db1) -> atomic m db = (inr a, db1).
Proof. intros H. unfold atomic. now rewrite H. Qed.

(** ** Deleting an open version *)

Lemma violates_written_null (l : list (bool * RepositoryContent)) :
  (forall p, In p l -> fst p = true -> version_removed (snd p) = None) ->
  violates same_removed l = false.
Proof.
  induction l as [|[t r] rest IH]; intros H; [reflexivity|].
  simpl. rewrite IH by (intros p Hp; apply H; now right).
  rewrite orb_false_r. apply not_true_is_false. intros Hex.
  apply existsb_exists in Hex as [[t' s] [Hin Hc]]. simpl in Hc.
  apply andb_true_iff in Hc as [Ht Hc]. unfold same_removed in Hc.
  apply orb_true_iff in Ht as [Ht | Ht].
  - pose proof (H (t, r) (or_introl eq_refl) Ht) as Hn. simpl in Hn.
    rewrite Hn in Hc. now rewrite andb_false_r in Hc.
  - pose proof (H (t', s) (or_intror Hin) Ht) as Hn. simpl in Hn.
    rewrite Hn in Hc. destruct (version_removed r); now rewrite andb_false_r in Hc.
Qed.

(** Clearing [version_removed] is never refused. *)
Lemma update_version_removed_null (q : RepositoryContent -> bool) (db : DB) :
  update_version_removed q None db =
    (inr tt, set_repository_content
               (map (fun r => if q r then set_version_removed None r else r)
                    (repository_content db)) db).
Proof.
  destruct (update_version_removed_cases q None db) as [E | E]; [exact E|].
  exfalso. unfold update_version_removed, bind, get_db in E.
  rewrite violates_written_null in E; [discriminate|].
  intros p Hp Ht. apply in_map_iff in Hp as [r [Hr _]].
  destruct (q r); subst p; [reflexivity | discriminate].
Qed.

Lemma Repository_save_existing (self : Repository) (db : DB) :
  has_repository db (repo_pk self) = true ->
  0 <= last_version self ->
  Repository_save self db =
    (inr tt, set_repositories
               (map (fun r => if Nat.eqb (repo_pk r) (repo_pk self) then self else r)
                    (repositories db)) db).
Proof.
  unfold has_repository. intros Hex Hpos.
  unfold Repository_save, Model_save_Repository.
  unfold atomic, bind, get_db, modify, ret.
  destruct (Z.ltb_spec (last_version self) 0); [lia|].
  rewrite Hex. reflexivity.
Qed.

Lemma undo_version_clean (self : RepositoryVersion) (l : list RepositoryContent) :
  filter (fun r => negb (added_is self r || removed_is self r)) (undo_version self l)
  = undo_version self l.
Proof.
  unfold undo_version. induction l as [|r l IH]; [reflexivity|].
  simpl. destruct (added_is self r) eqn:Ea; simpl; [exact IH|].
  destruct (removed_is self r) eqn:Er; simpl.
  - unfold added_is in *. simpl. rewrite Ea. simpl. now rewrite IH.
  - rewrite Ea, Er. simpl. now rewrite IH.
Qed.

(** [delete] on an open version whose repository has a row and whose number
    is positive: the result is [discarded]. *)
Lemma delete_open (self : RepositoryVersion) (db : DB) :
  complete self = false ->
  0 < number self ->
  has_repository db (repository self) = true ->
  delete self db = (inr tt, discarded self db).
Proof.
  intros Hopen Hnum Hrepo. unfold delete. rewrite Hopen.
  apply atomic_run.
  unfold delete_where at 1. unfold bind at 1. unfold modify at 1.
  erewrite bind_run by apply update_version_removed_null.
  unfold bind at 1. unfold modify at 1.
  erewrite bind_run
    by (apply Repository_save_existing; [exact Hrepo | simpl; lia]).
  unfold Model_delete_RepositoryVersion, modify, discarded. simpl.
  do 2 f_equal. apply undo_version_clean.
Qed.

Lemma undo_version_no_trace (self : RepositoryVersion) (l : list RepositoryContent)
      (r : RepositoryContent) :
  In r (undo_version self l) ->
  version_added r <> version_pk self /\ version_removed r <> Some (version_pk self).
Proof.
  unfold undo_version. intros H. apply in_map_iff in H as [s [Hs Hin]].
  apply filter_In in Hin as [_ Ha]. apply negb_true_iff in Ha.
  destruct (removed_is self s) eqn:Er; subst r; simpl.
  - split; [|discriminate]. intros E. apply added_is_eq in E. congruence.
  - split; intros E.
    + apply added_is_eq in E. congruence.
    + apply removed_is_eq in E. congruence.
Qed.

Lemma filter_all {A} (f : A -> bool) (l : list A) :
  (forall x, In x l -> f x = true) -> filter f l = l.
Proof.
  induction l as [|x l IH]; intros H; [reflexivity|].
  simpl. rewrite (H x (or_introl eq_refl)). f_equal. apply IH.
  intros y Hy. apply H. now right.
Qed.

Lemma map_id_on {A} (f : A -> A) (l : list A) :
  (forall x, In x l -> f x = x) -> map f l = l.
Proof.
  induction l as [|x l IH]; intros H; [reflexivity|].
  simpl. rewrite (H x (or_introl eq_refl)). f_equal. apply IH.
  intros y Hy. apply H. now right.
Qed.

Lemma filter_nil_all {A} (f : A -> bool) (l : list A) :
  filter f l = [] -> forall x, In x l -> f x = false.
Proof.
  intros H x Hx. destruct (f x) eqn:E; [|reflexivity].
  assert (Hin : In x (filter f l)) by (apply filter_In; now split).
  rewrite H in Hin. destruct Hin.
Qed.

(** A version without additions and removals leaves the ledger as it is
    when it is discarded. *)
Lemma undo_version_unchanged (self : RepositoryVersion) (db : DB) :
  added self db = [] -> removed self db = [] ->
  undo_version self (repository_content db) = repository_content db.
Proof.
  unfold added, removed. intros Ha Hr.
  apply map_eq_nil in Ha. apply map_eq_nil in Hr.
  unfold undo_version. rewrite filter_all.
  - apply map_id_on. intros r Hin. now rewrite (filter_nil_all _ _ Hr r Hin).
  - intros r Hin. now rewrite (filter_nil_all _ _ Ha r Hin).
Qed.

Lemma get_repository_updated (db : DB) (self : Repository) :
  has_repository db (repo_pk self) = true ->
  find (fun r => Nat.eqb (repo_pk r) (repo_pk self))
       (map (fun r => if Nat.eqb (repo_pk r) (repo_pk self) then self else r)
            (repositories db)) = Some self.
Proof.
  unfold has_repository. induction (repositories db) as [|r l IH]; [discriminate|].
  simpl. destruct (Nat.eqb (repo_pk r) (repo_pk self)) eqn:E; simpl.
  - intros _. now rewrite Nat.eqb_refl.
  - intros H. rewrite E. now apply IH.
Qed.

(** ** No-op elision: C5 *)

(** [__exit__] without exception, when the hook returns and the version has
    neither additions nor removals: the version is deleted. *)
Lemma exit_noop_run (hook : RepositoryVersion -> M unit)
      (self : RepositoryVersion) (db db1 : DB) :
  complete self = false ->
  0 < number self ->
  hook self db = (inr tt, db1) ->
  has_repository db1 (repository self) = true ->
  added self db1 = [] ->
  removed self db1 = [] ->
  __exit__ hook self None db = (inr tt, discarded self db1).
Proof.
  intros Hopen Hnum Hhook Hrepo Ha Hr. unfold __exit__.
  rewrite (bind_run _ _ db true (discarded self db1)); [reflexivity|].
  apply try_except_run.
  rewrite (bind_run _ _ db tt db1 Hhook).
  unfold get_db at 1. unfold bind at 1.
  rewrite Ha, Hr. simpl.
  rewrite (bind_run _ _ db1 tt (discarded self db1)); [reflexivity|].
  now apply delete_open.
Qed.

(** C5.  When the hook returns and the open version has neither additions
    nor removals, [__exit__] discards it: the call returns normally, no
    version row with its key is left, no record or created resource names
    it (the ledger is as the hook left it), and the row of its repository
    has [last_version = number - 1]. *)
Theorem noop_version_discarded (hook : RepositoryVersion -> M unit)
        (self : RepositoryVersion) (db db1 : DB) :
  complete self = false ->
  0 < number self ->
  hook self db = (inr tt, db1) ->
  has_repository db1 (repository self) = true ->
  added self db1 = [] ->
  removed self db1 = [] ->
  exists db2,
    __exit__ hook self None db = (inr tt, db2)
    /\ (forall v, In v (versions db2) -> version_pk v <> version_pk self)
    /\ repository_content db2 = repository_content db1
    /\ (forall r, In r (repository_content db2) ->
                  version_added r <> version_pk self
                  /\ version_removed r <> Some (version_pk self))
    /\ ~ In (version_pk self) (created_resources db2)
    /\ get_repository db2 (repository self)
       = Some (mkRepository (repository self) (number self - 1)).
Proof.
  intros Hopen Hnum Hhook Hrepo Ha Hr.
  exists (discarded self db1).
  assert (Hledger : repository_content (discarded self db1) = repository_content db1)
    by (simpl; now apply undo_version_unchanged).
  split; [| split; [| split; [| split; [| split]]]].
  - now apply exit_noop_run.
  - simpl. intros v Hv. apply in_map_iff in Hv as [w [Hw Hin]].
    apply filter_In in Hin as [_ Hne]. apply negb_true_iff, Nat.eqb_neq in Hne.
    destruct (opk_eqb (base_version w) (Some (version_pk self))); subst v; exact Hne.
  - exact Hledger.
  - simpl. intros r Hin. now apply (undo_version_no_trace self (repository_content db1)).
  - simpl. intros Hin. apply filter_In in Hin as [_ Hne].
    now rewrite Nat.eqb_refl in Hne.
  - unfold get_repository. simpl.
    apply (get_repository_updated db1 (mkRepository (repository self) (number self - 1))).
    exact Hrepo.
Qed.

(** Witness of [noop_version_discarded]: version 3 of the scenario
    repository, opened and finalized without any change. *)
Lemma noop_version_discarded_witness :
  exists db2,
    __exit__ finalize_new_version Scenario.v3 None Scenario.db_open3 = (inr tt, db2)
    /\ (forall v, In v (versions db2) -> version_pk v <> version_pk Scenario.v3)
    /\ repository_content db2 = repository_content Scenario.db_open3
    /\ (forall r, In r (repository_content db2) ->
                  version_added r <> version_pk Scenario.v3
                  /\ version_removed r <> Some (version_pk Scenario.v3))
    /\ ~ In (version_pk Scenario.v3) (created_resources db2)
    /\ get_repository db2 (repository Scenario.v3)
       = Some (mkRepository (repository Scenario.v3) (number Scenario.v3 - 1)).
Proof.
  apply (noop_version_discarded finalize_new_version Scenario.v3
                                Scenario.db_open3 Scenario.db_open3);
    vm_compute; reflexivity.
Defined.

(** ** Frames: what the mutations leave alone *)

Lemma same_but_ledger_refl (db : DB) : same_but_ledger db db.
Proof. unfold same_but_ledger. now destruct db. Qed.

Lemma same_but_ledger_trans (a b c : DB) :
  same_but_ledger a b -> same_but_ledger b c -> same_but_ledger a c.
Proof.
  unfold same_but_ledger. intros H1 H2. rewrite H2, H1. reflexivity.
Qed.

Lemma same_but_ledger_set (l : list RepositoryContent) (db : DB) :
  same_but_ledger db (set_repository_content l db).
Proof. reflexivity. Qed.

Lemma bulk_create_frame (objs : list RepositoryContent) (db : DB) :
  same_but_ledger db (snd (bulk_create objs db)).
Proof.
  destruct (bulk_create_cases objs db) as [E | E]; rewrite E; simpl.
  - apply same_but_ledger_set.
  - apply same_but_ledger_refl.
Qed.

Lemma update_version_removed_frame q x (db : DB) :
  same_but_ledger db (snd (update_version_removed q x db)).
Proof.
  destruct (update_version_removed_cases q x db) as [E | E]; rewrite E; simpl.
  - apply same_but_ledger_set.
  - apply same_but_ledger_refl.
Qed.

Lemma add_content_frame (self : RepositoryVersion) (content_q : list pk) (db : DB) :
  same_but_ledger db (snd (add_content self content_q db)).
Proof.
  unfold add_content. destruct (complete self); [apply same_but_ledger_refl|].
  unfold bind, get_db.
  match goal with |- context [bulk_create ?o db] =>
    pose proof (bulk_create_frame o db) as H; destruct (bulk_create o db) as [[e|[]] d] end;
    exact H.
Qed.

Lemma remove_content_frame (self : RepositoryVersion) (content_q : list pk) (db : DB) :
  same_but_ledger db (snd (remove_content self content_q db)).
Proof.
  unfold remove_content. destruct (complete self); [apply same_but_ledger_refl|].
  apply update_version_removed_frame.
Qed.

Lemma diff_base_frame (version : RepositoryVersion) (base : option RepositoryVersion) (db : DB) :
  same_but_ledger db (snd (diff_base version base db)).
Proof.
  destruct base as [b|]; simpl; [| apply same_but_ledger_refl].
  unfold bind at 1. unfold get_db at 1. unfold bind at 1.
  match goal with |- context [remove_content ?v ?c db] =>
    pose proof (remove_content_frame v c db) as H1;
    destruct (remove_content v c db) as [[e|[]] d1] end; simpl in H1; [exact H1|].
  unfold bind at 1. unfold get_db at 1.
  match goal with |- context [add_content ?v ?c d1] =>
    pose proof (add_content_frame v c d1) as H2 end.
  eapply same_but_ledger_trans; eassumption.
Qed.

Lemma same_but_ledger_fields (db db' : DB) :
  same_but_ledger db db' ->
  repositories db' = repositories db /\ versions db' = versions db
  /\ created_resources db' = created_resources db
  /\ content_details db' = content_details db
  /\ pulp_type db' = pulp_type db /\ next_pk db' = next_pk db.
Proof. unfold same_but_ledger. intros H. rewrite H. simpl. tauto. Qed.

(** ** [new_version] step by step *)

Lemma RepositoryVersion_save_cases (v : RepositoryVersion) (db : DB) :
  (0 <= number v
   /\ existsb (version_clash v) (versions db) = false
   /\ RepositoryVersion_save v db =
        (inr tt,
         set_versions
           (if existsb (fun w => Nat.eqb (version_pk w) (version_pk v)) (versions db)
            then map (fun w => if Nat.eqb (version_pk w) (version_pk v) then v else w)
                     (versions db)
            else versions db ++ [v]) db))
  \/ ((number v < 0 \/ existsb (version_clash v) (versions db) = true)
      /\ RepositoryVersion_save v db = (inl IntegrityError, db)).
Proof.
  unfold RepositoryVersion_save. unfold bind, get_db, modify, raise.
  destruct (Z.ltb_spec (number v) 0) as [Hneg | Hpos]; [right; split; [now left | reflexivity]|].
  destruct (existsb (version_clash v) (versions db)) eqn:Ec;
    [right; split; [now right | reflexivity]|].
  left. repeat split; try assumption.
  destruct (existsb (fun w => Nat.eqb (version_pk w) (version_pk v)) (versions db));
    reflexivity.
Qed.

Lemma upsert_In (v : RepositoryVersion) (l : list RepositoryVersion) :
  In v (if existsb (fun w => Nat.eqb (version_pk w) (version_pk v)) l
        then map (fun w => if Nat.eqb (version_pk w) (version_pk v) then v else w) l
        else l ++ [v]).
Proof.
  destruct (existsb _ l) eqn:E.
  - apply existsb_exists in E as [w [Hin Hw]]. apply in_map_iff. exists w.
    rewrite Hw. now split.
  - apply in_or_app. right. now left.
Qed.

(** Saving a repository that has no row yet creates its initial version. *)
Lemma Repository_save_adding (s : Repository) (db db' : DB) :
  has_repository db (repo_pk s) = false ->
  Repository_save s db = (inr tt, db') ->
  In (mkVersion (next_pk db) (repo_pk s) (last_version s) true None) (versions db').
Proof.
  unfold has_repository. intros Hno.
  unfold Repository_save, Model_save_Repository, create_initial_version.
  unfold atomic, bind, get_db, modify, raise, fresh_pk. rewrite Hno. simpl.
  destruct (last_version s <? 0); [discriminate|].
  match goal with |- context [RepositoryVersion_save ?v ?d] =>
    destruct (RepositoryVersion_save_cases v d) as [(_ & _ & E) | (_ & E)]; rewrite E end;
    [| discriminate].
  intros H. injection H as <-. simpl. apply upsert_In.
Qed.

Lemma Repository_save_cases (s : Repository) (db : DB) (r : exn + unit) (db' : DB) :
  has_repository db (repo_pk s) = true ->
  Repository_save s db = (r, db') ->
  (0 <= last_version s /\ r = inr tt
   /\ db' = set_repositories
              (map (fun x => if Nat.eqb (repo_pk x) (repo_pk s) then s else x)
                   (repositories db)) db)
  \/ (last_version s < 0 /\ r = inl IntegrityError).
Proof.
  intros Hex. destruct (Z_lt_ge_dec (last_version s) 0) as [Hneg | Hpos].
  - unfold has_repository in Hex.
    unfold Repository_save, Model_save_Repository.
    unfold atomic, bind, get_db, modify, raise.
    destruct (Z.ltb_spec (last_version s) 0); [|lia].
    intros Hrun. right. split; [assumption | congruence].
  - rewrite Repository_save_existing by (assumption || lia).
    intros Hrun. left. split; [lia|]. split; congruence.
Qed.

(** When [new_version] returns, it returns [opened_version]; the repository
    had a row, no other version of the repository had the new number, and
    the database is [opened], changed by the diff against the base version
    and by the resource marker. *)
Lemma new_version_inv (self : Repository) (base : option RepositoryVersion)
      (task_current : bool) (db : DB) (v : RepositoryVersion) (db1 : DB) :
  existsb (fun w => Nat.eqb (version_pk w) (next_pk db)) (versions db) = false ->
  new_version self base task_current db = (inr v, db1) ->
  v = opened_version self base db
  /\ has_repository db (repo_pk self) = true
  /\ 0 <= last_version self + 1
  /\ existsb (version_clash v) (versions db) = false
  /\ exists d, diff_base v base (opened self base db) = (inr tt, d)
               /\ db1 = (if task_current
                         then set_created_resources (created_resources d ++ [version_pk v]) d
                         else d).
Proof.
  intros Hfresh H. apply atomic_inr in H.
  apply bind_inr in H as (p & da & Hp & H).
  unfold fresh_pk in Hp. injection Hp as <- <-.
  apply bind_inr in H as ([] & db_r & Hsave & H).
  apply bind_inr in H as ([] & db_v & Hvsave & H).
  cbn [number] in *.
  set (version := mkVersion (next_pk db) (repo_pk self) (last_version self + 1) false
                            (option_map version_pk base)) in *.
  assert (Hhas : has_repository db (repo_pk self) = true).
  { destruct (has_repository db (repo_pk self)) eqn:Hhas; [reflexivity | exfalso].
    apply Repository_save_adding in Hsave; [| exact Hhas]. cbn in Hsave.
    destruct (RepositoryVersion_save_cases version db_r) as [(_ & Hc & _) | (_ & E)];
      [| rewrite E in Hvsave; discriminate].
    assert (Hclash : existsb (version_clash version) (versions db_r) = true).
    { apply existsb_exists. eexists. split; [exact Hsave|].
      unfold version_clash, version. cbn.
      rewrite Nat.eqb_refl, Z.eqb_refl, andb_true_r, andb_true_r.
      apply negb_true_iff, Nat.eqb_neq. lia. }
    congruence. }
  apply Repository_save_cases in Hsave; [| exact Hhas].
  destruct Hsave as [(Hpos & _ & Hdbr) | (_ & Hbad)]; [| discriminate]. cbn in Hpos, Hdbr.
  destruct (RepositoryVersion_save_cases version db_r) as [(_ & Hc & E) | (_ & E)];
    rewrite E in Hvsave; [| discriminate].
  injection Hvsave as <-.
  assert (Hvers : versions db_r = versions db) by (now rewrite Hdbr).
  rewrite Hvers in Hc, H. cbn [version_pk version] in H. rewrite Hfresh in H.
  apply bind_inr in H as ([] & d & Hdiff & H).
  apply bind_inr in H as ([] & d' & Hcreated & H).
  injection H as <- <-.
  repeat split; try assumption.
  exists d. split.
  - rewrite <- Hdiff. unfold diff_base. f_equal. rewrite Hdbr. reflexivity.
  - destruct task_current; injection Hcreated as <-; reflexivity.
Qed.

Lemma new_version_run (self : Repository) (base : option RepositoryVersion)
      (task_current : bool) (db : DB) :
  has_repository db (repo_pk self) = true ->
  0 <= last_version self ->
  existsb (version_clash (opened_version self base db)) (versions db) = false ->
  existsb (fun w => Nat.eqb (version_pk w) (next_pk db)) (versions db) = false ->
  forall d, diff_base (opened_version self base db) base (opened self base db) = (inr tt, d) ->
  new_version self base task_current db =
    (inr (opened_version self base db),
     if task_current
     then set_created_resources (created_resources d ++ [next_pk db]) d
     else d).
Proof.
  intros Hhas Hpos Hclash Hfresh d Hdiff.
  unfold new_version. apply atomic_run.
  unfold bind at 1. unfold fresh_pk. cbn [number].
  rewrite (bind_run _ _ _ tt
             (set_repositories
                (map (fun x => if Nat.eqb (repo_pk x) (repo_pk self)
                               then mkRepository (repo_pk self) (last_version self + 1) else x)
                     (repositories db)) (set_next_pk (S (next_pk db)) db))).
  2:{ rewrite Repository_save_existing; [reflexivity | exact Hhas | simpl; lia]. }
  fold (opened_version self base db).
  destruct (RepositoryVersion_save_cases
              (opened_version self base db)
              (set_repositories
                (map (fun x => if Nat.eqb (repo_pk x) (repo_pk self)
                               then mkRepository (repo_pk self) (last_version self + 1) else x)
                     (repositories db)) (set_next_pk (S (next_pk db)) db)))
    as [(_ & _ & E) | ([Hneg | Hc] & _)].
  - rewrite (bind_run _ _ _ _ _ E). cbn [versions set_versions set_repositories set_next_pk].
    cbn [opened_version version_pk]. rewrite Hfresh.
    fold (opened_version self base db).
    change (set_versions _ _) with (opened self base db).
    change (match base with
            | Some base_version => _
            | None => ret tt
            end) with (diff_base (opened_version self base db) base).
    rewrite (bind_run _ _ _ _ _ Hdiff).
    destruct task_current; reflexivity.
  - simpl in Hneg. lia.
  - simpl in Hc. simpl in Hclash. congruence.
Qed.

Lemma keys_fresh_versions (db : DB) :
  keys_fresh db = true ->
  forall w, In w (versions db) -> (version_pk w < next_pk db)%nat.
Proof.
  unfold keys_fresh. rewrite !andb_true_iff. intros [[[Hv _] _] _] w Hw.
  rewrite forallb_forall in Hv. specialize (Hv w Hw).
  apply andb_true_iff in Hv as [Hv _]. now apply Nat.ltb_lt in Hv.
Qed.

Lemma keys_fresh_no_row (db : DB) :
  keys_fresh db = true ->
  existsb (fun w => Nat.eqb (version_pk w) (next_pk db)) (versions db) = false.
Proof.
  intros Hk. apply not_true_is_false. intros H.
  apply existsb_exists in H as [w [Hin Hw]]. apply Nat.eqb_eq in Hw.
  pose proof (keys_fresh_versions db Hk w Hin). lia.
Qed.

Lemma has_repository_map (l : list Repository) (f : Repository -> Repository) (p : pk) :
  (forall r, repo_pk (f r) = repo_pk r) ->
  existsb (fun r => Nat.eqb (repo_pk r) p) (map f l)
  = existsb (fun r => Nat.eqb (repo_pk r) p) l.
Proof.
  intros Hf. induction l as [|r l IH]; [reflexivity|].
  simpl. now rewrite Hf, IH.
Qed.

Lemma has_repository_saved (l : list Repository) (q : pk) (s : Repository) (p : pk) :
  repo_pk s = q ->
  existsb (fun r => Nat.eqb (repo_pk r) p)
          (map (fun r => if Nat.eqb (repo_pk r) q then s else r) l)
  = existsb (fun r => Nat.eqb (repo_pk r) p) l.
Proof.
  intros Hs. apply has_repository_map. intros r.
  destruct (Nat.eqb (repo_pk r) q) eqn:E; [|reflexivity].
  apply Nat.eqb_eq in E. congruence.
Qed.

Lemma filter_app_single {A} (f : A -> bool) (l : list A) (x : A) :
  (forall y, In y l -> f y = false) -> f x = true -> filter f (l ++ [x]) = [x].
Proof.
  intros Hl Hx. rewrite filter_app. simpl. rewrite Hx.
  replace (filter f l) with (@nil A); [reflexivity|].
  symmetry. induction l as [|y l IH]; [reflexivity|].
  simpl. rewrite (Hl y (or_introl eq_refl)). apply IH.
  intros z Hz. apply Hl. now right.
Qed.

(** No row of [l] has the repository and the number of [v], when no row
    clashes with [v] and none has its key. *)
Lemma no_clash_no_number (v : RepositoryVersion) (l : list RepositoryVersion) :
  existsb (version_clash v) l = false ->
  (forall w, In w l -> version_pk w <> version_pk v) ->
  forall w, In w l ->
    Nat.eqb (repository w) (repository v) && (number w =? number v) = false.
Proof.
  intros Hc Hpk w Hw. apply not_true_is_false. intros H.
  apply andb_true_iff in H as [Hr Hn]. apply Nat.eqb_eq in Hr. apply Z.eqb_eq in Hn.
  assert (Hex : existsb (version_clash v) l = true); [| congruence].
  apply existsb_exists. exists w. split; [assumption|].
  unfold version_clash. rewrite Hr, Hn, Nat.eqb_refl, Z.eqb_refl, !andb_true_r.
  apply negb_true_iff, Nat.eqb_neq. intros E. now apply (Hpk w Hw).
Qed.

(** The tables other than the ledger right after [new_version]. *)
Lemma new_version_tables (self : Repository) (base : option RepositoryVersion)
      (task_current : bool) (db : DB) (v : RepositoryVersion) (db1 : DB) :
  keys_fresh db = true ->
  new_version self base task_current db = (inr v, db1) ->
  v = opened_version self base db
  /\ has_repository db (repo_pk self) = true
  /\ 0 <= last_version self + 1
  /\ existsb (version_clash v) (versions db) = false
  /\ repositories db1 = repositories (opened self base db)
  /\ versions db1 = versions db ++ [v]
  /\ next_pk db1 = S (next_pk db)
  /\ content_details db1 = content_details db
  /\ created_resources db1
     = created_resources db ++ (if task_current then [version_pk v] else [])
  /\ pulp_type db1 = pulp_type db.
Proof.
  intros Hk H.
  apply new_version_inv in H; [| now apply keys_fresh_no_row].
  destruct H as (Hv & Hhas & Hpos & Hclash & d & Hdiff & Hdb1).
  pose proof (diff_base_frame v base (opened self base db)) as Hframe.
  rewrite Hdiff in Hframe. simpl in Hframe.
  apply same_but_ledger_fields in Hframe as (Hr & Hvs & Hcr & Hcd & Hpt & Hn).
  repeat split; try assumption.
  - rewrite Hdb1. destruct task_current; exact Hr.
  - rewrite Hdb1, Hv. destruct task_current; exact Hvs.
  - rewrite Hdb1. destruct task_current; exact Hn.
  - rewrite Hdb1. destruct task_current; exact Hcd.
  - rewrite Hdb1. destruct task_current; simpl; rewrite Hcr; simpl;
      [reflexivity | now rewrite app_nil_r].
  - rewrite Hdb1. destruct task_current; exact Hpt.
Qed.

(** ** [latest_version]: C10 *)

(** C10.  [latest_version] returns the version of the repository whose
    number is [last_version], whatever its [complete] flag, and [None] when
    there is none.  After [new_version] has returned a version, and until
    that version is finalized, the repository's counter is the number of the
    new version and [latest_version] returns it, incomplete. *)
Theorem latest_version_by_counter (self : Repository) (db : DB) :
  (forall v,
      filter (fun w => Nat.eqb (repository w) (repo_pk self)
                       && (number w =? last_version self)) (versions db) = [v] ->
      latest_version self db = (inr (Some v), db))
  /\ (filter (fun w => Nat.eqb (repository w) (repo_pk self)
                       && (number w =? last_version self)) (versions db) = [] ->
      latest_version self db = (inr None, db))
  /\ (forall base task_current v db1,
         keys_fresh db = true ->
         new_version self base task_current db = (inr v, db1) ->
         complete v = false
         /\ get_repository db1 (repo_pk self)
            = Some (mkRepository (repo_pk self) (number v))
         /\ forall db2, same_but_ledger db1 db2 ->
              latest_version (mkRepository (repo_pk self) (number v)) db2
              = (inr (Some v), db2)).
Proof.
  split; [| split].
  - intros v Hf. unfold latest_version, try_except, bind, get_db. now rewrite Hf.
  - intros Hf. unfold latest_version, try_except, bind, get_db. now rewrite Hf.
  - intros base task_current v db1 Hk Hrun.
    destruct (new_version_tables self base task_current db v db1 Hk Hrun)
      as (Hv & Hhas & Hpos & Hclash & Hrepos & Hvers & _).
    split; [now rewrite Hv|]. split.
    + unfold get_repository. rewrite Hrepos, Hv. simpl.
      apply (get_repository_updated db (mkRepository (repo_pk self) (last_version self + 1))).
      exact Hhas.
    + intros db2 Hsame. apply same_but_ledger_fields in Hsame as (_ & Hvs2 & _).
      unfold latest_version, try_except, bind, get_db. rewrite Hvs2, Hvers.
      rewrite filter_app_single; [reflexivity | |].
      * intros w Hw. cbn [repo_pk last_version].
        replace (repo_pk self) with (repository v) by (now rewrite Hv).
        apply (no_clash_no_number v (versions db)); try assumption.
        intros w' Hw' E. pose proof (keys_fresh_versions db Hk w' Hw') as Hlt.
        rewrite E, Hv in Hlt. simpl in Hlt. lia.
      * cbn [repo_pk last_version]. rewrite Hv. simpl.
        now rewrite Nat.eqb_refl, Z.eqb_refl.
Qed.

(** Witness of [latest_version_by_counter]: version 3 of the scenario, open. *)
Lemma latest_version_by_counter_witness :
  latest_version (mkRepository Scenario.repo 3) Scenario.db_open3
  = (inr (Some Scenario.v3), Scenario.db_open3).
Proof.
  assert (Hk : keys_fresh Scenario.db_readd = true) by (vm_compute; reflexivity).
  assert (Hrun : new_version (mkRepository Scenario.repo 2) None true Scenario.db_readd
                 = (inr Scenario.v3, Scenario.db_open3)) by (vm_compute; reflexivity).
  destruct (latest_version_by_counter (mkRepository Scenario.repo 2) Scenario.db_readd)
    as (_ & _ & H).
  destruct (H None true Scenario.v3 Scenario.db_open3 Hk Hrun) as (_ & _ & H3).
  apply (H3 Scenario.db_open3 (same_but_ledger_refl _)).
Defined.

(** ** Reclaimed numbering: C9 *)

Lemma versions_discarded_In (self w : RepositoryVersion) (db : DB) :
  In w (versions (discarded self db)) ->
  exists w0, In w0 (versions db)
             /\ version_pk w0 <> version_pk self
             /\ version_pk w = version_pk w0
             /\ repository w = repository w0
             /\ number w = number w0.
Proof.
  simpl. intros H. apply in_map_iff in H as [w0 [Hw Hin]].
  apply filter_In in Hin as [Hin Hne]. apply negb_true_iff, Nat.eqb_neq in Hne.
  exists w0. destruct (opk_eqb (base_version w0) (Some (version_pk self))); subst w;
    simpl; tauto.
Qed.



(** ** Abort: C6 *)

(** Records made by [add_content] disappear under [undo_version]. *)
Lemma undo_version_app_added (v : RepositoryVersion) (l new : list RepositoryContent) :
  (forall r, In r new -> version_added r = version_pk v) ->
  undo_version v (l ++ new) = undo_version v l.
Proof.
  intros H. unfold undo_version. rewrite filter_app.
  replace (filter (fun r => negb (added_is v r)) new) with (@nil RepositoryContent).
  - now rewrite app_nil_r.
  - symmetry. induction new as [|r new IH]; [reflexivity|].
    simpl. assert (Hr : added_is v r = true) by (apply added_is_eq, H; now left).
    rewrite Hr. simpl. apply IH. intros x Hx. apply H. now right.
Qed.

(** Removals made by [remove_content] are cleared by [undo_version]. *)
Lemma undo_version_removed (v : RepositoryVersion) (q : RepositoryContent -> bool)
      (l : list RepositoryContent) :
  (forall r, q r = true -> version_removed r = None) ->
  undo_version v (map (fun r => if q r then set_version_removed (Some (version_pk v)) r else r) l)
  = undo_version v l.
Proof.
  intros Hq. unfold undo_version. induction l as [|r l IH]; [reflexivity|].
  simpl. destruct (q r) eqn:Eq.
  - unfold added_is at 1. simpl. fold (added_is v r).
    destruct (added_is v r); simpl; [exact IH|].
    rewrite IH. f_equal.
    unfold removed_is at 1. simpl. rewrite Nat.eqb_refl.
    unfold set_version_removed. simpl.
    pose proof (Hq r Eq) as Hn.
    assert (Hr : removed_is v r = false).
    { unfold removed_is. rewrite Hn. reflexivity. }
    rewrite Hr. destruct r as [c p a x]. simpl in *. now subst x.
  - destruct (added_is v r); simpl; [exact IH|]. now rewrite IH.
Qed.

Lemma add_content_undo (v : RepositoryVersion) (content_q : list pk) (db : DB) :
  undo_version v (repository_content (snd (add_content v content_q db)))
  = undo_version v (repository_content db).
Proof.
  unfold add_content. destruct (complete v); [reflexivity|].
  unfold bind, get_db.
  match goal with |- context [bulk_create ?o db] =>
    destruct (bulk_create_cases o db) as [E | E]; rewrite E end; simpl; [| reflexivity].
  apply undo_version_app_added. intros r Hr.
  apply in_map_iff in Hr as [c [<- _]]. reflexivity.
Qed.

Lemma remove_content_undo (v : RepositoryVersion) (content_q : list pk) (db : DB) :
  undo_version v (repository_content (snd (remove_content v content_q db)))
  = undo_version v (repository_content db).
Proof.
  unfold remove_content. destruct (complete v); [reflexivity|].
  match goal with |- context [update_version_removed ?q ?x db] =>
    destruct (update_version_removed_cases q x db) as [E | E]; rewrite E end;
    simpl; [| reflexivity].
  apply undo_version_removed. intros r Hr.
  apply andb_true_iff in Hr as [_ Hr]. now apply opk_eqb_eq in Hr.
Qed.

Lemma run_script_frame (v : RepositoryVersion) (s : list Mutation) (db : DB) :
  same_but_ledger db (snd (run_script v s db))
  /\ undo_version v (repository_content (snd (run_script v s db)))
     = undo_version v (repository_content db).
Proof.
  revert db. induction s as [|m s IH]; intros db.
  - split; [apply same_but_ledger_refl | reflexivity].
  - simpl. unfold bind.
    assert (Hm : same_but_ledger db (snd (run_mutation v m db))
                 /\ undo_version v (repository_content (snd (run_mutation v m db)))
                    = undo_version v (repository_content db)).
    { destruct m as [c | c | e]; simpl.
      - split; [apply add_content_frame | apply add_content_undo].
      - split; [apply remove_content_frame | apply remove_content_undo].
      - split; [apply same_but_ledger_refl | reflexivity]. }
    destruct (run_mutation v m db) as [[e | []] d]; simpl in Hm; [exact Hm|].
    destruct Hm as [Hf Hu]. destruct (IH d) as [Hf' Hu']. split.
    + eapply same_but_ledger_trans; eassumption.
    + congruence.
Qed.

Lemma diff_base_undo (v : RepositoryVersion) (base : option RepositoryVersion) (db : DB) :
  undo_version v (repository_content (snd (diff_base v base db)))
  = undo_version v (repository_content db).
Proof.
  destruct base as [b|]; [| reflexivity]. simpl.
  unfold bind at 1. unfold get_db at 1. unfold bind at 1.
  match goal with |- context [remove_content ?w ?c db] =>
    pose proof (remove_content_undo w c db) as H1;
    destruct (remove_content w c db) as [[e|[]] d1] end; simpl in H1; [exact H1|].
  unfold bind at 1. unfold get_db at 1.
  rewrite add_content_undo. exact H1.
Qed.

(** A ledger that does not mention a version is its own [undo_version]. *)
Lemma undo_version_fresh (v : RepositoryVersion) (l : list RepositoryContent) :
  (forall r, In r l -> version_added r <> version_pk v
                       /\ version_removed r <> Some (version_pk v)) ->
  undo_version v l = l.
Proof.
  intros H. unfold undo_version. rewrite filter_all.
  - apply map_id_on. intros r Hr. destruct (removed_is v r) eqn:E; [|reflexivity].
    apply removed_is_eq in E. now destruct (H r Hr).
  - intros r Hr. apply negb_true_iff. destruct (added_is v r) eqn:E; [|reflexivity].
    apply added_is_eq in E. now destruct (H r Hr).
Qed.

Lemma keys_fresh_ledger (db : DB) :
  keys_fresh db = true ->
  forall r, In r (repository_content db) ->
    version_added r <> next_pk db /\ version_removed r <> Some (next_pk db).
Proof.
  unfold keys_fresh. rewrite !andb_true_iff. intros [[[_ Hl] _] _] r Hr.
  rewrite forallb_forall in Hl. specialize (Hl r Hr).
  apply andb_true_iff in Hl as [Ha Hx]. apply Nat.ltb_lt in Ha.
  split; [lia|]. destruct (version_removed r) as [w|]; [| discriminate].
  apply Nat.ltb_lt in Hx. intros E. injection E as E. lia.
Qed.

Lemma keys_fresh_rest (db : DB) :
  keys_fresh db = true ->
  (forall w, In w (versions db) -> base_version w <> Some (next_pk db))
  /\ ~ In (next_pk db) (created_resources db)
  /\ (forall d, In d (content_details db) -> repository_version d <> next_pk db).
Proof.
  unfold keys_fresh. rewrite !andb_true_iff, !forallb_forall.
  intros [[[Hv _] Hc] Hd]. split; [| split].
  - intros w Hw E. specialize (Hv w Hw). apply andb_true_iff in Hv as [_ Hv].
    rewrite E in Hv. apply Nat.ltb_lt in Hv. lia.
  - intros Hin. specialize (Hc _ Hin). apply Nat.ltb_lt in Hc. lia.
  - intros d Hin E. specialize (Hd d Hin). apply Nat.ltb_lt in Hd. lia.
Qed.

(** Right after [new_version], undoing the new version gives back the
    ledger [new_version] started from. *)
Lemma new_version_undo (self : Repository) (base : option RepositoryVersion)
      (task_current : bool) (db : DB) (v : RepositoryVersion) (db1 : DB) :
  keys_fresh db = true ->
  new_version self base task_current db = (inr v, db1) ->
  undo_version v (repository_content db1) = repository_content db.
Proof.
  intros Hk H.
  apply new_version_inv in H; [| now apply keys_fresh_no_row].
  destruct H as (Hv & _ & _ & _ & d & Hdiff & Hdb1).
  assert (Hl : repository_content db1 = repository_content d)
    by (rewrite Hdb1; now destruct task_current).
  rewrite Hl.
  pose proof (diff_base_undo v base (opened self base db)) as Hu.
  rewrite Hdiff in Hu. simpl in Hu. rewrite Hu.
  apply undo_version_fresh. rewrite Hv. simpl. now apply keys_fresh_ledger.
Qed.

Lemma in_sync_restored (self : Repository) (l : list Repository) (q : pk) (n : Z) :
  forallb (fun r => negb (Nat.eqb (repo_pk r) (repo_pk self))
                    || (last_version r =? last_version self)) l = true ->
  q = repo_pk self ->
  n = last_version self ->
  map (fun r => if Nat.eqb (repo_pk r) q then mkRepository q n else r)
      (map (fun r => if Nat.eqb (repo_pk r) (repo_pk self)
                     then mkRepository (repo_pk self) (last_version self + 1) else r) l)
  = l.
Proof.
  intros Hs -> ->. rewrite map_map. apply map_id_on. intros r Hr.
  rewrite forallb_forall in Hs. specialize (Hs r Hr).
  destruct (Nat.eqb (repo_pk r) (repo_pk self)) eqn:E; simpl in *.
  - rewrite Nat.eqb_refl. apply Nat.eqb_eq in E. apply Z.eqb_eq in Hs.
    destruct r as [p l0]. simpl in *. congruence.
  - now rewrite E.
Qed.

(** Deleting the version that [new_version] has just opened, after any
    changes confined to its own additions and removals, restores every
    table. *)
Lemma discarded_restores (self : Repository) (base : option RepositoryVersion)
      (task_current : bool) (db : DB) (v : RepositoryVersion) (db1 db2 : DB) :
  keys_fresh db = true ->
  in_sync self db = true ->
  new_version self base task_current db = (inr v, db1) ->
  same_but_ledger db1 db2 ->
  undo_version v (repository_content db2) = undo_version v (repository_content db1) ->
  discarded v db2 = set_next_pk (S (next_pk db)) db.
Proof.
  intros Hk Hsync Hrun Hsame Hundo.
  pose proof (new_version_undo self base task_current db v db1 Hk Hrun) as Hl.
  destruct (new_version_tables self base task_current db v db1 Hk Hrun)
    as (Hv & Hhas & _ & _ & Hrepos & Hvers & Hnext & Hdet & Hcr & Hpt).
  apply same_but_ledger_fields in Hsame as (Hr2 & Hv2 & Hc2 & Hd2 & Hp2 & Hn2).
  destruct (keys_fresh_rest db Hk) as (Hbase & Hcreated & Hdetails).
  assert (Hpk : version_pk v = next_pk db) by (now rewrite Hv).
  unfold discarded, set_next_pk.
  rewrite Hr2, Hv2, Hc2, Hd2, Hp2, Hn2, Hrepos, Hvers, Hnext, Hdet, Hcr, Hpt, Hundo, Hl.
  f_equal.
  - simpl. apply in_sync_restored; [exact Hsync | now rewrite Hv | rewrite Hv; simpl; lia].
  - rewrite filter_app. simpl. rewrite Nat.eqb_refl. simpl. rewrite app_nil_r.
    rewrite filter_all.
    + apply map_id_on. intros w Hw.
      destruct (opk_eqb (base_version w) (Some (version_pk v))) eqn:E; [|reflexivity].
      apply opk_eqb_eq in E. rewrite Hpk in E. now destruct (Hbase w Hw).
    + intros w Hw. apply negb_true_iff, Nat.eqb_neq.
      pose proof (keys_fresh_versions db Hk w Hw). lia.
  - rewrite filter_app. rewrite filter_all.
    + destruct task_current; simpl; [rewrite Nat.eqb_refl|]; simpl; apply app_nil_r.
    + intros o Ho. apply negb_true_iff, Nat.eqb_neq. intros E. apply Hcreated.
      now rewrite <- Hpk, <- E.
  - apply filter_all. intros d Hd. apply negb_true_iff, Nat.eqb_neq.
    rewrite Hpk. now apply Hdetails.
Qed.



(** ** Base-version cloning: C4 *)

Lemma nodupb_NoDup (l : list pk) : nodupb l = true -> NoDup l.
Proof.
  induction l as [|c t IH]; simpl; intros H; [constructor|].
  apply andb_true_iff in H as [Hc Ht]. apply negb_true_iff, mem_false in Hc.
  constructor; [assumption | now apply IH].
Qed.

Lemma NoDup_filter {A} (f : A -> bool) (l : list A) : NoDup l -> NoDup (filter f l).
Proof.
  induction 1 as [|x l Hx Hl IH]; simpl; [constructor|].
  destruct (f x); [| exact IH]. constructor; [| exact IH].
  intros Hin. apply filter_In in Hin. tauto.
Qed.

(** The statement of [remove_content] passes the uniqueness check when the
    records it marks belong to distinct units and the key of the version is
    not yet a removal boundary. *)
Lemma remove_not_refused (k : pk) (q act : RepositoryContent -> bool)
      (l : list RepositoryContent) :
  (forall r, q r = true -> act r = true) ->
  (forall r s, act r = true -> act s = true ->
               same_removed (set_version_removed (Some k) r)
                            (set_version_removed (Some k) s) = true ->
               content_id r = content_id s) ->
  NoDup (map content_id (filter act l)) ->
  (forall r, In r l -> version_removed r <> Some k) ->
  violates same_removed
           (map (fun r => if q r then (true, set_version_removed (Some k) r) else (false, r)) l)
  = false.
Proof.
  intros Hq Hsame. induction l as [|r t IH]; intros Hnd Hfresh; [reflexivity|].
  assert (Ht : violates same_removed
                 (map (fun r => if q r then (true, set_version_removed (Some k) r)
                                else (false, r)) t) = false).
  { apply IH.
    - simpl in Hnd. destruct (act r); [now inversion Hnd | exact Hnd].
    - intros x Hx. apply Hfresh. now right. }
  simpl. destruct (q r) eqn:Eqr; rewrite Ht, orb_false_r;
    apply not_true_is_false; intros Hex;
    apply existsb_exists in Hex as [[ts s'] [Hin Hc]];
    apply in_map_iff in Hin as [s [Hs Hin]];
    apply andb_true_iff in Hc as [Hflag Hc]; simpl in Hc, Hflag;
    destruct (q s) eqn:Eqs; injection Hs as <- <-; simpl in *.
  - pose proof (Hsame r s (Hq r Eqr) (Hq s Eqs) Hc) as Hid.
    rewrite (Hq r Eqr) in Hnd. simpl in Hnd. inversion Hnd as [|? ? Hnotin _]; subst.
    apply Hnotin. rewrite Hid. apply in_map. apply filter_In. split; [assumption|].
    now apply Hq.
  - unfold same_removed in Hc. simpl in Hc.
    destruct (version_removed s) as [w|] eqn:Ew; [| now rewrite andb_false_r in Hc].
    apply andb_true_iff in Hc as [_ Hc]. apply Nat.eqb_eq in Hc. subst w.
    apply (Hfresh s); [now right | exact Ew].
  - unfold same_removed in Hc. simpl in Hc.
    destruct (version_removed r) as [w|] eqn:Ew; [| now rewrite andb_false_r in Hc].
    apply andb_true_iff in Hc as [_ Hc]. apply Nat.eqb_eq in Hc. subst w.
    apply (Hfresh r); [now left | exact Ew].
  - discriminate.
Qed.

(** The statement of [add_content] passes the uniqueness check when the new
    records belong to distinct units and the key of the version is not yet
    an addition boundary. *)
Lemma add_not_refused (k p : pk) (l : list RepositoryContent) (cs : list pk) :
  (forall r, In r l -> version_added r <> k) ->
  NoDup cs ->
  violates (fun r s => same_added r s || same_removed r s)
           (map (pair false) l ++ map (pair true) (map (fun c => mkRC c p k None) cs))
  = false.
Proof.
  intros Hfresh Hnd. induction l as [|r t IH].
  - simpl. induction Hnd as [|c cs Hc Hnd IHcs]; [reflexivity|].
    simpl. rewrite IHcs, orb_false_r. apply not_true_is_false. intros Hex.
    apply existsb_exists in Hex as [[ts s] [Hin Hcl]].
    rewrite map_map in Hin. apply in_map_iff in Hin as [c' [Hs Hin]].
    injection Hs as <- <-. simpl in Hcl.
    unfold same_added, same_removed in Hcl. simpl in Hcl.
    rewrite andb_false_r, orb_false_r in Hcl.
    apply andb_true_iff in Hcl as [Hcl _]. apply andb_true_iff in Hcl as [_ Hcl].
    apply Nat.eqb_eq in Hcl. subst c'. contradiction.
  - simpl. rewrite IH by (intros x Hx; apply Hfresh; now right).
    rewrite orb_false_r. apply not_true_is_false. intros Hex.
    apply existsb_exists in Hex as [[ts s] [Hin Hcl]].
    apply in_app_or in Hin as [Hin | Hin].
    + apply in_map_iff in Hin as [x [Hx _]]. injection Hx as <- <-. discriminate.
    + rewrite map_map in Hin. apply in_map_iff in Hin as [c [Hs _]].
      injection Hs as <- <-. simpl in Hcl.
      unfold same_added, same_removed in Hcl. simpl in Hcl.
      destruct (version_removed r); rewrite andb_false_r, orb_false_r in Hcl;
        apply andb_true_iff in Hcl as [_ Hcl]; apply Nat.eqb_eq in Hcl;
        apply (Hfresh r); (now left) || assumption.
Qed.

Lemma find_app_last {A} (f : A -> bool) (l : list A) (x : A) :
  find f (l ++ [x]) = match find f l with
                      | Some y => Some y
                      | None => if f x then Some x else None
                      end.
Proof.
  induction l as [|y l IH]; simpl; [reflexivity|].
  destruct (f y); [reflexivity | exact IH].
Qed.

(** Appending a version row changes no lookup by another key. *)
Lemma get_version_app (db db' : DB) (w : RepositoryVersion) (p : pk) :
  versions db' = versions db ++ [w] ->
  p <> version_pk w ->
  get_version db' p = get_version db p.
Proof.
  intros Hv Hp. unfold get_version. rewrite Hv, find_app_last.
  destruct (find _ (versions db)); [reflexivity|].
  destruct (Nat.eqb_spec (version_pk w) p); [congruence | reflexivity].
Qed.

Lemma get_version_last (db db' : DB) (w : RepositoryVersion) :
  versions db' = versions db ++ [w] ->
  (forall x, In x (versions db) -> version_pk x <> version_pk w) ->
  get_version db' (version_pk w) = Some w.
Proof.
  intros Hv Hfresh. unfold get_version. rewrite Hv, find_app_last.
  destruct (find _ (versions db)) as [y|] eqn:E.
  - apply find_some in E as [Hin Hy]. apply Nat.eqb_eq in Hy.
    now destruct (Hfresh y Hin).
  - now rewrite Nat.eqb_refl.
Qed.

Lemma number_lte_app (db db' : DB) (w : RepositoryVersion) (p : pk) (n : Z) :
  versions db' = versions db ++ [w] ->
  p <> version_pk w ->
  number_lte db' p n = number_lte db p n.
Proof.
  intros Hv Hp. unfold number_lte. now rewrite (get_version_app db db' w p Hv Hp).
Qed.

Lemma number_lte_last (db db' : DB) (w : RepositoryVersion) (n : Z) :
  versions db' = versions db ++ [w] ->
  (forall x, In x (versions db) -> version_pk x <> version_pk w) ->
  number_lte db' (version_pk w) n = (number w <=? n).
Proof.
  intros Hv Hfresh. unfold number_lte. now rewrite (get_version_last db db' w Hv Hfresh).
Qed.

Lemma filter_map_swap {A B} (f : B -> bool) (g : A -> B) (l : list A) :
  filter f (map g l) = map g (filter (fun x => f (g x)) l).
Proof.
  induction l as [|x l IH]; simpl; [reflexivity|].
  destruct (f (g x)); simpl; now rewrite IH.
Qed.

Lemma number_lte_mono (db : DB) (p : pk) (m m' : Z) :
  m <= m' -> number_lte db p m = true -> number_lte db p m' = true.
Proof.
  unfold number_lte. destruct (get_version db p); [| discriminate].
  rewrite !Z.leb_le. lia.
Qed.

Lemma exclude_in_idem (qs other : list pk) :
  exclude_in (exclude_in qs other) other = exclude_in qs other.
Proof.
  unfold exclude_in. apply filter_all. intros c Hc. now apply filter_In in Hc.
Qed.

Lemma bulk_create_accepted (objs : list RepositoryContent) (db : DB) :
  violates (fun r s => same_added r s || same_removed r s)
           (map (pair false) (repository_content db) ++ map (pair true) objs) = false ->
  bulk_create objs db
  = (inr tt, set_repository_content (repository_content db ++ objs) db).
Proof.
  intros H. destruct (bulk_create_cases objs db) as [E | E]; [exact E|].
  exfalso. destruct objs as [|o objs]; [discriminate|].
  unfold bulk_create, bind, get_db in E. rewrite H in E. discriminate.
Qed.

Lemma update_version_removed_accepted (q : RepositoryContent -> bool) (x : option pk)
      (db : DB) :
  violates same_removed
           (map (fun r => if q r then (true, set_version_removed x r) else (false, r))
                (repository_content db)) = false ->
  update_version_removed q x db
  = (inr tt, set_repository_content
               (map (fun r => if q r then set_version_removed x r else r)
                    (repository_content db)) db).
Proof.
  intros H. destruct (update_version_removed_cases q x db) as [E | E]; [exact E|].
  exfalso. unfold update_version_removed, bind, get_db in E. rewrite H in E. discriminate.
Qed.

Lemma filter_nil_intro {A} (f : A -> bool) (l : list A) :
  (forall x, In x l -> f x = false) -> filter f l = [].
Proof.
  induction l as [|x l IH]; intros H; [reflexivity|].
  simpl. rewrite (H x (or_introl eq_refl)). apply IH. intros y Hy. apply H. now right.
Qed.

Lemma compute_counts_run (x : RepositoryVersion) (d : DB) :
  exists l, _compute_counts x d = (inr tt, set_content_details l d).
Proof.
  unfold _compute_counts, atomic, bind, counts_of, modify, get_db, ret. simpl.
  eexists. unfold set_content_details. simpl. reflexivity.
Qed.

(** [__exit__] without exception, when the hook returns and the version has
    additions or removals: the version is saved complete and counted. *)
Lemma exit_kept_run (hook : RepositoryVersion -> M unit)
      (self : RepositoryVersion) (db db1 d2 : DB) :
  hook self db = (inr tt, db1) ->
  isnil (added self db1) && isnil (removed self db1) = false ->
  RepositoryVersion_save (with_complete true self) db1 = (inr tt, d2) ->
  exists l, __exit__ hook self None db = (inr tt, set_content_details l d2).
Proof.
  intros Hhook Hchange Hsave.
  destruct (compute_counts_run (with_complete true self) d2) as [l Hl].
  exists l. unfold __exit__.
  rewrite (bind_run _ _ db false db1).
  - apply try_except_run. rewrite (bind_run _ _ db1 tt d2 Hsave). exact Hl.
  - apply try_except_run. rewrite (bind_run _ _ db tt db1 Hhook).
    unfold get_db at 1. unfold bind at 1. rewrite Hchange. reflexivity.
Qed.

Lemma versions_discarded_fresh (db d : DB) (w : RepositoryVersion) :
  keys_fresh db = true ->
  versions d = versions db ++ [w] ->
  version_pk w = next_pk db ->
  versions (discarded w d) = versions db.
Proof.
  intros Hk Hv Hpk. destruct (keys_fresh_rest db Hk) as (Hbase & _).
  simpl. rewrite Hv, filter_app. simpl. rewrite Nat.eqb_refl. simpl. rewrite app_nil_r.
  rewrite filter_all.
  - apply map_id_on. intros x Hx.
    destruct (opk_eqb (base_version x) (Some (version_pk w))) eqn:E; [|reflexivity].
    apply opk_eqb_eq in E. rewrite Hpk in E. now destruct (Hbase x Hx).
  - intros x Hx. apply negb_true_iff, Nat.eqb_neq.
    pose proof (keys_fresh_versions db Hk x Hx). lia.
Qed.

Lemma relationships_same (x : RepositoryVersion) (d d' : DB) :
  versions d = versions d' ->
  repository_content d = repository_content d' ->
  relationships x d = relationships x d'.
Proof.
  intros Hv Hl. unfold relationships, present_at, number_lte, get_version.
  now rewrite Hv, Hl.
Qed.

Lemma isnil_false_iff {A} (l l' : list A) :
  isnil l && isnil l' = false <-> l <> [] \/ l' <> [].
Proof.
  destruct l, l'; simpl; split; intros H; try reflexivity; try discriminate.
  - destruct H; congruence.
  - right. discriminate.
  - left. discriminate.
  - left. discriminate.
Qed.

Section Cloning.

Variables (self : Repository) (b : RepositoryVersion) (db : DB).

Hypothesis Hkeys : keys_fresh db = true.
Hypothesis Hcover : counter_covers self db = true.
Hypothesis Hactive : active_unique self db = true.
Hypothesis Hbase : nodupb (content b db) = true.
Hypothesis Hb : In b (versions db).
Hypothesis Hpos : 0 <= last_version self.

Local Abbreviation v := (opened_version self (Some b) db).
Local Abbreviation k := (next_pk db).
Local Abbreviation db_o := (opened self (Some b) db).
Local Abbreviation extends := (extends self db).

Lemma extends_old (d : DB) (w : RepositoryVersion) (p : pk) (m : Z) :
  extends d w -> p <> k -> number_lte d p m = number_lte db p m.
Proof.
  intros (Hv & Hk & _) Hp. apply (number_lte_app db d w p m Hv). congruence.
Qed.

Lemma extends_new (d : DB) (w : RepositoryVersion) (m : Z) :
  extends d w -> number_lte d k m = (last_version self + 1 <=? m).
Proof.
  intros (Hv & Hk & Hn). rewrite <- Hk, <- Hn. apply (number_lte_last db d w m Hv).
  intros x Hx. pose proof (keys_fresh_versions db Hkeys x Hx). lia.
Qed.

(** On a record that does not mention the new key, membership is decided
    as in [db]. *)
Lemma extends_present (d : DB) (w x : RepositoryVersion) (r : RepositoryContent) :
  extends d w ->
  version_added r <> k -> version_removed r <> Some k ->
  present_at d x r = present_at db x r.
Proof.
  intros He Ha Hr. unfold present_at.
  rewrite (extends_old d w (version_added r) (number x) He Ha).
  destruct (version_removed r) as [p|]; [| reflexivity].
  rewrite (extends_old d w p (number x) He); [reflexivity | congruence].
Qed.

Lemma extends_opened : extends db_o v.
Proof. repeat split. Qed.

(** With the ledger of [db], every version has the relationships it has in
    [db]. *)
Lemma extends_relationships (d : DB) (w x : RepositoryVersion) :
  extends d w ->
  repository_content d = repository_content db ->
  relationships x d = relationships x db.
Proof.
  intros He Hl. unfold relationships. rewrite Hl. apply filter_ext_in.
  intros r Hr. destruct (keys_fresh_ledger db Hkeys r Hr).
  now apply (extends_present d w).
Qed.

Lemma content_opened (x : RepositoryVersion) : content x db_o = content x db.
Proof.
  unfold content. now rewrite (extends_relationships db_o v x extends_opened).
Qed.

(** A record of the repository that is in the content of the new version
    has not been removed. *)
Lemma present_is_active (r : RepositoryContent) :
  In r (repository_content db) ->
  present_at db v r = true ->
  active_in (repo_pk self) r = true.
Proof.
  intros Hin Hp. unfold present_at in Hp. unfold active_in.
  apply andb_true_iff in Hp as [Hp Hrem]. apply andb_true_iff in Hp as [Hrepo _].
  simpl in Hrepo. rewrite Hrepo. simpl.
  destruct (version_removed r) as [w|] eqn:Ew; [exfalso | reflexivity].
  unfold counter_covers in Hcover. apply andb_true_iff in Hcover as [_ Hc].
  rewrite forallb_forall in Hc. specialize (Hc r Hin).
  rewrite Hrepo, Ew in Hc. simpl in Hc.
  apply (number_lte_mono db w (last_version self) (last_version self + 1)) in Hc; [| lia].
  simpl in Hrem. rewrite Hc in Hrem. discriminate.
Qed.

(** The base version stays below the new number when it belongs to the
    repository. *)
Lemma base_below : repository b = repo_pk self -> number b <= last_version self.
Proof.
  intros Hr. unfold counter_covers in Hcover. apply andb_true_iff in Hcover as [Hc _].
  rewrite forallb_forall in Hc. specialize (Hc b Hb).
  rewrite Hr, Nat.eqb_refl in Hc. simpl in Hc. now apply Z.leb_le.
Qed.

Local Abbreviation mark :=
  (fun r => if to_remove self b db r then set_version_removed (Some k) r else r).

(** The base version sees a record and its marked copy alike. *)
Lemma marked_present_base (d : DB) (w : RepositoryVersion) (r : RepositoryContent) :
  extends d w ->
  In r (repository_content db) ->
  present_at d b (mark r) = present_at db b r.
Proof.
  intros He Hin. destruct (keys_fresh_ledger db Hkeys r Hin) as [Ha Hr].
  destruct (to_remove self b db r) eqn:Et; [| now apply (extends_present d w)].
  unfold to_remove in Et. apply andb_true_iff in Et as [Et Hnone].
  apply andb_true_iff in Et as [Hrepo _].
  apply opk_eqb_eq in Hnone. apply Nat.eqb_eq in Hrepo.
  unfold present_at. simpl. rewrite Hnone.
  rewrite (extends_old d w (version_added r) (number b) He Ha).
  rewrite (extends_new d w (number b) He).
  destruct (Nat.eqb_spec (rc_repository r) (repository b)) as [E | E]; [| reflexivity].
  simpl. assert (Hlt : number b <= last_version self) by (apply base_below; congruence).
  destruct (Z.leb_spec (last_version self + 1) (number b)); [lia|].
  simpl. now rewrite andb_true_r.
Qed.

(** The new version sees a marked record only if it is not marked, and then
    as in [db]. *)
Lemma marked_present_new (d : DB) (w : RepositoryVersion) (r : RepositoryContent) :
  extends d w ->
  In r (repository_content db) ->
  present_at d v (mark r) = present_at db v r && negb (to_remove self b db r).
Proof.
  intros He Hin. destruct (keys_fresh_ledger db Hkeys r Hin) as [Ha Hr].
  destruct (to_remove self b db r) eqn:Et.
  - rewrite andb_false_r. unfold present_at. simpl.
    rewrite (extends_new d w (last_version self + 1) He), Z.leb_refl. simpl.
    apply andb_false_r.
  - rewrite andb_true_r. now apply (extends_present d w).
Qed.

(** In a database that holds the marked ledger, the base version has the
    content it has in [db]. *)
Lemma content_base_marked (d : DB) (w : RepositoryVersion) (new : list RepositoryContent) :
  extends d w ->
  repository_content d = map mark (repository_content db) ++ new ->
  (forall r, In r new -> version_added r = k /\ rc_repository r = repo_pk self) ->
  content b d = content b db.
Proof.
  intros He Hl Hnew. unfold content, relationships. rewrite Hl, filter_app, map_app.
  rewrite filter_map_swap, map_map.
  replace (filter (present_at d b) new) with (@nil RepositoryContent).
  - simpl. rewrite app_nil_r.
    rewrite (filter_ext_in _ (present_at db b)
               (repository_content db)).
    + apply map_ext. intros r. now destruct (to_remove self b db r).
    + intros r Hr. now apply (marked_present_base d w).
  - symmetry. apply (filter_nil_intro (present_at d b)). intros r Hr.
    destruct (Hnew r Hr) as [Ha Hrepo].
    unfold present_at. rewrite Ha, (extends_new d w (number b) He).
    destruct (Nat.eqb_spec (rc_repository r) (repository b)) as [E | E]; [| reflexivity].
    simpl. assert (Hlt : number b <= last_version self) by (apply base_below; congruence).
    destruct (Z.leb_spec (last_version self + 1) (number b)); [lia | reflexivity].
Qed.

Lemma mark_content_id (r : RepositoryContent) : content_id (mark r) = content_id r.
Proof. cbv beta. now destruct (to_remove self b db r). Qed.

Lemma clone_removed_In (c : pk) :
  In c (clone_removed self b db) <-> In c (content v db) /\ ~ In c (content b db).
Proof. unfold clone_removed. now rewrite exclude_in_In, content_opened. Qed.

(** A record in the content of the new version is marked exactly when its
    unit is not in the content of the base version. *)
Lemma to_remove_present (r : RepositoryContent) :
  In r (repository_content db) ->
  present_at db v r = true ->
  to_remove self b db r = negb (mem (content_id r) (content b db)).
Proof.
  intros Hin Hp. pose proof (present_is_active r Hin Hp) as Ha.
  unfold active_in in Ha. apply andb_true_iff in Ha as [Hrepo Hnone].
  unfold to_remove. rewrite Hrepo, Hnone, andb_true_r. simpl.
  destruct (mem (content_id r) (content b db)) eqn:Eb; simpl.
  - apply mem_false. rewrite clone_removed_In. apply mem_In in Eb. tauto.
  - apply mem_In. rewrite clone_removed_In. apply mem_false in Eb. split; [| exact Eb].
    unfold content, relationships. apply in_map. apply filter_In. now split.
Qed.

(** With the marked ledger, the new version contains the units it had
    that the base version has too. *)
Lemma content_new_marked (d : DB) (w : RepositoryVersion) (c : pk) :
  extends d w ->
  repository_content d = map mark (repository_content db) ->
  In c (content v d) <-> In c (content v db) /\ In c (content b db).
Proof.
  intros He Hl. unfold content at 1. unfold relationships. rewrite Hl.
  rewrite filter_map_swap, map_map, in_map_iff. split.
  - intros [r [Hc Hr]]. apply filter_In in Hr as [Hin Hp].
    rewrite (marked_present_new d w r He Hin) in Hp.
    apply andb_true_iff in Hp as [Hp Hnot]. apply negb_true_iff in Hnot.
    rewrite mark_content_id in Hc. subst c. split.
    + unfold content, relationships. apply in_map. apply filter_In. now split.
    + rewrite (to_remove_present r Hin Hp) in Hnot.
      apply negb_false_iff in Hnot. now apply mem_In.
  - intros [Hv Hbc]. unfold content, relationships in Hv.
    apply in_map_iff in Hv as [r [Hc Hr]]. apply filter_In in Hr as [Hin Hp].
    exists r. split; [now rewrite mark_content_id|]. apply filter_In. split; [exact Hin|].
    rewrite (marked_present_new d w r He Hin), Hp, (to_remove_present r Hin Hp). simpl.
    rewrite negb_involutive. apply mem_In. now rewrite Hc.
Qed.

Lemma mem_ext (c : pk) (l l' : list pk) : (In c l <-> In c l') -> mem c l = mem c l'.
Proof.
  intros H. destruct (mem c l') eqn:E.
  - apply mem_In, H. now apply mem_In.
  - apply mem_false. rewrite H. now apply mem_false.
Qed.

(** The first statement of the diff: the removals. *)
Lemma clone_remove_run :
  remove_content v (exclude_in (content v db_o) (content b db_o)) db_o
  = (inr tt, set_repository_content (map mark (repository_content db)) db_o).
Proof.
  rewrite (content_opened b). fold (clone_removed self b db).
  unfold remove_content. cbn [complete opened_version].
  rewrite update_version_removed_accepted; [reflexivity|].
  apply remove_not_refused with (act := active_in (repo_pk self)).
  - intros r Hq. unfold active_in. cbn in Hq.
    apply andb_true_iff in Hq as [Hq Hn]. apply andb_true_iff in Hq as [Hr _].
    now rewrite Hr, Hn.
  - intros r s _ _ Hs. unfold same_removed in Hs. cbn in Hs.
    apply andb_true_iff in Hs as [Hs _]. apply andb_true_iff in Hs as [_ Hs].
    now apply Nat.eqb_eq.
  - apply nodupb_NoDup. exact Hactive.
  - intros r Hr. now apply keys_fresh_ledger.
Qed.

Lemma clone_added_nodup : NoDup (clone_added self b db).
Proof. unfold clone_added, exclude_in. apply NoDup_filter, nodupb_NoDup, Hbase. Qed.

(** The second statement of the diff: the additions. *)
Lemma clone_add_run :
  let d1 := set_repository_content (map mark (repository_content db)) db_o in
  add_content v (exclude_in (content b d1) (content v d1)) d1
  = (inr tt, set_repository_content (cloned_ledger self b db) db_o).
Proof.
  intros d1.
  assert (He : extends d1 v) by (repeat split).
  assert (Hcb : content b d1 = content b db).
  { apply (content_base_marked d1 v []); [exact He | | intros r []].
    simpl. now rewrite app_nil_r. }
  assert (Hadd : exclude_in (content b d1) (content v d1) = clone_added self b db).
  { rewrite Hcb. unfold clone_added, exclude_in. apply filter_ext_in. intros c Hc.
    f_equal. apply mem_ext. rewrite (content_new_marked d1 v c He eq_refl).
    rewrite content_opened. tauto. }
  unfold add_content. cbn [complete opened_version]. unfold bind at 1. unfold get_db at 1.
  rewrite exclude_in_idem, Hadd.
  rewrite bulk_create_accepted; [reflexivity|].
  apply (add_not_refused (version_pk v) (repository v)).
  - intros r Hr. cbn in Hr. apply in_map_iff in Hr as [r0 [<- Hr0]].
    destruct (keys_fresh_ledger db Hkeys r0 Hr0) as [Ha _].
    now destruct (to_remove self b db r0).
  - apply clone_added_nodup.
Qed.

(** The block [if base_version] of [new_version]. *)
Lemma clone_diff_run :
  diff_base v (Some b) db_o
  = (inr tt, set_repository_content (cloned_ledger self b db) db_o).
Proof.
  unfold diff_base. unfold bind at 1. unfold get_db at 1.
  rewrite (bind_run _ _ _ _ _ clone_remove_run).
  unfold bind at 1. unfold get_db at 1. apply clone_add_run.
Qed.

(** With the ledger that [new_version] leaves, the new version contains
    the units of the base version, and no other. *)
Lemma content_new_cloned (d : DB) (w : RepositoryVersion) (c : pk) :
  extends d w ->
  repository_content d = cloned_ledger self b db ->
  In c (content v d) <-> In c (content b db).
Proof.
  intros He Hl. unfold content at 1. unfold relationships, cloned_ledger in *.
  rewrite Hl, filter_app, map_app, in_app_iff.
  assert (Hold : In c (map content_id
                          (filter (present_at d v) (map mark (repository_content db))))
                 <-> In c (content v db) /\ In c (content b db)).
  { pose (d' := set_repository_content (map mark (repository_content db)) d).
    assert (He' : extends d' w) by exact He.
    pose proof (content_new_marked d' w c He' eq_refl) as H.
    unfold content at 1 in H. unfold relationships in H.
    replace (present_at d' v) with (present_at d v) in H by reflexivity. exact H. }
  assert (Hnew : In c (map content_id
                          (filter (present_at d v)
                                  (map (fun c => mkRC c (repo_pk self) k None)
                                       (clone_added self b db))))
                 <-> In c (content b db) /\ ~ In c (content v db)).
  { rewrite filter_all.
    - rewrite map_map. cbn [content_id]. rewrite map_id.
      unfold clone_added. now rewrite exclude_in_In, content_opened.
    - intros r Hr. apply in_map_iff in Hr as [c' [<- _]].
      unfold present_at. cbn. rewrite Nat.eqb_refl.
      rewrite (extends_new d w (last_version self + 1) He), Z.leb_refl. reflexivity. }
  rewrite Hold, Hnew.
  destruct (mem c (content v db)) eqn:E;
    [apply mem_In in E | apply mem_false in E]; tauto.
Qed.

Hypothesis Hhas : has_repository db (repo_pk self) = true.

Lemma clone_no_clash (x : RepositoryVersion) :
  repository x = repo_pk self -> number x = last_version self + 1 ->
  existsb (version_clash x) (versions db) = false.
Proof.
  intros Hr Hn. apply not_true_is_false. intros Hex.
  apply existsb_exists in Hex as [w [Hw Hc]]. unfold version_clash in Hc.
  apply andb_true_iff in Hc as [Hc Hnum]. apply andb_true_iff in Hc as [_ Hrepo].
  apply Nat.eqb_eq in Hrepo. apply Z.eqb_eq in Hnum.
  unfold counter_covers in Hcover. apply andb_true_iff in Hcover as [Hc _].
  rewrite forallb_forall in Hc. specialize (Hc w Hw).
  rewrite <- Hrepo, Hr, Nat.eqb_refl in Hc. simpl in Hc. apply Z.leb_le in Hc. lia.
Qed.

(** Saving the new version once it is complete replaces its row. *)
Lemma clone_save_complete (d : DB) :
  versions d = versions db ++ [v] ->
  RepositoryVersion_save (with_complete true v) d
  = (inr tt, set_versions (versions db ++ [with_complete true v]) d).
Proof.
  intros Hv.
  destruct (RepositoryVersion_save_cases (with_complete true v) d)
    as [(_ & _ & E) | ([Hneg | Hc] & _)].
  - rewrite E. do 2 f_equal. rewrite Hv, existsb_app. cbn [existsb with_complete version_pk].
    rewrite Nat.eqb_refl, orb_true_r, map_app. cbn [map]. rewrite Nat.eqb_refl.
    f_equal. apply map_id_on. intros x Hx.
    destruct (Nat.eqb_spec (version_pk x) (version_pk v)) as [Heq | Hne]; [| reflexivity].
    pose proof (keys_fresh_versions db Hkeys x Hx) as Hlt. cbn in Heq. lia.
  - cbn in Hneg. lia.
  - rewrite Hv, existsb_app in Hc. apply orb_true_iff in Hc as [Hc | Hc].
    + rewrite clone_no_clash in Hc by reflexivity. discriminate.
    + unfold version_clash in Hc. cbn [existsb with_complete version_pk] in Hc.
      rewrite Nat.eqb_refl in Hc. discriminate.
Qed.


End Cloning.


(** ** Deleting a complete version: C1 *)

(** The scenario of the specification: deleting version 1 squashes it into
    version 2, whose content stays the first and the third unit and whose
    added set becomes these two units. *)
Example squash_three_units :
  let v1 := Scenario.v1 in
  let v2 := Scenario.v2 in
  Scenario.three_units Scenario.empty_db = (inr tt, Scenario.db_three)
  /\ content v2 Scenario.db_three = [Scenario.unit_a; Scenario.unit_c]
  /\ exists db', delete v1 Scenario.db_three = (inr tt, db')
                 /\ get_version db' (version_pk v1) = None
                 /\ content v2 db' = [Scenario.unit_a; Scenario.unit_c]
                 /\ added v2 db' = [Scenario.unit_a; Scenario.unit_c]
                 /\ removed v2 db' = [].
Proof.
  split; [vm_compute; reflexivity|]. split; [vm_compute; reflexivity|].
  eexists. split; [vm_compute; reflexivity|].
  repeat split; vm_compute; reflexivity.
Qed.

(** *** The version without successor *)

Lemma delete_latest_run (self : RepositoryVersion) (db : DB) :
  complete self = true ->
  next self db = (inl DoesNotExist, db) ->
  delete self db = (inr tt, deleted_latest self db).
Proof.
  intros Hc Hnext. unfold delete. rewrite Hc.
  unfold bind at 1. unfold try_except.
  rewrite (bind_fail _ _ db DoesNotExist db Hnext). cbn [is_DoesNotExist].
  unfold delete_where at 1. unfold bind at 1. unfold modify at 1.
  rewrite update_version_removed_null.
  unfold Model_delete_RepositoryVersion, modify, deleted_latest. reflexivity.
Qed.

Lemma number_lte_after_delete (l : list RepositoryVersion) (k p : pk) (m : Z) :
  p <> k ->
  match find (fun v => Nat.eqb (version_pk v) p)
             (map (fun v => if opk_eqb (base_version v) (Some k)
                            then mkVersion (version_pk v) (repository v) (number v)
                                           (complete v) None
                            else v)
                  (filter (fun v => negb (Nat.eqb (version_pk v) k)) l)) with
  | Some w => number w <=? m
  | None => false
  end
  = match find (fun v => Nat.eqb (version_pk v) p) l with
    | Some w => number w <=? m
    | None => false
    end.
Proof.
  intros Hp. induction l as [|w l IH]; [reflexivity|].
  simpl. destruct (Nat.eqb_spec (version_pk w) k) as [Ek | Ek]; simpl.
  - destruct (Nat.eqb_spec (version_pk w) p) as [Ep | Ep]; [congruence | exact IH].
  - destruct (opk_eqb (base_version w) (Some k)); simpl;
      destruct (Nat.eqb (version_pk w) p); try reflexivity; exact IH.
Qed.

Lemma number_lte_deleted_latest (self : RepositoryVersion) (db : DB) (p : pk) (m : Z) :
  p <> version_pk self ->
  number_lte (deleted_latest self db) p m = number_lte db p m.
Proof.
  intros Hp. unfold number_lte, get_version. simpl.
  now apply number_lte_after_delete.
Qed.

(** A list lemma for ledgers rewritten record by record. *)
Lemma content_rewritten (P P' C D : RepositoryContent -> bool)
      (clr : RepositoryContent -> RepositoryContent) (l : list RepositoryContent) :
  (forall r, D r = false -> P r = false) ->
  (forall r, D r = true -> C (clr r) && P' (clr r) = P r) ->
  (forall r, content_id (clr r) = content_id r) ->
  map content_id (filter P' (filter C (map clr (filter D l))))
  = map content_id (filter P l).
Proof.
  intros H1 H2 H3. induction l as [|r l IH]; [reflexivity|].
  simpl. destruct (D r) eqn:Ed.
  - simpl. specialize (H2 r Ed). destruct (C (clr r)); simpl in *.
    + rewrite H2. destruct (P r); simpl; now rewrite ?H3, IH.
    + rewrite <- H2. exact IH.
  - rewrite (H1 r Ed). exact IH.
Qed.

(** Deleting the complete version that has no successor leaves the content
    of every lower version of its repository as it was. *)
Lemma delete_latest_keeps_content (self x : RepositoryVersion) (db : DB) :
  get_version db (version_pk self) = Some self ->
  repository x = repository self ->
  number x < number self ->
  content x (deleted_latest self db) = content x db.
Proof.
  intros Hrow Hrepo Hlt. unfold content, relationships.
  assert (Hself : number_lte db (version_pk self) (number x) = false).
  { unfold number_lte. rewrite Hrow. apply Z.leb_gt. lia. }
  apply content_rewritten.
  - intros r Hd. apply negb_false_iff, andb_true_iff in Hd as [_ Ha].
    apply added_is_eq in Ha. unfold present_at. rewrite Ha, Hself.
    now rewrite andb_false_r.
  - intros r Hd. apply negb_true_iff in Hd.
    destruct (Nat.eqb_spec (rc_repository r) (repository self)) as [Er | Er].
    + simpl in Hd. assert (Ha : version_added r <> version_pk self).
      { intros E. apply added_is_eq in E. congruence. }
      destruct (removed_is self r) eqn:Erem; simpl.
      * apply removed_is_eq in Erem. unfold present_at. simpl.
        unfold added_is in Hd. unfold added_is at 1. cbn [version_added set_version_removed].
        rewrite Hd, Erem, Hself. simpl.
        rewrite (number_lte_deleted_latest self db _ _ Ha).
        now rewrite !andb_true_r.
      * rewrite Hd, Erem. simpl. unfold present_at.
        rewrite (number_lte_deleted_latest self db _ _ Ha).
        destruct (version_removed r) as [w|] eqn:Ew; [| reflexivity].
        rewrite (number_lte_deleted_latest self db w); [reflexivity|].
        intros E. subst w. unfold removed_is in Erem. rewrite Ew in Erem.
        simpl in Erem. now rewrite Nat.eqb_refl in Erem.
    + simpl. unfold present_at.
      destruct (Nat.eqb_spec (rc_repository r) (repository x)) as [E | E]; [congruence|].
      simpl. apply andb_false_r.
  - intros r. now destruct (Nat.eqb (rc_repository r) (repository self) && removed_is self r).
Qed.

(** C1, at the input where the code departs from it.  A unit removed by
    the deleted version, added again by the next complete version and
    removed again later comes back in the later versions: [_squash] clears
    the first removal and deletes the second record together with its own
    removal.  Version 4 of the scenario is complete and survives the
    deletion of version 2; its content is empty before and holds the unit
    afterwards. *)
Theorem squash_revives_removed_unit :
  Scenario.churn Scenario.empty_db = (inr tt, Scenario.db_churn)
  /\ In Scenario.w2 (versions Scenario.db_churn)
  /\ In Scenario.w4 (versions Scenario.db_churn)
  /\ next Scenario.w2 Scenario.db_churn = (inr Scenario.w3, Scenario.db_churn)
  /\ delete Scenario.w2 Scenario.db_churn = (inr tt, Scenario.db_squashed)
  /\ In Scenario.w4 (versions Scenario.db_squashed)
  /\ content Scenario.w4 Scenario.db_churn = []
  /\ content Scenario.w4 Scenario.db_squashed = [Scenario.unit_a].
Proof.
  repeat (split; [vm_compute; (reflexivity || tauto)|]).
  vm_compute. reflexivity.
Qed.

(** * Further properties of the code *)

(** ** [next] and [previous] *)

Lemma lowest_spec (l : list RepositoryVersion) :
  match lowest l with
  | Some w => In w l /\ forall u, In u l -> number w <= number u
  | None => l = []
  end.
Proof.
  induction l as [|v t IH]; [reflexivity|].
  simpl. destruct (lowest t) as [w|].
  - destruct IH as [Hin Hmin].
    destruct (Z.ltb_spec (number w) (number v)).
    + split; [now right|]. intros u [<- | Hu]; [lia | now apply Hmin].
    + split; [now left|]. intros u [<- | Hu]; [lia|]. specialize (Hmin u Hu). lia.
  - subst t. split; [now left|]. intros u [<- | []]. lia.
Qed.

Lemma highest_spec (l : list RepositoryVersion) :
  match highest l with
  | Some w => In w l /\ forall u, In u l -> number u <= number w
  | None => l = []
  end.
Proof.
  induction l as [|v t IH]; [reflexivity|].
  simpl. destruct (highest t) as [w|].
  - destruct IH as [Hin Hmax].
    destruct (Z.ltb_spec (number v) (number w)).
    + split; [now right|]. intros u [<- | Hu]; [lia | now apply Hmax].
    + split; [now left|]. intros u [<- | Hu]; [lia|]. specialize (Hmax u Hu). lia.
  - subst t. split; [now left|]. intros u [<- | []]. lia.
Qed.

(** [next] never writes.  It returns the complete version of the same
    repository with the least number above the number of [self]; it raises
    [DoesNotExist], and nothing else, exactly when the repository has no
    complete version above [self]: incomplete versions are passed over. *)
Theorem next_least_complete_above (self : RepositoryVersion) (db : DB) :
  snd (next self db) = db
  /\ (forall w, fst (next self db) = inr w ->
        In w (versions db)
        /\ repository w = repository self
        /\ complete w = true
        /\ number self < number w
        /\ forall u, In u (versions db) -> repository u = repository self ->
                     complete u = true -> number self < number u ->
                     number w <= number u)
  /\ (forall e, fst (next self db) = inl e -> e = DoesNotExist)
  /\ (fst (next self db) = inl DoesNotExist <->
      forall u, In u (versions db) -> repository u = repository self ->
                complete u = true -> ~ number self < number u).
Proof.
  unfold next, bind, get_db.
  set (cands := filter (fun w => Nat.eqb (repository w) (repository self)
                                 && complete w && (number self <? number w))
                       (versions db)).
  assert (Hc : forall u, In u cands <->
                         In u (versions db) /\ repository u = repository self
                         /\ complete u = true /\ number self < number u).
  { intros u. unfold cands.
    rewrite filter_In, !andb_true_iff, Nat.eqb_eq, Z.ltb_lt. tauto. }
  pose proof (lowest_spec cands) as Hl.
  destruct (lowest cands) as [w|]; simpl.
  - destruct Hl as [Hin Hmin]. split; [reflexivity|]. split; [| split].
    + intros w' E. injection E as <-. apply Hc in Hin as (H1 & H2 & H3 & H4).
      repeat split; try assumption.
      intros u Hu Hr Hcu Hn. apply Hmin. apply Hc. tauto.
    + discriminate.
    + split; [discriminate|]. intros Hnone. exfalso.
      apply Hc in Hin as (H1 & H2 & H3 & H4). now apply (Hnone w).
  - split; [reflexivity|]. split; [| split].
    + discriminate.
    + intros e E. now injection E as <-.
    + split; [| reflexivity]. intros _ u Hu Hr Hcu Hn.
      assert (Hin : In u cands) by (apply Hc; tauto). rewrite Hl in Hin. destruct Hin.
Qed.

(** [previous] never writes.  It returns the complete version of the same
    repository with the greatest number below the number of [self]; it
    raises [DoesNotExist], and nothing else, exactly when there is none. *)
Theorem previous_greatest_complete_below (self : RepositoryVersion) (db : DB) :
  snd (previous self db) = db
  /\ (forall w, fst (previous self db) = inr w ->
        In w (versions db)
        /\ repository w = repository self
        /\ complete w = true
        /\ number w < number self
        /\ forall u, In u (versions db) -> repository u = repository self ->
                     complete u = true -> number u < number self ->
                     number u <= number w)
  /\ (forall e, fst (previous self db) = inl e -> e = DoesNotExist)
  /\ (fst (previous self db) = inl DoesNotExist <->
      forall u, In u (versions db) -> repository u = repository self ->
                complete u = true -> ~ number u < number self).
Proof.
  unfold previous, bind, get_db.
  set (cands := filter (fun w => Nat.eqb (repository w) (repository self)
                                 && complete w && (number w <? number self))
                       (versions db)).
  assert (Hc : forall u, In u cands <->
                         In u (versions db) /\ repository u = repository self
                         /\ complete u = true /\ number u < number self).
  { intros u. unfold cands.
    rewrite filter_In, !andb_true_iff, Nat.eqb_eq, Z.ltb_lt. tauto. }
  pose proof (highest_spec cands) as Hl.
  destruct (highest cands) as [w|]; simpl.
  - destruct Hl as [Hin Hmax]. split; [reflexivity|]. split; [| split].
    + intros w' E. injection E as <-. apply Hc in Hin as (H1 & H2 & H3 & H4).
      repeat split; try assumption.
      intros u Hu Hr Hcu Hn. apply Hmax. apply Hc. tauto.
    + discriminate.
    + split; [discriminate|]. intros Hnone. exfalso.
      apply Hc in Hin as (H1 & H2 & H3 & H4). now apply (Hnone w).
  - split; [reflexivity|]. split; [| split].
    + discriminate.
    + intros e E. now injection E as <-.
    + split; [| reflexivity]. intros _ u Hu Hr Hcu Hn.
      assert (Hin : In u cands) by (apply Hc; tauto). rewrite Hl in Hin. destruct Hin.
Qed.

Lemma next_inv (self w : RepositoryVersion) (db d : DB) :
  next self db = (inr w, d) ->
  d = db
  /\ In w (versions db) /\ repository w = repository self
  /\ complete w = true /\ number self < number w
  /\ forall u, In u (versions db) -> repository u = repository self ->
               complete u = true -> number self < number u -> number w <= number u.
Proof.
  unfold next, bind, get_db.
  match goal with |- context [lowest ?c] =>
    pose proof (lowest_spec c) as Hl; destruct (lowest c) as [x|] end;
    [| discriminate].
  intros E. injection E as <- <-. destruct Hl as [Hin Hmin].
  apply filter_In in Hin as [Hin Hf].
  apply andb_true_iff in Hf as [Hf Hn]. apply andb_true_iff in Hf as [Hr Hc].
  apply Nat.eqb_eq in Hr. apply Z.ltb_lt in Hn.
  repeat split; try assumption.
  intros u Hu Hru Hcu Hnu. apply Hmin. apply filter_In. split; [assumption|].
  now rewrite Hru, Nat.eqb_refl, Hcu, (proj2 (Z.ltb_lt _ _) Hnu).
Qed.

(** Round trip: when [self] is a complete version stored in a table with
    unique keys and numbers, the version before the version after [self]
    is [self]. *)
Theorem previous_of_next (self w : RepositoryVersion) (db : DB) :
  versions_unique (versions db) = true ->
  In self (versions db) ->
  complete self = true ->
  next self db = (inr w, db) ->
  previous w db = (inr self, db).
Proof.
  intros Hu Hin Hc Hnext.
  apply next_inv in Hnext as (_ & Hw & Hr & Hcw & Hn & Hmin).
  unfold previous, bind, get_db.
  match goal with |- context [highest ?c] =>
    pose proof (highest_spec c) as Hl; set (cands := c) in *;
    destruct (highest cands) as [h|] end.
  - destruct Hl as [Hh Hmax].
    assert (Hself : In self cands).
    { apply filter_In. split; [assumption|].
      now rewrite Hr, Nat.eqb_refl, Hc, (proj2 (Z.ltb_lt _ _) Hn). }
    apply filter_In in Hh as [Hhin Hf].
    apply andb_true_iff in Hf as [Hf Hhn]. apply andb_true_iff in Hf as [Hhr Hhc].
    apply Nat.eqb_eq in Hhr. apply Z.ltb_lt in Hhn.
    specialize (Hmax self Hself).
    assert (Heq : number h = number self).
    { destruct (Z.eq_dec (number h) (number self)) as [E | E]; [exact E|].
      assert (Hlt : number self < number h) by lia.
      specialize (Hmin h Hhin (eq_trans Hhr Hr) Hhc Hlt). lia. }
    assert (h = self) as ->; [| reflexivity].
    apply (versions_unique_number (versions db)); try assumption. congruence.
  - exfalso. assert (Hself : In self cands).
    { apply filter_In. split; [assumption|].
      now rewrite Hr, Nat.eqb_refl, Hc, (proj2 (Z.ltb_lt _ _) Hn). }
    rewrite Hl in Hself. destruct Hself.
Qed.

(** Instance of [previous_of_next]: versions 2 and 3 of the second
    history. *)
Lemma previous_of_next_witness :
  previous Scenario.w3 Scenario.db_churn = (inr Scenario.w2, Scenario.db_churn).
Proof.
  apply previous_of_next; vm_compute; (reflexivity || tauto).
Defined.

(** ** [delete] *)

Lemma update_version_added_cases (q : RepositoryContent -> bool) (x : pk) (db : DB) :
  update_version_added q x db =
    (inr tt, set_repository_content
               (map (fun r => if q r then set_version_added x r else r)
                    (repository_content db)) db)
  \/ update_version_added q x db = (inl IntegrityError, db).
Proof.
  unfold update_version_added, bind, get_db.
  destruct (violates _ _); [right; reflexivity | left].
  unfold modify. rewrite map_map. do 2 f_equal.
  apply map_ext. intros r. now destruct (q r).
Qed.

Lemma bind_frame {A B} (m : M A) (k : A -> M B) (db : DB) :
  same_but_ledger db (snd (m db)) ->
  (forall a d, same_but_ledger d (snd (k a d))) ->
  same_but_ledger db (snd (bind m k db)).
Proof.
  intros Hm Hk. unfold bind. destruct (m db) as [[e | a] d]; simpl in *; [exact Hm|].
  eapply same_but_ledger_trans; [exact Hm | apply Hk].
Qed.

Lemma try_except_frame {A} (m : M A) handles (h : exn -> M A) (db : DB) :
  same_but_ledger db (snd (m db)) ->
  (forall e d, same_but_ledger d (snd (h e d))) ->
  same_but_ledger db (snd (try_except m handles h db)).
Proof.
  intros Hm Hh. unfold try_except. destruct (m db) as [[e | a] d]; simpl in *; [| exact Hm].
  destruct (handles e); [| exact Hm].
  eapply same_but_ledger_trans; [exact Hm | apply Hh].
Qed.

Lemma delete_where_frame (q : RepositoryContent -> bool) (db : DB) :
  same_but_ledger db (snd (delete_where q db)).
Proof. apply same_but_ledger_set. Qed.

Lemma update_version_added_frame q x (db : DB) :
  same_but_ledger db (snd (update_version_added q x db)).
Proof.
  destruct (update_version_added_cases q x db) as [E | E]; rewrite E; simpl.
  - apply same_but_ledger_set.
  - apply same_but_ledger_refl.
Qed.

Lemma squash_frame (self : RepositoryVersion) repo_relations (n : RepositoryVersion)
      (db : DB) :
  same_but_ledger db (snd (_squash self repo_relations n db)).
Proof.
  unfold _squash.
  apply bind_frame; [apply delete_where_frame | intros [] d1].
  apply bind_frame; [apply same_but_ledger_refl | intros d1' d2].
  apply bind_frame; [apply update_version_removed_frame | intros [] d3].
  apply bind_frame; [apply delete_where_frame | intros [] d4].
  apply bind_frame; [apply update_version_added_frame | intros [] d5].
  apply update_version_removed_frame.
Qed.

Lemma next_frame (self : RepositoryVersion) (db : DB) :
  same_but_ledger db (snd (next self db)).
Proof.
  unfold next, bind, get_db.
  destruct (lowest _); apply same_but_ledger_refl.
Qed.

Lemma delete_complete_shape (self : RepositoryVersion) (db : DB) :
  complete self = true ->
  exists d, same_but_ledger db d
            /\ (snd (delete self db) = d
                \/ snd (delete self db) = snd (Model_delete_RepositoryVersion self d)).
Proof.
  intros Hc. unfold delete. rewrite Hc.
  match goal with |- context [bind ?m ?k db] => set (first := m) end.
  assert (Hf : same_but_ledger db (snd (first db))).
  { apply try_except_frame.
    - apply bind_frame; [apply next_frame | intros n d; apply squash_frame].
    - intros e d. apply bind_frame; [apply delete_where_frame | intros [] d1].
      apply update_version_removed_frame. }
  unfold bind. destruct (first db) as [[e | []] d]; simpl in Hf; exists d;
    (split; [exact Hf|]); [now left | now right].
Qed.

(** Deleting a complete version, whether it succeeds or raises, leaves
    every repository row as it is, the counter [last_version] included, and
    every created-resource marker: the number of a deleted complete version
    is not handed out again. *)
Theorem delete_complete_keeps_counter (self : RepositoryVersion) (db : DB) :
  complete self = true ->
  repositories (snd (delete self db)) = repositories db
  /\ created_resources (snd (delete self db)) = created_resources db
  /\ (forall p, get_repository (snd (delete self db)) p = get_repository db p).
Proof.
  intros Hc.
  destruct (delete_complete_shape self db Hc) as (d & Hf & Hd).
  apply same_but_ledger_fields in Hf as (Hr & _ & Hcr & _).
  assert (H : repositories (snd (delete self db)) = repositories db
              /\ created_resources (snd (delete self db)) = created_resources db)
    by (destruct Hd as [-> | ->]; simpl; now split).
  destruct H as [Hr' Hcr']. repeat split; try assumption.
  intros p. unfold get_repository. now rewrite Hr'.
Qed.

(** Instance of [delete_complete_keeps_counter]: version 2 of the second
    history. *)
Lemma delete_complete_keeps_counter_witness :
  repositories (snd (delete Scenario.w2 Scenario.db_churn))
  = repositories Scenario.db_churn.
Proof.
  apply (delete_complete_keeps_counter Scenario.w2 Scenario.db_churn). reflexivity.
Defined.

Lemma delete_ends_with_cascade (self : RepositoryVersion) (db db' : DB) :
  delete self db = (inr tt, db') ->
  exists d, db' = snd (Model_delete_RepositoryVersion self d).
Proof.
  unfold delete. destruct (complete self).
  - intros H. apply bind_inr in H as ([] & d & _ & H). exists d. now rewrite H.
  - intros H. apply atomic_inr in H.
    apply bind_inr in H as ([] & d1 & _ & H).
    apply bind_inr in H as ([] & d2 & _ & H).
    apply bind_inr in H as ([] & d3 & _ & H).
    apply bind_inr in H as ([] & d4 & _ & H).
    exists d4. now rewrite H.
Qed.



(** *** Squash and the versions below *)

Lemma squash_inv (self : RepositoryVersion) repo_relations (n : RepositoryVersion)
      (db d : DB) :
  _squash self repo_relations n db = (inr tt, d) ->
  d = set_repository_content
        (squashed_ledger self repo_relations n (repository_content db)) db.
Proof.
  unfold _squash. intros H.
  apply bind_inr in H as ([] & d1 & H1 & H). unfold delete_where, modify in H1.
  injection H1 as <-.
  apply bind_inr in H as (d1' & d2 & H2 & H). unfold get_db in H2. injection H2 as <- <-.
  apply bind_inr in H as ([] & d3 & H3 & H).
  rewrite update_version_removed_null in H3. injection H3 as <-.
  apply bind_inr in H as ([] & d4 & H4 & H). unfold delete_where, modify in H4.
  injection H4 as <-.
  apply bind_inr in H as ([] & d5 & H5 & H).
  match type of H5 with update_version_added ?q ?x ?dd = _ =>
    destruct (update_version_added_cases q x dd) as [E | E]; rewrite E in H5 end;
    [| discriminate].
  injection H5 as <-.
  match type of H with update_version_removed ?q ?x ?dd = _ =>
    destruct (update_version_removed_cases q x dd) as [E' | E']; rewrite E' in H end;
    [| discriminate].
  injection H as <-. reflexivity.
Qed.

(** A ledger rewritten record by record, in the stages of [_squash]
    followed by the cascade of [Model.delete]. *)
Lemma chain_content (P P' q1 q4 casc : RepositoryContent -> bool)
      (f3 f5 f6 : RepositoryContent -> RepositoryContent) (l : list RepositoryContent) :
  (forall r, q1 r = true -> P r = false) ->
  (forall r, q1 r = false -> q4 (f3 r) = true -> P r = false) ->
  (forall r, q1 r = false -> q4 (f3 r) = false ->
             content_id (f6 (f5 (f3 r))) = content_id r
             /\ casc (f6 (f5 (f3 r))) && P' (f6 (f5 (f3 r))) = P r) ->
  map content_id
      (filter P' (filter casc
         (map f6 (map f5 (filter (fun r => negb (q4 r))
                                 (map f3 (filter (fun r => negb (q1 r)) l)))))))
  = map content_id (filter P l).
Proof.
  intros H1 H2 H3. induction l as [|r l IH]; [reflexivity|].
  simpl. destruct (q1 r) eqn:E1; simpl.
  - rewrite (H1 r E1). exact IH.
  - destruct (q4 (f3 r)) eqn:E4; simpl.
    + rewrite (H2 r E1 E4). exact IH.
    + destruct (H3 r E1 E4) as [Hid Hp].
      destruct (casc (f6 (f5 (f3 r)))); simpl in *.
      * rewrite Hp. destruct (P r); simpl; now rewrite ?Hid, IH.
      * rewrite <- Hp. exact IH.
Qed.

Lemma bind_inl {A B} (m : M A) (k : A -> M B) db e d :
  bind m k db = (inl e, d) ->
  m db = (inl e, d) \/ exists a d1, m db = (inr a, d1) /\ k a d1 = (inl e, d).
Proof.
  unfold bind. destruct (m db) as [[e' | a] d1]; intros H.
  - left. injection H as <- <-. reflexivity.
  - right. now exists a, d1.
Qed.

(** [_squash] raises nothing but [IntegrityError]. *)
Lemma squash_raises_integrity (self : RepositoryVersion) repo_relations
      (n : RepositoryVersion) (db d : DB) (e : exn) :
  _squash self repo_relations n db = (inl e, d) -> e = IntegrityError.
Proof.
  unfold _squash. intros H.
  apply bind_inl in H as [H | ([] & d1 & _ & H)]; [discriminate|].
  apply bind_inl in H as [H | (d1' & d2 & _ & H)]; [discriminate|].
  apply bind_inl in H as [H | ([] & d3 & _ & H)].
  { rewrite update_version_removed_null in H. discriminate. }
  apply bind_inl in H as [H | ([] & d4 & _ & H)]; [discriminate|].
  apply bind_inl in H as [H | ([] & d5 & _ & H)].
  - match type of H with update_version_added ?q ?x ?dd = _ =>
      destruct (update_version_added_cases q x dd) as [E | E]; rewrite E in H end;
      congruence.
  - match type of H with update_version_removed ?q ?x ?dd = _ =>
      destruct (update_version_removed_cases q x dd) as [E | E]; rewrite E in H end;
      congruence.
Qed.

(** The database after a complete version with successor [n] has been
    deleted. *)
Lemma delete_squash_inv (self n : RepositoryVersion) (db db' : DB) :
  complete self = true ->
  next self db = (inr n, db) ->
  delete self db = (inr tt, db') ->
  db' = snd (Model_delete_RepositoryVersion self
               (set_repository_content
                  (squashed_ledger self
                     (fun r => Nat.eqb (rc_repository r) (repository self)) n
                     (repository_content db)) db)).
Proof.
  intros Hc Hnext H. unfold delete in H. rewrite Hc in H.
  apply bind_inr in H as ([] & d & Htry & H).
  unfold try_except in Htry. rewrite (bind_run _ _ db n db Hnext) in Htry.
  match type of Htry with context [_squash ?s ?rr ?nn ?dd] =>
    destruct (_squash s rr nn dd) as [[e | []] d1] eqn:Esq end.
  - apply squash_raises_integrity in Esq. subst e. discriminate.
  - injection Htry as <-. apply squash_inv in Esq. subst d1. now rewrite H.
Qed.

Lemma number_lte_after_cascade (self : RepositoryVersion) (d : DB) (p : pk) (m : Z) :
  p <> version_pk self ->
  number_lte (snd (Model_delete_RepositoryVersion self d)) p m = number_lte d p m.
Proof.
  intros Hp. unfold number_lte, get_version. simpl. now apply number_lte_after_delete.
Qed.

(** Squash keeps the versions below: when a complete version with a
    complete successor is deleted and [delete] returns, every version of
    the repository numbered below the deleted one has the content it
    had. *)
Theorem squash_keeps_lower_versions (self n x : RepositoryVersion) (db db' : DB) :
  versions_unique (versions db) = true ->
  In self (versions db) ->
  complete self = true ->
  next self db = (inr n, db) ->
  delete self db = (inr tt, db') ->
  repository x = repository self ->
  number x < number self ->
  content x db' = content x db.
Proof.
  intros Hu Hin Hc Hnext Hdel Hrepo Hlt.
  pose proof (delete_squash_inv self n db db' Hc Hnext Hdel) as Hdb'.
  apply next_inv in Hnext as (_ & Hnin & Hnr & _ & Hnn & _).
  assert (HV : number_lte db (version_pk self) (number x) = false).
  { unfold number_lte. rewrite (get_version_of_row db self Hu Hin). apply Z.leb_gt. lia. }
  assert (HN : number_lte db (version_pk n) (number x) = false).
  { unfold number_lte. rewrite (get_version_of_row db n Hu Hnin). apply Z.leb_gt. lia. }
  assert (Hpk : version_pk n <> version_pk self).
  { intros E. assert (n = self) by (now apply (versions_unique_pk (versions db))).
    subst n. lia. }
  assert (Hother : forall p m, p <> version_pk self ->
                               number_lte db' p m = number_lte db p m).
  { intros p m Hp. rewrite Hdb'. now rewrite number_lte_after_cascade. }
  unfold content, relationships. rewrite Hdb' at 2. cbn [snd Model_delete_RepositoryVersion
    modify repository_content set_repository_content]. unfold squashed_ledger.
  set (rr := fun r => Nat.eqb (rc_repository r) (repository self)).
  match goal with |- context [squash_readded ?s ?f ?m ?l] =>
    set (crr := squash_readded s f m l) end.
  apply chain_content
    with (q1 := fun r => rr r && added_is self r && removed_is n r)
         (q4 := fun r => rr r && added_is n r && mem (content_id r) crr)
         (f3 := fun r => if rr r && removed_is self r && mem (content_id r) crr
                         then set_version_removed None r else r).
  - intros r Hq. apply andb_true_iff in Hq as [Hq _]. apply andb_true_iff in Hq as [_ Ha].
    apply added_is_eq in Ha. unfold present_at. now rewrite Ha, HV, andb_false_r.
  - intros r _ Hq. apply andb_true_iff in Hq as [Hq _]. apply andb_true_iff in Hq as [_ Ha].
    apply added_is_eq in Ha.
    assert (Ha' : version_added r = version_pk n)
      by (destruct (rr r && removed_is self r && mem (content_id r) crr); exact Ha).
    unfold present_at. now rewrite Ha', HN, andb_false_r.
  - intros r _ _. clearbody crr. clear Hdb' Hdel. destruct r as [c rp a rem].
    unfold present_at, rr, added_is, removed_is, set_version_removed, set_version_added,
      opk_eqb.
    destruct rem as [w|];
      repeat (simpl;
              match goal with
              | |- context [Nat.eqb ?u ?v] => destruct (Nat.eqb_spec u v); try congruence
              | |- context [mem ?u ?l] => destruct (mem u l)
              end);
      subst; simpl in *;
      repeat match goal with
             | H : context [Nat.eqb ?u ?u] |- _ => rewrite Nat.eqb_refl in H
             end;
      simpl in *; try congruence;
      (split; [reflexivity|]);
      rewrite ?(Hother (version_pk n)) by exact Hpk;
      repeat match goal with
             | |- context [number_lte db' ?p ?m] =>
                 rewrite (Hother p m) by (assumption || congruence)
             end;
      subst; rewrite ?HV, ?HN; reflexivity.
Qed.

(** Instance of [squash_keeps_lower_versions]: version 1 of the second
    history when version 2 is deleted. *)
Lemma squash_keeps_lower_versions_witness :
  content Scenario.v1 Scenario.db_squashed = content Scenario.v1 Scenario.db_churn.
Proof.
  apply (squash_keeps_lower_versions Scenario.w2 Scenario.w3 Scenario.v1
                                     Scenario.db_churn Scenario.db_squashed);
    vm_compute; (reflexivity || tauto).
Defined.

(** The complete version without complete successor: [delete] takes the
    branch of [DoesNotExist], always returns, and every version of the
    repository numbered below the deleted one has the content it had. *)
Theorem delete_latest_keeps_lower_versions (self x : RepositoryVersion) (db : DB) :
  get_version db (version_pk self) = Some self ->
  complete self = true ->
  next self db = (inl DoesNotExist, db) ->
  repository x = repository self ->
  number x < number self ->
  exists db', delete self db = (inr tt, db')
              /\ content x db' = content x db.
Proof.
  intros Hrow Hc Hnext Hrepo Hlt. exists (deleted_latest self db). split.
  - now apply delete_latest_run.
  - now apply delete_latest_keeps_content.
Qed.

(** Instance of [delete_latest_keeps_lower_versions]: version 2, the
    latest of the scenario, and version 1. *)
Lemma delete_latest_keeps_lower_versions_witness :
  exists db', delete Scenario.v2 Scenario.db_readd = (inr tt, db')
              /\ content Scenario.v1 db' = content Scenario.v1 Scenario.db_readd.
Proof.
  apply delete_latest_keeps_lower_versions; vm_compute; reflexivity.
Defined.

(** *** Squash and the versions above *)

Lemma chain_In (q1 q4 casc : RepositoryContent -> bool)
      (f3 f5 f6 : RepositoryContent -> RepositoryContent)
      (l : list RepositoryContent) (r' : RepositoryContent) :
  In r' (filter casc
           (map f6 (map f5 (filter (fun r => negb (q4 r))
                                   (map f3 (filter (fun r => negb (q1 r)) l))))))
  <-> exists r, In r l /\ q1 r = false /\ q4 (f3 r) = false
                /\ r' = f6 (f5 (f3 r)) /\ casc r' = true.
Proof.
  rewrite filter_In, map_map, in_map_iff. split.
  - intros [[r3 [Hr' Hin]] Hc]. apply filter_In in Hin as [Hin Hq4].
    apply in_map_iff in Hin as [r [Hr3 Hin]]. apply filter_In in Hin as [Hin Hq1].
    apply negb_true_iff in Hq4, Hq1. exists r. subst r3. now repeat split.
  - intros [r (Hin & Hq1 & Hq4 & Hr' & Hc)]. split; [| exact Hc].
    exists (f3 r). split; [now symmetry|]. apply filter_In. split.
    + apply in_map. apply filter_In. split; [exact Hin | now apply negb_true_iff].
    + now apply negb_true_iff.
Qed.

(** The fields of a squashed record of the repository. *)
Lemma squash_record_fields (self n : RepositoryVersion) (readded : list pk)
      (r : RepositoryContent) :
  rc_repository r = repository self ->
  content_id (squash_record self n readded r) = content_id r
  /\ rc_repository (squash_record self n readded r) = rc_repository r
  /\ version_added (squash_record self n readded r)
     = (if added_is self r then version_pk n else version_added r)
  /\ version_removed (squash_record self n readded r)
     = (if removed_is self r
        then (if mem (content_id r) readded then None else Some (version_pk n))
        else version_removed r).
Proof.
  intros Hr. unfold squash_record. cbv zeta beta.
  assert (Hrr : Nat.eqb (rc_repository r) (repository self) = true)
    by now apply Nat.eqb_eq.
  rewrite Hrr. rewrite ?andb_true_l.
  set (r3 := if removed_is self r && mem (content_id r) readded
             then set_version_removed None r else r).
  assert (H3 : content_id r3 = content_id r /\ rc_repository r3 = rc_repository r
               /\ version_added r3 = version_added r
               /\ version_removed r3
                  = if removed_is self r && mem (content_id r) readded
                    then None else version_removed r).
  { subst r3. destruct (removed_is self r && mem (content_id r) readded);
      simpl; repeat split; reflexivity. }
  clearbody r3. destruct H3 as (Hc3 & Hp3 & Ha3 & Hm3).
  rewrite Hp3, Hrr. rewrite ?andb_true_l.
  set (r5 := if added_is self r3 then set_version_added (version_pk n) r3 else r3).
  assert (H5 : content_id r5 = content_id r /\ rc_repository r5 = rc_repository r
               /\ version_added r5
                  = (if added_is self r then version_pk n else version_added r)
               /\ version_removed r5 = version_removed r3).
  { assert (Ha : added_is self r3 = added_is self r)
      by (unfold added_is; now rewrite Ha3).
    subst r5. rewrite Ha. destruct (added_is self r); simpl; repeat split; congruence. }
  clearbody r5. destruct H5 as (Hc5 & Hp5 & Ha5 & Hm5).
  rewrite Hp5, Hrr. rewrite ?andb_true_l.
  assert (Hm : removed_is self r5
               = removed_is self r && negb (mem (content_id r) readded)).
  { unfold removed_is at 1. rewrite Hm5, Hm3.
    destruct (removed_is self r) eqn:E; destruct (mem (content_id r) readded);
      simpl; try reflexivity; exact E. }
  rewrite Hm.
  destruct (removed_is self r); destruct (mem (content_id r) readded); simpl;
    simpl in Hm3; repeat split; congruence.
Qed.

(** A unit is in [content_removed_and_readded] exactly when the
    repository has a record of it removed by [self] and a record of it
    added by the next version. *)
Lemma squash_readded_In (self n : RepositoryVersion) (l : list RepositoryContent) (c : pk) :
  version_pk n <> version_pk self ->
  let rr := fun r => Nat.eqb (rc_repository r) (repository self) in
  In c (squash_readded self rr n
          (filter (fun r => negb (rr r && added_is self r && removed_is n r)) l))
  <-> (exists r1, In r1 l /\ rr r1 = true /\ removed_is self r1 = true
                  /\ content_id r1 = c)
      /\ (exists r2, In r2 l /\ rr r2 = true /\ added_is n r2 = true
                     /\ content_id r2 = c).
Proof.
  intros Hpk rr. unfold squash_readded. rewrite in_map_iff. split.
  - intros [r1 [Hc H1]]. apply filter_In in H1 as [H1 Hq].
    apply andb_true_iff in Hq as [Hq Hm]. apply andb_true_iff in Hq as [Hrr Hrem].
    apply filter_In in H1 as [H1 _]. split; [now exists r1|].
    apply mem_In, in_map_iff in Hm as [r2 [Hc2 H2]].
    apply filter_In in H2 as [H2 Hq2]. apply andb_true_iff in Hq2 as [Hrr2 Ha2].
    apply filter_In in H2 as [H2 _]. exists r2. repeat split; congruence.
  - intros [[r1 (H1 & Hrr1 & Hrem1 & Hc1)] [r2 (H2 & Hrr2 & Ha2 & Hc2)]].
    exists r1. split; [exact Hc1|]. apply filter_In. split.
    + apply filter_In. split; [exact H1|]. apply negb_true_iff.
      apply removed_is_eq in Hrem1. unfold removed_is at 1. rewrite Hrem1. simpl.
      destruct (Nat.eqb_spec (version_pk self) (version_pk n)); [congruence|].
      apply andb_false_r.
    + rewrite Hrr1, Hrem1. simpl. apply mem_In, in_map_iff. exists r2.
      split; [congruence|]. apply filter_In. split.
      * apply filter_In. split; [exact H2|]. apply negb_true_iff.
        apply added_is_eq in Ha2. unfold added_is at 1. rewrite Ha2.
        destruct (Nat.eqb_spec (version_pk n) (version_pk self)); [congruence|].
        now rewrite andb_false_r.
      * now rewrite Hrr2, Ha2.
Qed.

(** Squash changes no record's unit or repository. *)
Lemma squash_record_repository (self n : RepositoryVersion) (readded : list pk)
      (r : RepositoryContent) :
  rc_repository (squash_record self n readded r) = rc_repository r.
Proof.
  unfold squash_record. cbv zeta beta.
  repeat match goal with
         | |- context [rc_repository (if ?b then ?s else ?t)] =>
             replace (rc_repository (if b then s else t)) with (rc_repository t)
               by (destruct b; reflexivity)
         end.
  reflexivity.
Qed.

(** No squashed record names the deleted version. *)
Lemma squash_record_unreferenced (self n : RepositoryVersion) (readded : list pk)
      (r : RepositoryContent) :
  rc_repository r = repository self ->
  version_pk n <> version_pk self ->
  negb (added_is self (squash_record self n readded r)
        || removed_is self (squash_record self n readded r)) = true.
Proof.
  intros Hr Hpk.
  destruct (squash_record_fields self n readded r Hr) as (_ & _ & Fa & Fr).
  apply negb_true_iff, orb_false_iff. split.
  - unfold added_is. rewrite Fa. destruct (added_is self r) eqn:E.
    + now apply Nat.eqb_neq.
    + exact E.
  - unfold removed_is. rewrite Fr. destruct (removed_is self r) eqn:E.
    + destruct (mem (content_id r) readded); simpl; [reflexivity|].
      now apply Nat.eqb_neq.
    + exact E.
Qed.

(** Squash and the versions above: when a complete version with a
    complete successor [n] is deleted and [delete] returns, a version of
    the repository numbered from [n] on loses no unit, and the only units
    it can gain are those of [removed_again]: removed by the deleted
    version, added again by [n] and removed once more later. *)
Theorem squash_upper_versions (self n x : RepositoryVersion) (db db' : DB) :
  ledger_ok db = true ->
  In self (versions db) ->
  complete self = true ->
  next self db = (inr n, db) ->
  delete self db = (inr tt, db') ->
  repository x = repository self ->
  number n <= number x ->
  (forall c, In c (content x db) -> In c (content x db'))
  /\ (forall c, In c (content x db') -> ~ In c (removed_again self n db) ->
                In c (content x db)).
Proof.
  intros Hok Hin Hc Hnext Hdel Hrepo Hle.
  apply ledger_ok_inv in Hok as [Hu Hrec].
  pose proof (delete_squash_inv self n db db' Hc Hnext Hdel) as Hdb'.
  apply next_inv in Hnext as (_ & Hnin & Hnr & _ & Hnn & _).
  assert (HV : forall m, number_lte db (version_pk self) m = (number self <=? m)).
  { intros m. unfold number_lte. now rewrite (get_version_of_row db self Hu Hin). }
  assert (HN : forall m, number_lte db (version_pk n) m = (number n <=? m)).
  { intros m. unfold number_lte. now rewrite (get_version_of_row db n Hu Hnin). }
  assert (Hpk : version_pk n <> version_pk self).
  { intros E. assert (n = self) by (now apply (versions_unique_pk (versions db))).
    subst n. lia. }
  assert (Hother : forall p m, p <> version_pk self ->
                               number_lte db' p m = number_lte db p m).
  { intros p m Hp. rewrite Hdb'. now rewrite number_lte_after_cascade. }
  assert (HVx : number_lte db (version_pk self) (number x) = true)
    by (rewrite HV; apply Z.leb_le; lia).
  assert (HNx : number_lte db (version_pk n) (number x) = true)
    by (rewrite HN; apply Z.leb_le; lia).
  assert (HNx' : number_lte db' (version_pk n) (number x) = true)
    by (now rewrite Hother).
  set (rr := fun r => Nat.eqb (rc_repository r) (repository self)).
  set (q1 := fun r => rr r && added_is self r && removed_is n r).
  set (crr := squash_readded self rr n
                (filter (fun r => negb (q1 r)) (repository_content db))).
  assert (HL : forall r', In r' (repository_content db')
               <-> exists r, In r (repository_content db) /\ q1 r = false
                             /\ rr r && added_is n r && mem (content_id r) crr = false
                             /\ r' = squash_record self n crr r
                             /\ negb (added_is self r' || removed_is self r') = true).
  { intros r'. rewrite Hdb'. cbn [snd Model_delete_RepositoryVersion modify
      repository_content set_repository_content]. unfold squashed_ledger.
    fold rr. fold q1. fold crr.
    pose proof (chain_In q1 (fun r => rr r && added_is n r && mem (content_id r) crr)
             (fun r => negb (added_is self r || removed_is self r))
             (fun r => if rr r && removed_is self r && mem (content_id r) crr
                       then set_version_removed None r else r)
             (fun r => if rr r && added_is self r
                       then set_version_added (version_pk n) r else r)
             (fun r => if rr r && removed_is self r
                       then set_version_removed (Some (version_pk n)) r else r)
             (repository_content db) r') as HC.
    refine (iff_trans HC _). clear HC. cbv beta.
    split; intros [r (H1 & H2 & H3 & H4 & H5)]; exists r;
      (repeat split; [exact H1 | exact H2 | | exact H4 | exact H5]);
      destruct (rr r && removed_is self r && mem (content_id r) crr); exact H3. }
  assert (Hcrr : forall c, In c crr
                 <-> (exists r1, In r1 (repository_content db) /\ rr r1 = true
                                 /\ removed_is self r1 = true /\ content_id r1 = c)
                     /\ (exists r2, In r2 (repository_content db) /\ rr r2 = true
                                    /\ added_is n r2 = true /\ content_id r2 = c)).
  { intros c. exact (squash_readded_In self n (repository_content db) c Hpk). }
  clearbody crr. clear Hdb' Hdel.
  split; intros c Hcin.
  - apply content_In in Hcin as (r & Hr & Hcid & Hrp & Hadd & Hrem).
    assert (Hrs : rc_repository r = repository self) by congruence.
    assert (HnV : removed_is self r = false).
    { destruct (removed_is self r) eqn:E; [|reflexivity].
      apply removed_is_eq in E. rewrite E in Hrem. congruence. }
    assert (HnN : removed_is n r = false).
    { destruct (removed_is n r) eqn:E; [|reflexivity].
      apply removed_is_eq in E. rewrite E in Hrem. congruence. }
    destruct (rr r && added_is n r && mem (content_id r) crr) eqn:Eq4.
    + apply andb_true_iff in Eq4 as [_ Hm]. rewrite Hcid in Hm.
      pose proof Hm as Hm'. apply mem_In, Hcrr in Hm' as [[r1 (H1 & Hrr1 & Hrem1 & Hc1)] _].
      assert (Hrs1 : rc_repository r1 = repository self) by (now apply Nat.eqb_eq).
      destruct (record_ok_inv db r1 (Hrec r1 H1)) as (a1 & Ha1 & _ & Hiv).
      pose proof Hrem1 as Hrem1'. apply removed_is_eq in Hrem1'.
      destruct Hiv as [Hiv | (w & xw & Hw & Hxw & _ & Hnum)]; [congruence|].
      assert (xw = self).
      { rewrite Hrem1' in Hw. injection Hw as <-.
        rewrite (get_version_of_row db self Hu Hin) in Hxw. congruence. }
      subst xw.
      assert (HaN : added_is n r1 = false).
      { destruct (added_is n r1) eqn:E; [|reflexivity]. apply added_is_eq in E.
        rewrite E, (get_version_of_row db n Hu Hnin) in Ha1. injection Ha1 as <-. lia. }
      destruct (squash_record_fields self n crr r1 Hrs1) as (Fc & Fp & Fa & Fr).
      rewrite Hrem1, Hc1, Hm in Fr.
      apply content_In. exists (squash_record self n crr r1). split; [|repeat split].
      * apply HL. exists r1. repeat split.
        -- exact H1.
        -- unfold q1, removed_is. rewrite Hrem1'. simpl.
           assert (E : Nat.eqb (version_pk self) (version_pk n) = false)
             by (apply Nat.eqb_neq; congruence).
           rewrite E. apply andb_false_r.
        -- rewrite HaN. now rewrite andb_false_r.
        -- now apply squash_record_unreferenced.
      * congruence.
      * congruence.
      * rewrite Fa. destruct (added_is self r1) eqn:E; [exact HNx'|].
        rewrite Hother by (now apply Nat.eqb_neq).
        unfold number_lte. rewrite Ha1. apply Z.leb_le. lia.
      * now rewrite Fr.
    + destruct (squash_record_fields self n crr r Hrs) as (Fc & Fp & Fa & Fr).
      rewrite HnV in Fr.
      apply content_In. exists (squash_record self n crr r). split; [|repeat split].
      * apply HL. exists r. repeat split.
        -- exact Hr.
        -- unfold q1. rewrite HnN. apply andb_false_r.
        -- exact Eq4.
        -- now apply squash_record_unreferenced.
      * congruence.
      * congruence.
      * rewrite Fa. destruct (added_is self r) eqn:E; [exact HNx'|].
        rewrite Hother by (now apply Nat.eqb_neq). exact Hadd.
      * rewrite Fr. destruct (version_removed r) as [w|] eqn:Ew; [|exact I].
        rewrite Hother; [exact Hrem|]. intros ->.
        unfold removed_is in HnV. rewrite Ew in HnV. simpl in HnV.
        now rewrite Nat.eqb_refl in HnV.
  - intros Hnot.
    apply content_In in Hcin as (r' & Hr' & Hcid & Hrp & Hadd & Hrem).
    apply HL in Hr' as (r & Hr & _ & _ & -> & _).
    assert (Hrs : rc_repository r = repository self).
    { rewrite squash_record_repository in Hrp. congruence. }
    destruct (squash_record_fields self n crr r Hrs) as (Fc & Fp & Fa & Fr).
    rewrite Fa in Hadd. rewrite Fr in Hrem. rewrite Fc in Hcid.
    destruct (removed_is self r) eqn:EV.
    + destruct (mem (content_id r) crr) eqn:Em.
      * apply mem_In, Hcrr in Em as [_ [r2 (H2 & Hrr2 & Ha2 & Hc2)]].
        assert (Hrs2 : rc_repository r2 = repository self) by (now apply Nat.eqb_eq).
        assert (Hrem2 : version_removed r2 = None).
        { destruct (version_removed r2) as [w|] eqn:Ew; [|reflexivity].
          exfalso. apply Hnot. unfold removed_again. apply in_map_iff.
          exists r2. split; [congruence|]. apply filter_In. split; [exact H2|].
          fold (rr r2). rewrite Hrr2, Ha2, Ew. simpl.
          apply existsb_exists. exists r. split; [exact Hr|].
          fold (rr r). unfold rr at 1. rewrite (proj2 (Nat.eqb_eq _ _) Hrs), EV. simpl.
          apply Nat.eqb_eq. congruence. }
        apply content_In. exists r2. repeat split.
        -- exact H2.
        -- congruence.
        -- congruence.
        -- apply added_is_eq in Ha2. now rewrite Ha2.
        -- now rewrite Hrem2.
      * congruence.
    + apply content_In. exists r. repeat split.
      * exact Hr.
      * exact Hcid.
      * congruence.
      * destruct (added_is self r) eqn:E.
        -- apply added_is_eq in E. now rewrite E.
        -- rewrite Hother in Hadd by (now apply Nat.eqb_neq). exact Hadd.
      * destruct (version_removed r) as [w|] eqn:Ew; [|exact I].
        rewrite Hother in Hrem; [exact Hrem|]. intros ->.
        unfold removed_is in EV. rewrite Ew in EV. simpl in EV.
        now rewrite Nat.eqb_refl in EV.
Qed.

(** Instance of [squash_upper_versions]: version 4 of the second history
    when version 2 is deleted. *)
Lemma squash_upper_versions_witness :
  (forall c, In c (content Scenario.w4 Scenario.db_churn) ->
             In c (content Scenario.w4 Scenario.db_squashed))
  /\ (forall c, In c (content Scenario.w4 Scenario.db_squashed) ->
                ~ In c (removed_again Scenario.w2 Scenario.w3 Scenario.db_churn) ->
                In c (content Scenario.w4 Scenario.db_churn)).
Proof.
  apply (squash_upper_versions Scenario.w2 Scenario.w3 Scenario.w4
                               Scenario.db_churn Scenario.db_squashed);
    vm_compute; (reflexivity || tauto || discriminate).
Defined.

(** *** Counts *)

(** [annotate] yields, for each type that occurs, its number of occurrences. *)
Lemma annotate_spec (types : list string) (t : string) (k : Z) :
  In (t, k) (annotate types)
  <-> 0 < k /\ k = Z.of_nat (count_occ string_dec types t).
Proof.
  revert t k. induction types as [|s rest IH]; intros t k.
  - simpl. split; [tauto | lia].
  - simpl annotate.
    destruct (existsb (fun p => String.eqb (fst p) s) (annotate rest)) eqn:E.
    + apply existsb_exists in E as [[s' k'] [Hin Hs]]. simpl in Hs.
      apply String.eqb_eq in Hs. subst s'. apply IH in Hin as [Hpos Hk'].
      rewrite in_map_iff. split.
      * intros [[u j] [Hb Hu]]. simpl in Hb. apply IH in Hu as [Hj Hju].
        destruct (String.eqb_spec u s) as [-> | Hne]; injection Hb as <- <-.
        -- rewrite count_occ_cons_eq by reflexivity. lia.
        -- rewrite count_occ_cons_neq by congruence. lia.
      * intros [Hk Hkc]. destruct (string_dec s t) as [-> | Hne].
        -- rewrite count_occ_cons_eq in Hkc by reflexivity.
           exists (t, k - 1). simpl. rewrite String.eqb_refl. split.
           ++ f_equal. lia.
           ++ apply IH. lia.
        -- rewrite count_occ_cons_neq in Hkc by exact Hne.
           exists (t, k). simpl.
           destruct (String.eqb_spec t s) as [-> | _]; [congruence|].
           split; [reflexivity|]. now apply IH.
    + assert (H0 : count_occ string_dec rest s = 0%nat).
      { destruct (count_occ string_dec rest s) as [|m] eqn:Ec; [reflexivity|].
        assert (Hin : In (s, Z.of_nat (S m)) (annotate rest)) by (apply IH; lia).
        rewrite <- not_true_iff_false in E. exfalso. apply E.
        apply existsb_exists. eexists. split; [exact Hin|]. apply String.eqb_refl. }
      split.
      * intros [Heq | Hin].
        -- injection Heq as <- <-. rewrite count_occ_cons_eq by reflexivity. lia.
        -- apply IH in Hin as [Hk Hkc]. destruct (string_dec s t) as [-> | Hne].
           ++ lia.
           ++ rewrite count_occ_cons_neq by exact Hne. lia.
      * intros [Hk Hkc]. destruct (string_dec s t) as [-> | Hne].
        -- rewrite count_occ_cons_eq in Hkc by reflexivity. left. f_equal. lia.
        -- rewrite count_occ_cons_neq in Hkc by exact Hne. right. now apply IH.
Qed.

Lemma filter_idem {A} (f : A -> bool) (l : list A) :
  filter f (filter f l) = filter f l.
Proof.
  induction l as [|x l IH]; [reflexivity|]. simpl.
  destruct (f x) eqn:E; simpl; [rewrite E|]; now rewrite IH.
Qed.

(** What [_compute_counts] leaves: the rows of the other versions and the
    new rows of this one. *)
Lemma compute_counts_shape (self : RepositoryVersion) (db : DB) :
  _compute_counts self db
  = (inr tt, set_content_details
               (other_details self db ++ count_rows self ADDED db
                ++ count_rows self PRESENT db ++ count_rows self REMOVED db) db).
Proof.
  unfold _compute_counts, atomic, bind, counts_of, modify, get_db, ret. simpl.
  unfold set_content_details, other_details. simpl. rewrite !filter_idem. reflexivity.
Qed.

Lemma count_rows_In (self : RepositoryVersion) (value : CountType) (db : DB)
      (d : RepositoryVersionContentDetails) :
  In d (count_rows self value db)
  <-> count_type d = value /\ repository_version d = version_pk self
      /\ 0 < count d
      /\ count d = Z.of_nat (count_occ string_dec
                               (map (pulp_type db) (counted self value db))
                               (content_type d)).
Proof.
  unfold count_rows. rewrite in_map_iff. split.
  - intros [[t k] [<- Hin]]. apply annotate_spec in Hin. simpl. tauto.
  - intros (Hv & Hp & Hk & Hkc). exists (content_type d, count d). split.
    + destruct d. simpl in *. now subst.
    + now apply annotate_spec.
Qed.

Lemma count_rows_other (self : RepositoryVersion) (value : CountType) (db : DB) :
  filter (fun d => negb (Nat.eqb (repository_version d) (version_pk self)))
         (count_rows self value db) = [].
Proof.
  apply filter_nil_intro. intros d Hd. apply count_rows_In in Hd as (_ & -> & _).
  now rewrite Nat.eqb_refl.
Qed.

(** The table of counts after [_compute_counts]: the call always returns;
    the rows of other versions are those there were, and the rows of this
    version are, for each count type and each type of content that
    occurs, one row with the number of occurrences. *)
Theorem compute_counts_table (self : RepositoryVersion) (db : DB) :
  exists db',
    _compute_counts self db = (inr tt, db')
    /\ repository_content db' = repository_content db
    /\ versions db' = versions db
    /\ repositories db' = repositories db
    /\ forall d,
         In d (content_details db')
         <-> (repository_version d <> version_pk self /\ In d (content_details db))
             \/ (repository_version d = version_pk self
                 /\ 0 < count d
                 /\ count d = Z.of_nat (count_occ string_dec
                                          (map (pulp_type db)
                                               (counted self (count_type d) db))
                                          (content_type d))).
Proof.
  eexists. split; [apply compute_counts_shape|]. repeat split; try reflexivity.
  - cbn [content_details set_content_details]. rewrite !in_app_iff.
    unfold other_details. rewrite filter_In, !count_rows_In, negb_true_iff, Nat.eqb_neq.
    intros [H | [H | [H | H]]]; [tauto | | |];
      destruct H as (Hv & Hp & Hk & Hkc); right; rewrite Hv; tauto.
  - cbn [content_details set_content_details]. rewrite !in_app_iff.
    unfold other_details. rewrite filter_In, !count_rows_In, negb_true_iff, Nat.eqb_neq.
    intros [H | H]; [tauto|]. right. destruct (count_type d) eqn:E; tauto.
Qed.

Lemma count_rows_frame (self : RepositoryVersion) (value : CountType)
      (l : list RepositoryVersionContentDetails) (db : DB) :
  count_rows self value (set_content_details l db) = count_rows self value db.
Proof. destruct value; reflexivity. Qed.

(** Counting twice is counting once: the second call deletes the rows of
    the first and makes the same ones. *)
Theorem compute_counts_twice (self : RepositoryVersion) (db : DB) :
  (_compute_counts self ;; _compute_counts self) db = _compute_counts self db.
Proof.
  unfold bind. rewrite (compute_counts_shape self db).
  rewrite compute_counts_shape. f_equal.
  unfold other_details at 1. cbn [content_details set_content_details].
  rewrite !filter_app, !count_rows_other, !app_nil_r, !count_rows_frame.
  unfold other_details. rewrite filter_idem. reflexivity.
Qed.

(** *** [Repository.save] *)

Lemma Repository_save_new_shape (s : Repository) (db : DB) :
  has_repository db (repo_pk s) = false ->
  Repository_save s db
  = atomic (Model_save_Repository s ;; create_initial_version s) db.
Proof.
  unfold has_repository. intros Hno. unfold Repository_save, atomic.
  unfold bind at 1. unfold get_db. now rewrite Hno.
Qed.



(** Saving a new repository writes all or nothing: either the row and its
    initial version are both there, or [save] raises [IntegrityError] and
    no table has changed. *)
Theorem save_new_all_or_nothing (s : Repository) (db : DB) (r : exn + unit) (db' : DB) :
  has_repository db (repo_pk s) = false ->
  Repository_save s db = (r, db') ->
  (r = inr tt /\ In s (repositories db') /\ In (initial_version s db) (versions db'))
  \/ (r = inl IntegrityError
      /\ repositories db' = repositories db
      /\ versions db' = versions db
      /\ repository_content db' = repository_content db).
Proof.
  intros Hno. rewrite (Repository_save_new_shape s db Hno).
  unfold has_repository in Hno.
  unfold Model_save_Repository, create_initial_version.
  unfold atomic, bind, get_db, modify, raise, fresh_pk.
  destruct (last_version s <? 0).
  - intros H. injection H as <- <-. right. now repeat split.
  - rewrite Hno.
    match goal with |- context [RepositoryVersion_save ?v ?d] =>
      destruct (RepositoryVersion_save_cases v d) as [(_ & _ & E) | (_ & E)]; rewrite E end.
    + intros H. injection H as <- <-. left. split; [reflexivity|]. split.
      * simpl. apply in_or_app. right. now left.
      * simpl. apply upsert_In.
    + intros H. injection H as <- <-. right. now repeat split.
Qed.

(** Instance of [save_new_all_or_nothing]: a new repository whose counter
    the store refuses. *)
Lemma save_new_all_or_nothing_witness :
  (@inl exn unit IntegrityError = inr tt
   /\ In (mkRepository 5%nat (-1)) (repositories Scenario.db_readd)
   /\ In (initial_version (mkRepository 5%nat (-1)) Scenario.db_readd)
         (versions Scenario.db_readd))
  \/ (@inl exn unit IntegrityError = inl IntegrityError
      /\ repositories Scenario.db_readd = repositories Scenario.db_readd
      /\ versions Scenario.db_readd = versions Scenario.db_readd
      /\ repository_content Scenario.db_readd = repository_content Scenario.db_readd).
Proof.
  apply (save_new_all_or_nothing (mkRepository 5%nat (-1)) Scenario.db_readd
                                 (inl IntegrityError) Scenario.db_readd);
    vm_compute; reflexivity.
Defined.

(** *** [__exit__] *)

Lemma try_except_handler_fails {A} (m : M A) (h : exn -> M A) (db : DB) (a : A) (d : DB) :
  (forall e d1, exists e' d2, h e d1 = (inl e', d2)) ->
  try_except m catch_all h db = (inr a, d) ->
  m db = (inr a, d).
Proof.
  intros Hh. unfold try_except, catch_all.
  destruct (m db) as [[e | x] d1]; [|tauto].
  destruct (Hh e d1) as (e' & d2 & E). rewrite E. discriminate.
Qed.

(** When [__exit__] is entered without exception and returns, whatever the
    hook [finalize_new_version] does, the version is gone or complete:
    either no version row has its key, or the rows that have it are the
    version itself, saved complete. *)
Theorem exit_leaves_no_open_version (hook : RepositoryVersion -> M unit)
        (self : RepositoryVersion) (db db' : DB) :
  __exit__ hook self None db = (inr tt, db') ->
  (forall w, In w (versions db') -> version_pk w <> version_pk self)
  \/ (In (with_complete true self) (versions db')
      /\ forall w, In w (versions db') -> version_pk w = version_pk self ->
                   w = with_complete true self).
Proof.
  unfold __exit__. intros H. apply bind_inr in H as (nc & d1 & Htry & H).
  apply try_except_handler_fails in Htry.
  2:{ intros e d. unfold bind, raise.
      destruct (delete self d) as [[e' | []] d2]; eauto. }
  apply bind_inr in Htry as ([] & d0 & _ & Htry).
  unfold get_db in Htry. unfold bind at 1 in Htry.
  apply bind_inr in Htry as ([] & d1' & Hdel & Hret).
  unfold ret in Hret. injection Hret as Hnc <-.
  destruct nc.
  - left. rewrite Hnc in Hdel. unfold ret in H. injection H as <-.
    apply delete_ends_with_cascade in Hdel as [d ->]. simpl.
    intros w Hw. apply in_map_iff in Hw as [w0 [<- Hin]].
    apply filter_In in Hin as [_ Hne]. apply negb_true_iff, Nat.eqb_neq in Hne.
    destruct (opk_eqb (base_version w0) (Some (version_pk self))); exact Hne.
  - right. apply try_except_handler_fails in H.
    2:{ intros e d. unfold bind, raise.
        destruct (delete (with_complete true self) d) as [[e' | []] d2]; eauto. }
    apply bind_inr in H as ([] & d2 & Hsave & Hcount).
    destruct (compute_counts_run (with_complete true self) d2) as [l Hl].
    rewrite Hl in Hcount. injection Hcount as <-.
    cbn [versions set_content_details].
    destruct (RepositoryVersion_save_cases (with_complete true self) d1')
      as [(_ & _ & E) | (_ & E)]; rewrite E in Hsave; [|discriminate].
    injection Hsave as <-. cbn [versions set_versions]. split; [exact (upsert_In (with_complete true self) (versions d1'))|].
    intros w Hw Hpk.
    destruct (existsb (fun w0 => Nat.eqb (version_pk w0) (version_pk self))
                      (versions d1')) eqn:Ex.
    + apply in_map_iff in Hw as [w0 [<- Hin]].
      destruct (Nat.eqb_spec (version_pk w0) (version_pk self))
        as [_ | Hne]; [reflexivity | congruence].
    + apply in_app_or in Hw as [Hw | [<- | []]]; [|reflexivity].
      rewrite <- not_true_iff_false in Ex. exfalso. apply Ex.
      apply existsb_exists. exists w. split; [exact Hw|]. now apply Nat.eqb_eq.
Qed.

(** Instance of [exit_leaves_no_open_version]: version 3 of the first
    history, closed after a unit was added to it. *)
Lemma exit_leaves_no_open_version_witness :
  (forall w, In w (versions Further.db_closed3) ->
             version_pk w <> version_pk Scenario.v3)
  \/ (In (with_complete true Scenario.v3) (versions Further.db_closed3)
      /\ forall w, In w (versions Further.db_closed3) ->
                   version_pk w = version_pk Scenario.v3 ->
                   w = with_complete true Scenario.v3).
Proof.
  apply (exit_leaves_no_open_version finalize_new_version Scenario.v3
                                     Scenario.db_failed Further.db_closed3).
  vm_compute. reflexivity.
Defined.

(** *** Mutations and [contains] *)

Lemma violates_none_written (clash : RepositoryContent -> RepositoryContent -> bool)
      (l : list (bool * RepositoryContent)) :
  (forall p, In p l -> fst p = false) -> violates clash l = false.
Proof.
  induction l as [|[t r] rest IH]; intros H; [reflexivity|].
  simpl. rewrite IH by (intros p Hp; apply H; now right).
  rewrite orb_false_r. apply not_true_is_false. intros Hex.
  apply existsb_exists in Hex as [p [Hin Hc]].
  apply andb_true_iff in Hc as [Ht _].
  pose proof (H (t, r) (or_introl eq_refl)) as H1. simpl in H1.
  pose proof (H p (or_intror Hin)) as H2. rewrite H1, H2 in Ht. discriminate.
Qed.

(** An update that matches no row writes nothing and is not refused. *)
Lemma update_version_removed_nothing (q : RepositoryContent -> bool) (x : option pk)
      (db : DB) :
  (forall r, In r (repository_content db) -> q r = false) ->
  update_version_removed q x db = (inr tt, db).
Proof.
  intros Hq. unfold update_version_removed, bind, get_db.
  rewrite violates_none_written.
  - unfold modify. f_equal. rewrite map_map.
    rewrite (map_id_on _ (repository_content db)).
    + now destruct db.
    + intros r Hr. now rewrite (Hq r Hr).
  - intros p Hp. apply in_map_iff in Hp as [r [<- Hr]]. now rewrite (Hq r Hr).
Qed.

(** [remove_content] is idempotent: once it has returned, removing the
    same units again returns and changes nothing. *)
Theorem remove_content_idempotent (self : RepositoryVersion) (content_q : list pk)
        (db db' : DB) :
  remove_content self content_q db = (inr tt, db') ->
  remove_content self content_q db' = (inr tt, db').
Proof.
  unfold remove_content. destruct (complete self); [discriminate|].
  match goal with |- update_version_removed ?f ?y db = _ -> _ =>
    set (q := f); set (x := y) end.
  intros H. destruct (update_version_removed_cases q x db) as [E | E];
    rewrite E in H; [|discriminate].
  injection H as <-. apply update_version_removed_nothing.
  cbn [repository_content set_repository_content].
  intros r' Hr'. apply in_map_iff in Hr' as [r [<- Hr]].
  destruct (q r) eqn:Eq; [|exact Eq].
  unfold q, set_version_removed, x. simpl. apply andb_false_r.
Qed.

(** Instance of [remove_content_idempotent]: the open version 3 of the
    first history removes the unit of the repository. *)
Lemma remove_content_idempotent_witness :
  remove_content Scenario.v3 [Scenario.unit_a]
                 (snd (remove_content Scenario.v3 [Scenario.unit_a] Scenario.db_open3))
  = (inr tt, snd (remove_content Scenario.v3 [Scenario.unit_a] Scenario.db_open3)).
Proof.
  apply (remove_content_idempotent Scenario.v3 [Scenario.unit_a] Scenario.db_open3).
  vm_compute. reflexivity.
Defined.

(** After [add_content] has returned, the version contains every unit it
    was given, provided the row of the version is stored with its number. *)
Theorem add_content_then_contains (self : RepositoryVersion) (content_q : list pk)
        (db db' : DB) (c : pk) :
  number_lte db (version_pk self) (number self) = true ->
  add_content self content_q db = (inr tt, db') ->
  In c content_q ->
  contains self c db' = true.
Proof.
  intros Hrow. unfold add_content. destruct (complete self); [discriminate|].
  unfold bind at 1. unfold get_db.
  match goal with |- bulk_create ?o db = _ -> _ =>
    destruct (bulk_create_cases o db) as [E | E]; rewrite E end; [|discriminate].
  intros H Hc. injection H as <-. unfold contains. apply mem_In.
  destruct (mem c (content self db)) eqn:Em.
  - apply mem_In, content_In in Em as (r & Hr & Hrest).
    apply content_In. exists r. split; [|exact Hrest].
    cbn [repository_content set_repository_content]. apply in_or_app. now left.
  - apply content_In. exists (mkRC c (repository self) (version_pk self) None).
    split; [|repeat split].
    + cbn [repository_content set_repository_content]. apply in_or_app. right.
      apply in_map_iff. exists c. split; [reflexivity|].
      unfold exclude_in. apply filter_In. split; [exact Hc|]. now rewrite Em.
    + exact Hrow.
Qed.

(** Instance of [add_content_then_contains]: the open version 3 of the
    first history adds a second unit. *)
Lemma add_content_then_contains_witness :
  contains Scenario.v3 Scenario.unit_b
           (snd (add_content Scenario.v3 [Scenario.unit_b] Scenario.db_open3)) = true.
Proof.
  apply (add_content_then_contains Scenario.v3 [Scenario.unit_b] Scenario.db_open3).
  - vm_compute. reflexivity.
  - vm_compute. reflexivity.
  - now left.
Defined.

(** After [remove_content] has returned, the version contains none of the
    units it was given, provided the row of the version is stored with its
    number and no membership of the repository was removed at a higher
    number. *)
Theorem remove_content_then_absent (self : RepositoryVersion) (content_q : list pk)
        (db db' : DB) (c : pk) :
  number_lte db (version_pk self) (number self) = true ->
  counter_covers (mkRepository (repository self) (number self)) db = true ->
  remove_content self content_q db = (inr tt, db') ->
  In c content_q ->
  contains self c db' = false.
Proof.
  intros Hrow Hcov. unfold remove_content. destruct (complete self); [discriminate|].
  match goal with |- update_version_removed ?f ?y db = _ -> _ =>
    set (q := f); set (x := y) end.
  intros H Hc. destruct (update_version_removed_cases q x db) as [E | E];
    rewrite E in H; [|discriminate].
  injection H as <-. unfold contains. apply mem_false. intros Hin.
  apply content_In in Hin as (r' & Hr' & Hcid & Hrp & _ & Hrem).
  cbn [repository_content set_repository_content] in Hr'.
  apply in_map_iff in Hr' as [r [<- Hr]].
  unfold counter_covers in Hcov. apply andb_true_iff in Hcov as [_ Hcov].
  rewrite forallb_forall in Hcov. specialize (Hcov r Hr). simpl in Hcov.
  destruct (q r) eqn:Eq.
  - unfold set_version_removed, x in Hrem. simpl in Hrem.
    change (number_lte db (version_pk self) (number self) = false) in Hrem. congruence.
  - unfold q in Eq. rewrite Hcid in Eq. rewrite (proj2 (mem_In c content_q) Hc) in Eq.
    rewrite (proj2 (Nat.eqb_eq _ _) Hrp) in Eq. simpl in Eq, Hcov.
    rewrite (proj2 (Nat.eqb_eq _ _) Hrp) in Hcov. simpl in Hcov.
    destruct (version_removed r) as [w|]; [|discriminate].
    change (number_lte db w (number self) = false) in Hrem. congruence.
Qed.

(** Instance of [remove_content_then_absent]: the open version 3 of the
    first history removes the unit of the repository. *)
Lemma remove_content_then_absent_witness :
  contains Scenario.v3 Scenario.unit_a
           (snd (remove_content Scenario.v3 [Scenario.unit_a] Scenario.db_open3)) = false.
Proof.
  apply (remove_content_then_absent Scenario.v3 [Scenario.unit_a] Scenario.db_open3).
  - vm_compute. reflexivity.
  - vm_compute. reflexivity.
  - vm_compute. reflexivity.
  - now left.
Defined.

(** *** [new_version] without base version *)

(** A version opened without base version starts from the latest one:
    under the integrity conditions of the store, when the counter of the
    repository covers its versions and [latest_version] returns [l], the
    version that [new_version] returns has the content of [l], and has
    added and removed nothing. *)
Theorem new_version_inherits_latest (self : Repository) (task_current : bool)
        (db db1 : DB) (l v : RepositoryVersion) :
  keys_fresh db = true ->
  ledger_ok db = true ->
  counter_covers self db = true ->
  latest_version self db = (inr (Some l), db) ->
  new_version self None task_current db = (inr v, db1) ->
  content v db1 = content l db /\ added v db1 = [] /\ removed v db1 = [].
Proof.
  intros Hk Hok Hcov Hl Hrun.
  apply ledger_ok_inv in Hok as [Hu Hrec].
  assert (Hlr : repository l = repo_pk self /\ number l = last_version self).
  { unfold latest_version, try_except, bind, get_db in Hl.
    match type of Hl with context [filter ?f ?vs] =>
      destruct (filter f vs) as [|x [|y t]] eqn:Ef end; try discriminate.
    injection Hl as ->.
    assert (Hin : In l (filter (fun v0 => Nat.eqb (repository v0) (repo_pk self)
                                          && (number v0 =? last_version self))
                               (versions db))) by (rewrite Ef; now left).
    apply filter_In in Hin as [_ Hin]. apply andb_true_iff in Hin as [Hr Hn].
    apply Nat.eqb_eq in Hr. apply Z.eqb_eq in Hn. now split. }
  destruct Hlr as [Hlr Hln].
  destruct (new_version_tables self None task_current db v db1 Hk Hrun)
    as (Hv & _ & _ & _ & _ & Hvers & _).
  apply new_version_inv in Hrun; [| now apply keys_fresh_no_row].
  destruct Hrun as (_ & _ & _ & _ & d & Hdiff & Hdb1).
  unfold diff_base, ret in Hdiff. injection Hdiff as <-.
  assert (Hled : repository_content db1 = repository_content db)
    by (rewrite Hdb1; now destruct task_current).
  assert (Hvpk : version_pk v = next_pk db) by (now rewrite Hv).
  unfold counter_covers in Hcov. apply andb_true_iff in Hcov as [Hcv Hcr].
  rewrite forallb_forall in Hcv, Hcr.
  assert (Hle : last_version self <= last_version self + 1) by lia.
  split; [|split].
  - unfold content, relationships. rewrite Hled. f_equal.
    apply filter_ext_in. intros r Hr.
    destruct (keys_fresh_ledger db Hk r Hr) as [Hna Hnr].
    unfold present_at. rewrite Hlr, Hln.
    replace (repository v) with (repo_pk self) by (now rewrite Hv).
    replace (number v) with (last_version self + 1) by (now rewrite Hv).
    destruct (Nat.eqb_spec (rc_repository r) (repo_pk self)) as [Hrp | _];
      [|reflexivity].
    cbn [andb]. specialize (Hcr r Hr).
    rewrite (proj2 (Nat.eqb_eq _ _) Hrp) in Hcr. simpl in Hcr.
    destruct (record_ok_inv db r (Hrec r Hr)) as (a & Ha & Hra & _).
    assert (Hadd : number_lte db (version_added r) (last_version self) = true).
    { unfold number_lte. rewrite Ha. apply get_version_some in Ha as [Hain _].
      specialize (Hcv a Hain).
      rewrite (proj2 (Nat.eqb_eq _ _) (eq_trans Hra Hrp)) in Hcv. exact Hcv. }
    rewrite (number_lte_app db db1 v (version_added r) _ Hvers) by congruence.
    rewrite Hadd, (number_lte_mono db _ _ _ Hle Hadd).
    f_equal. destruct (version_removed r) as [w|]; [|reflexivity].
    rewrite (number_lte_app db db1 v w _ Hvers) by congruence.
    rewrite Hcr. f_equal.
    now rewrite (number_lte_mono db _ _ _ Hle Hcr).
  - unfold added. rewrite Hled, filter_nil_intro; [reflexivity|].
    intros r Hr. destruct (keys_fresh_ledger db Hk r Hr) as [Hna _].
    apply Nat.eqb_neq. congruence.
  - unfold removed. rewrite Hled, filter_nil_intro; [reflexivity|].
    intros r Hr. destruct (keys_fresh_ledger db Hk r Hr) as [_ Hnr].
    apply not_true_is_false. intros E. apply removed_is_eq in E. congruence.
Qed.

(** Instance of [new_version_inherits_latest]: version 3 of the first
    history, opened on version 2. *)
Lemma new_version_inherits_latest_witness :
  content Scenario.v3 Scenario.db_open3 = content Scenario.v2 Scenario.db_readd
  /\ added Scenario.v3 Scenario.db_open3 = []
  /\ removed Scenario.v3 Scenario.db_open3 = [].
Proof.
  apply (new_version_inherits_latest (mkRepository Scenario.repo 2) true
                                     Scenario.db_readd Scenario.db_open3
                                     Scenario.v2 Scenario.v3);
    vm_compute; reflexivity.
Defined.

(** *** [Remote] *)

(** [get_remote_artifact_url] never drops the remote's URL: a relative
    path that starts with the separator is refused with [ValueError];
    otherwise the result is the URL of the remote followed by the relative
    path, with one separator between them unless the URL is empty or
    brings its own. *)
Theorem get_remote_artifact_url_joins (self : Remote) (relative_path : string) :
  (isabs relative_path = true
   /\ get_remote_artifact_url self (Some relative_path) = inl ValueError)
  \/ (isabs relative_path = false
      /\ exists mid,
           get_remote_artifact_url self (Some relative_path)
           = inr (String.append (remote_url self) (String.append mid relative_path))
           /\ (mid = EmptyString \/ mid = sep)
           /\ (mid = EmptyString
               <-> remote_url self = EmptyString \/ endswith (remote_url self) sep = true)).
Proof.
  unfold get_remote_artifact_url.
  destruct (isabs relative_path) eqn:E; [left; now split | right].
  split; [reflexivity|]. unfold join. unfold isabs in E. rewrite E.
  destruct (String.eqb_spec (remote_url self) EmptyString) as [He | Hne].
  - exists EmptyString. repeat split; auto.
  - destruct (endswith (remote_url self) sep) eqn:Es; simpl orb.
    + exists EmptyString. repeat split; auto.
    + exists sep. repeat split; auto.
      * intros H. discriminate H.
      * intros [H | H]; [contradiction | discriminate].
Qed.

Lemma dict_get_set_eq {V} (k : string) (v : V) (d : list (string * V)) :
  dict_get k (dict_set k v d) = Some v.
Proof.
  unfold dict_get. induction d as [|[k' v'] t IH]; simpl.
  - now rewrite String.eqb_refl.
  - destruct (String.eqb_spec k' k) as [-> | Hne]; simpl.
    + now rewrite String.eqb_refl.
    + destruct (String.eqb_spec k' k); [contradiction | exact IH].
Qed.

Lemma dict_get_set_neq {V} (k k0 : string) (v : V) (d : list (string * V)) :
  k0 <> k -> dict_get k0 (dict_set k v d) = dict_get k0 d.
Proof.
  intros Hne. unfold dict_get. induction d as [|[k' v'] t IH]; simpl.
  - destruct (String.eqb_spec k k0); [congruence | reflexivity].
  - destruct (String.eqb_spec k' k) as [-> | Hk]; simpl.
    + destruct (String.eqb_spec k k0); [congruence | reflexivity].
    + destruct (String.eqb_spec k' k0); [reflexivity | exact IH].
Qed.

Lemma truthy_str_nonempty (v : string) :
  truthy_str (Some v) = true <-> v <> EmptyString.
Proof. destruct v; simpl; split; congruence. Qed.

(** The loop over [DIGEST_FIELDS] collects exactly the digests of the
    artifact that are set. *)
Lemma collect_digests_spec (DIGEST_FIELDS : list string) (ra : RemoteArtifact)
      (name v : string) :
  dict_get name (collect_digests DIGEST_FIELDS ra) = Some v
  <-> In name DIGEST_FIELDS /\ ra_digest ra name = Some v /\ v <> EmptyString.
Proof.
  unfold collect_digests. induction DIGEST_FIELDS as [|n l IH] using rev_ind.
  - simpl. unfold dict_get. simpl. split; [discriminate | tauto].
  - rewrite fold_left_app. cbn [fold_left]. rewrite in_app_iff.
    destruct (string_dec name n) as [-> | Hne].
    + destruct (ra_digest ra n) as [v0|] eqn:Ed.
      * destruct (truthy_str (Some v0)) eqn:Et.
        -- rewrite dict_get_set_eq. apply truthy_str_nonempty in Et.
           split; [intros H; injection H as <-; simpl; tauto|].
           intros (_ & H & _). congruence.
        -- rewrite IH. apply not_true_iff_false in Et.
           rewrite truthy_str_nonempty in Et.
           split; [intros (_ & H & Hv) | intros (_ & H & Hv)];
             injection H as <-; tauto.
      * rewrite IH. split; intros (_ & H & _); discriminate.
    + assert (Hin : In name l \/ In name [n] <-> In name l).
      { simpl. split; [intros [H | [H | []]]; [exact H | congruence] | tauto]. }
      rewrite Hin, <- IH.
      destruct (ra_digest ra n) as [v0|]; [|reflexivity].
      destruct (truthy_str (Some v0)); [|reflexivity].
      now rewrite dict_get_set_neq.
Qed.


(** Given an artifact, [get_downloader] builds the downloader for the URL
    of the artifact; the keyword arguments of the caller go through, but
    for [expected_digests], set to the digests of the artifact that are
    set when there is one, and [expected_size], set to the size of the
    artifact when it is neither null nor zero. *)
Theorem get_downloader_of_artifact (DIGEST_FIELDS : list string) (Value : Type)
        (self : Remote) (ra : RemoteArtifact) (url : option string)
        (kwargs : list (string * kwarg Value)) :
  truthy_str url = false ->
  exists kwargs',
    get_downloader DIGEST_FIELDS Value self (Some ra) url kwargs
    = inr (ra_url ra, kwargs')
    /\ (forall k, k <> "expected_digests"%string -> k <> "expected_size"%string ->
                  dict_get k kwargs' = dict_get k kwargs)
    /\ dict_get "expected_size"%string kwargs'
       = (if truthy_int (ra_size ra) then option_map (ExpectedSize Value) (ra_size ra)
          else dict_get "expected_size"%string kwargs)
    /\ dict_get "expected_digests"%string kwargs'
       = (if isnil (collect_digests DIGEST_FIELDS ra)
          then dict_get "expected_digests"%string kwargs
          else Some (ExpectedDigests Value (collect_digests DIGEST_FIELDS ra)))
    /\ forall name v,
         dict_get name (collect_digests DIGEST_FIELDS ra) = Some v
         <-> In name DIGEST_FIELDS /\ ra_digest ra name = Some v /\ v <> EmptyString.
Proof.
  intros Hurl. unfold get_downloader. rewrite Hurl. cbn [andb].
  eexists. split; [reflexivity|].
  split; [|split; [|split]].
  - intros k Hd Hs.
    destruct (ra_size ra) as [n|]; [destruct (truthy_int (Some n))|];
      destruct (isnil (collect_digests DIGEST_FIELDS ra));
      rewrite ?dict_get_set_neq by assumption; reflexivity.
  - destruct (ra_size ra) as [n|]; [destruct (truthy_int (Some n)) eqn:E|].
    + now rewrite dict_get_set_eq.
    + destruct (isnil (collect_digests DIGEST_FIELDS ra));
        rewrite ?dict_get_set_neq by discriminate; reflexivity.
    + simpl. destruct (isnil (collect_digests DIGEST_FIELDS ra));
        rewrite ?dict_get_set_neq by discriminate; reflexivity.
  - destruct (ra_size ra) as [n|]; [destruct (truthy_int (Some n))|];
      rewrite ?dict_get_set_neq by discriminate;
      destruct (isnil (collect_digests DIGEST_FIELDS ra));
      rewrite ?dict_get_set_eq; reflexivity.
  - intros name v. apply collect_digests_spec.
Qed.

(** Instance of [get_downloader_of_artifact]: an artifact passed beside an
    empty URL. *)
Lemma get_downloader_of_artifact_witness :
  exists kwargs',
    get_downloader Further.digest_fields unit Further.remote (Some Further.artifact)
                   (Some EmptyString) []
    = inr (ra_url Further.artifact, kwargs')
    /\ (forall k, k <> "expected_digests"%string -> k <> "expected_size"%string ->
                  dict_get k kwargs' = dict_get k [])
    /\ dict_get "expected_size"%string kwargs'
       = (if truthy_int (ra_size Further.artifact)
          then option_map (ExpectedSize unit) (ra_size Further.artifact)
          else dict_get "expected_size"%string [])
    /\ dict_get "expected_digests"%string kwargs'
       = (if isnil (collect_digests Further.digest_fields Further.artifact)
          then dict_get "expected_digests"%string []
          else Some (ExpectedDigests unit
                       (collect_digests Further.digest_fields Further.artifact)))
    /\ forall name v,
         dict_get name (collect_digests Further.digest_fields Further.artifact) = Some v
         <-> In name Further.digest_fields
             /\ ra_digest Further.artifact name = Some v /\ v <> EmptyString.
Proof.
  apply (get_downloader_of_artifact Further.digest_fields unit Further.remote
                                    Further.artifact (Some EmptyString) []).
  reflexivity.
Defined.

(** *** Integrity is kept *)

Lemma store_ok_records (self : Repository) (db : DB) :
  store_ok self db = true ->
  forall r, In r (repository_content db) -> record_fits self db r = true.
Proof.
  unfold store_ok. rewrite !andb_true_iff. intros [[Hok Hk] Hcov] r Hr.
  apply ledger_ok_inv in Hok as [_ Hrec].
  unfold keys_fresh in Hk. rewrite !andb_true_iff in Hk. destruct Hk as [[[_ Hkl] _] _].
  rewrite forallb_forall in Hkl. specialize (Hkl r Hr).
  unfold counter_covers in Hcov. apply andb_true_iff in Hcov as [_ Hcr].
  rewrite forallb_forall in Hcr. specialize (Hcr r Hr).
  unfold record_fits. rewrite (Hrec r Hr). apply andb_true_iff in Hkl as [Ha Hw].
  rewrite Ha. simpl. destruct (version_removed r) as [w|]; [|reflexivity].
  now rewrite Hw, Hcr.
Qed.

Lemma store_ok_set_ledger (self : Repository) (db : DB) (l : list RepositoryContent) :
  store_ok self db = true ->
  (forall r, In r l -> record_fits self db r = true) ->
  store_ok self (set_repository_content l db) = true.
Proof.
  unfold store_ok. rewrite !andb_true_iff. intros [[Hok Hk] Hcov] Hl.
  assert (Hl' : forall r, In r l ->
            record_ok db r = true /\ (version_added r <? next_pk db)%nat = true
            /\ match version_removed r with
               | Some w => (w <? next_pk db)%nat = true
                           /\ (negb (Nat.eqb (rc_repository r) (repo_pk self))
                               || number_lte db w (last_version self)) = true
               | None => True
               end).
  { intros r Hr. specialize (Hl r Hr). unfold record_fits in Hl.
    rewrite !andb_true_iff in Hl. destruct Hl as [[H1 H2] H3].
    repeat split; try assumption.
    destruct (version_removed r); [now apply andb_true_iff in H3 | exact I]. }
  split; [split|].
  - apply ledger_ok_inv in Hok as [Hu _]. unfold ledger_ok.
    apply andb_true_iff. split; [exact Hu|]. apply forallb_forall.
    intros r Hr. exact (proj1 (Hl' r Hr)).
  - unfold keys_fresh in *. rewrite !andb_true_iff in *.
    destruct Hk as [[[Hv _] Hc] Hd]. repeat split; try assumption.
    apply forallb_forall. intros r Hr. destruct (Hl' r Hr) as (_ & Ha & Hw).
    cbn [next_pk set_repository_content]. rewrite Ha.
    destruct (version_removed r); [exact (proj1 Hw) | reflexivity].
  - unfold counter_covers in *. rewrite !andb_true_iff in *.
    destruct Hcov as [Hv _]. split; [exact Hv|].
    apply forallb_forall. intros r Hr. destruct (Hl' r Hr) as (_ & _ & Hw).
    destruct (version_removed r) as [w|]; [exact (proj2 Hw) | apply orb_true_r].
Qed.

Lemma store_ok_version (self : Repository) (db : DB) (w : RepositoryVersion) :
  store_ok self db = true -> In w (versions db) ->
  (version_pk w < next_pk db)%nat
  /\ (repository w = repo_pk self -> number w <= last_version self).
Proof.
  unfold store_ok. rewrite !andb_true_iff. intros [[_ Hk] Hcov] Hw.
  split; [now apply keys_fresh_versions|].
  unfold counter_covers in Hcov. apply andb_true_iff in Hcov as [Hv _].
  rewrite forallb_forall in Hv. specialize (Hv w Hw). intros Hr.
  rewrite (proj2 (Nat.eqb_eq _ _) Hr) in Hv. now apply Z.leb_le in Hv.
Qed.

(** [add_content] and [remove_content] keep [store_ok], whether they
    return or raise. *)
Lemma add_content_store_ok (self : RepositoryVersion) (content_q : list pk)
        (db : DB) :
  get_version db (version_pk self) = Some self ->
  store_ok (repository_of self) db = true ->
  store_ok (repository_of self) (snd (add_content self content_q db)) = true.
Proof.
  intros Hrow Hok. unfold add_content. destruct (complete self); [exact Hok|].
  unfold bind at 1. unfold get_db.
  match goal with |- context [bulk_create ?o db] =>
    destruct (bulk_create_cases o db) as [E | E]; rewrite E end; [|exact Hok].
  cbn [snd]. apply store_ok_set_ledger; [exact Hok|].
  intros r Hr. apply in_app_or in Hr as [Hr | Hr];
    [now apply (store_ok_records (repository_of self)) |].
  apply in_map_iff in Hr as [c [<- _]].
  unfold record_fits, record_ok. cbn [version_added version_removed rc_repository].
  rewrite Hrow, Nat.eqb_refl. simpl.
  apply get_version_some in Hrow as [Hin _].
  destruct (store_ok_version _ _ _ Hok Hin) as [Hlt _].
  rewrite andb_true_r. now apply Nat.ltb_lt.
Qed.

Lemma remove_content_store_ok (self : RepositoryVersion) (content_q : list pk)
        (db : DB) :
  get_version db (version_pk self) = Some self ->
  store_ok (repository_of self) db = true ->
  store_ok (repository_of self) (snd (remove_content self content_q db)) = true.
Proof.
  intros Hrow Hok. unfold remove_content. destruct (complete self); [exact Hok|].
  match goal with |- context [update_version_removed ?f ?y db] =>
    destruct (update_version_removed_cases f y db) as [E | E]; rewrite E end;
    [|exact Hok].
  cbn [snd]. apply store_ok_set_ledger; [exact Hok|].
  intros r' Hr'. apply in_map_iff in Hr' as [r [<- Hr]].
  pose proof (store_ok_records _ _ Hok r Hr) as Hfit.
  match goal with |- context [if ?c then _ else _] => destruct c eqn:Eq end;
    [|exact Hfit].
  rewrite !andb_true_iff in Eq. destruct Eq as [[Hrp _] _].
  apply Nat.eqb_eq in Hrp.
  unfold record_fits in *. rewrite !andb_true_iff in Hfit. destruct Hfit as [[Hrec Ha] _].
  cbn [version_added version_removed rc_repository set_version_removed].
  rewrite Ha. pose proof Hrow as Hrow'. apply get_version_some in Hrow' as [Hin _].
  destruct (store_ok_version _ _ _ Hok Hin) as [Hlt _].
  rewrite (proj2 (Nat.ltb_lt _ _) Hlt).
  unfold number_lte at 1. rewrite Hrow. cbn [last_version repository_of].
  rewrite Z.leb_refl, orb_true_r, !andb_true_r.
  destruct (record_ok_inv db r Hrec) as (a & Hga & Hra & _).
  unfold record_ok, set_version_removed.
  cbn [version_added version_removed rc_repository].
  rewrite Hga, Hrow, Hrp, Hra, Hrp, !Nat.eqb_refl. simpl.
  apply Z.leb_le. apply get_version_some in Hga as [Hain _].
  apply (store_ok_version _ _ _ Hok Hain). simpl. congruence.
Qed.

Lemma get_version_same_but_ledger (db db' : DB) (p : pk) :
  same_but_ledger db db' -> get_version db' p = get_version db p.
Proof.
  intros H. apply same_but_ledger_fields in H as (_ & Hv & _).
  unfold get_version. now rewrite Hv.
Qed.

Lemma run_mutation_store_ok (self : RepositoryVersion) (m : Mutation) (db : DB) :
  get_version db (version_pk self) = Some self ->
  store_ok (repository_of self) db = true ->
  store_ok (repository_of self) (snd (run_mutation self m db)) = true
  /\ get_version (snd (run_mutation self m db)) (version_pk self) = Some self.
Proof.
  intros Hrow Hok. destruct m as [c | c | e]; simpl.
  - split; [now apply add_content_store_ok|].
    now rewrite (get_version_same_but_ledger db _ _ (add_content_frame self c db)).
  - split; [now apply remove_content_store_ok|].
    now rewrite (get_version_same_but_ledger db _ _ (remove_content_frame self c db)).
  - now split.
Qed.

(** The body of a [with] statement keeps the integrity of the store: for
    a version whose row is stored, whatever sequence of [add_content] and
    [remove_content] runs, to its end or to an exception, [store_ok] holds
    afterwards when it held before, and the row is still stored. *)
Theorem mutations_keep_integrity (self : RepositoryVersion) (s : list Mutation) (db : DB) :
  get_version db (version_pk self) = Some self ->
  store_ok (repository_of self) db = true ->
  store_ok (repository_of self) (snd (run_script self s db)) = true
  /\ get_version (snd (run_script self s db)) (version_pk self) = Some self.
Proof.
  revert db. induction s as [|m rest IH]; intros db Hrow Hok; [now split|].
  cbn [run_script]. unfold bind.
  destruct (run_mutation_store_ok self m db Hrow Hok) as [Hok1 Hrow1].
  destruct (run_mutation self m db) as [[e | []] d1]; simpl in Hok1, Hrow1.
  - now split.
  - now apply IH.
Qed.

(** Instance of [mutations_keep_integrity]: the body that adds a unit to
    version 3 of the first history and then fails. *)
Lemma mutations_keep_integrity_witness :
  store_ok (repository_of Scenario.v3)
           (snd (run_script Scenario.v3 Scenario.failing_body Scenario.db_open3)) = true
  /\ get_version (snd (run_script Scenario.v3 Scenario.failing_body Scenario.db_open3))
                 (version_pk Scenario.v3) = Some Scenario.v3.
Proof.
  apply (mutations_keep_integrity Scenario.v3 Scenario.failing_body Scenario.db_open3);
    vm_compute; reflexivity.
Defined.

Lemma versions_unique_snoc (l : list RepositoryVersion) (v : RepositoryVersion) :
  versions_unique l = true ->
  (forall w, In w l -> version_pk w <> version_pk v
                       /\ (repository w = repository v -> number w <> number v)) ->
  versions_unique (l ++ [v]) = true.
Proof.
  induction l as [|a t IH]; intros Hu Hv; [reflexivity|].
  simpl in Hu. apply andb_true_iff in Hu as [Ha Hu].
  cbn [app versions_unique]. rewrite forallb_app, Ha, IH; try assumption.
  - simpl. destruct (Hv a (or_introl eq_refl)) as [Hpk Hnum].
    destruct (Nat.eqb_spec (version_pk a) (version_pk v)); [contradiction|].
    destruct (Nat.eqb_spec (repository a) (repository v)) as [Hr|]; [|reflexivity].
    destruct (Z.eqb_spec (number a) (number v)); [now destruct (Hnum Hr) | reflexivity].
  - intros w Hw. apply Hv. now right.
Qed.

Lemma get_version_found_app (db db' : DB) (v a : RepositoryVersion) (p : pk) :
  versions db' = versions db ++ [v] ->
  get_version db p = Some a -> get_version db' p = Some a.
Proof.
  intros Hv Ha. unfold get_version in *. now rewrite Hv, find_app_last, Ha.
Qed.

Lemma record_ok_app (db db' : DB) (v : RepositoryVersion) (r : RepositoryContent) :
  versions db' = versions db ++ [v] ->
  record_ok db r = true -> record_ok db' r = true.
Proof.
  intros Hv Hr. pose proof Hr as Hr'. unfold record_ok in Hr |- *.
  destruct (get_version db (version_added r)) as [a|] eqn:Ea; [|discriminate].
  rewrite (get_version_found_app db db' v a _ Hv Ea).
  destruct (version_removed r) as [w|]; [|exact Hr].
  destruct (get_version db w) as [x|] eqn:Ex;
    [| now rewrite andb_false_r in Hr].
  now rewrite (get_version_found_app db db' v x _ Hv Ex).
Qed.

Lemma number_lte_found_app (db db' : DB) (v : RepositoryVersion) (p : pk) (m m' : Z) :
  versions db' = versions db ++ [v] ->
  m <= m' ->
  number_lte db p m = true -> number_lte db' p m' = true.
Proof.
  intros Hv Hle H. unfold number_lte in *.
  destruct (get_version db p) as [a|] eqn:Ea; [|discriminate].
  rewrite (get_version_found_app db db' v a _ Hv Ea).
  apply Z.leb_le in H. apply Z.leb_le. lia.
Qed.

(** The database right after the two saves of [new_version]. *)
Lemma store_ok_opened (self : Repository) (base : option RepositoryVersion) (db : DB) :
  store_ok self db = true ->
  (forall b, base = Some b -> In b (versions db)) ->
  store_ok (repository_of (opened_version self base db)) (opened self base db) = true
  /\ get_version (opened self base db) (next_pk db) = Some (opened_version self base db).
Proof.
  intros Hok Hbase.
  assert (Hvs : forall w, In w (versions db) ->
                  (version_pk w < next_pk db)%nat
                  /\ (repository w = repo_pk self -> number w <= last_version self))
    by (intros w Hw; now apply store_ok_version).
  pose proof (store_ok_records self db Hok) as Hfit.
  unfold store_ok in Hok. rewrite !andb_true_iff in Hok. destruct Hok as [[Hl Hk] Hcov].
  apply ledger_ok_inv in Hl as [Hu Hrec].
  set (v := opened_version self base db).
  assert (Hv : versions (opened self base db) = versions db ++ [v]) by reflexivity.
  assert (Hrow : get_version (opened self base db) (next_pk db) = Some v).
  { apply (get_version_last db (opened self base db) v Hv).
    intros x Hx. destruct (Hvs x Hx) as [Hlt _]. simpl. lia. }
  split; [|exact Hrow].
  unfold store_ok. rewrite !andb_true_iff. split; [split|].
  - unfold ledger_ok. apply andb_true_iff. split.
    + rewrite Hv. apply versions_unique_snoc; [exact Hu|].
      intros w Hw. destruct (Hvs w Hw) as [Hlt Hnum]. simpl. split; [lia|].
      intros Hr. specialize (Hnum Hr). lia.
    + apply forallb_forall. intros r Hr.
      apply (record_ok_app db _ v r Hv). now apply Hrec.
  - unfold keys_fresh in *. rewrite !andb_true_iff in *.
    destruct Hk as [[[Hkv Hkl] Hkc] Hkd].
    rewrite forallb_forall in Hkv, Hkl, Hkc, Hkd.
    cbn [versions repository_content created_resources content_details next_pk opened].
    repeat split; apply forallb_forall.
    + intros w Hw. apply in_app_or in Hw as [Hw | [<- | []]].
      * specialize (Hkv w Hw). apply andb_true_iff in Hkv as [H1 H2].
        apply Nat.ltb_lt in H1. apply andb_true_iff. split; [apply Nat.ltb_lt; lia|].
        destruct (base_version w); [|reflexivity].
        apply Nat.ltb_lt in H2. apply Nat.ltb_lt. lia.
      * apply andb_true_iff. split; [apply Nat.ltb_lt; simpl; lia|].
        simpl. destruct base as [b|]; [|reflexivity]. simpl.
        destruct (Hvs b (Hbase b eq_refl)) as [Hlt _]. apply Nat.ltb_lt. lia.
    + intros r Hr. specialize (Hkl r Hr). apply andb_true_iff in Hkl as [H1 H2].
      apply Nat.ltb_lt in H1. apply andb_true_iff. split; [apply Nat.ltb_lt; lia|].
      destruct (version_removed r); [|reflexivity].
      apply Nat.ltb_lt in H2. apply Nat.ltb_lt. lia.
    + intros o Ho. specialize (Hkc o Ho). apply Nat.ltb_lt in Hkc.
      apply Nat.ltb_lt. lia.
    + intros d Hd. specialize (Hkd d Hd). apply Nat.ltb_lt in Hkd.
      apply Nat.ltb_lt. lia.
  - unfold counter_covers in *. rewrite !andb_true_iff in *.
    destruct Hcov as [_ Hcr]. rewrite forallb_forall in Hcr.
    cbn [versions repository_content opened repo_pk last_version repository_of
         repository number opened_version v].
    split; apply forallb_forall.
    + intros w Hw. apply in_app_or in Hw as [Hw | [<- | []]].
      * destruct (Hvs w Hw) as [_ Hnum].
        destruct (Nat.eqb_spec (repository w) (repo_pk self)) as [Hr|]; [|reflexivity].
        simpl. apply Z.leb_le. specialize (Hnum Hr). lia.
      * simpl. rewrite Z.leb_refl. apply orb_true_r.
    + intros r Hr. specialize (Hcr r Hr).
      destruct (Nat.eqb (rc_repository r) (repo_pk self)); [|reflexivity].
      simpl in *. destruct (version_removed r) as [w|]; [|reflexivity].
      apply (number_lte_found_app db _ v w (last_version self)); [exact Hv | lia | exact Hcr].
Qed.

Lemma store_ok_created (self : Repository) (db : DB) (p : pk) :
  (p < next_pk db)%nat ->
  store_ok self db = true ->
  store_ok self (set_created_resources (created_resources db ++ [p]) db) = true.
Proof.
  intros Hp. unfold store_ok. rewrite !andb_true_iff. intros [[Hl Hk] Hc].
  split; [split|]; [exact Hl | | exact Hc].
  unfold keys_fresh in *. rewrite !andb_true_iff in *.
  destruct Hk as [[[Hkv Hkl] Hkc] Hkd]. repeat split; try assumption.
  simpl. rewrite forallb_app. apply andb_true_iff. split; [exact Hkc|].
  simpl. now rewrite (proj2 (Nat.ltb_lt _ _) Hp).
Qed.

(** [new_version] keeps the integrity of the store and hands over a stored
    version: when [store_ok] holds, the base version, if any, is stored,
    and [new_version] returns [v], then [store_ok] holds for the repository
    with its new counter, and the row of [v] is stored. *)
Theorem new_version_keeps_integrity (self : Repository) (base : option RepositoryVersion)
        (task_current : bool) (db db1 : DB) (v : RepositoryVersion) :
  store_ok self db = true ->
  (forall b, base = Some b -> In b (versions db)) ->
  new_version self base task_current db = (inr v, db1) ->
  store_ok (repository_of v) db1 = true
  /\ get_version db1 (version_pk v) = Some v
  /\ repository_of v = mkRepository (repo_pk self) (last_version self + 1).
Proof.
  intros Hok Hbase Hrun.
  assert (Hk : keys_fresh db = true).
  { unfold store_ok in Hok. rewrite !andb_true_iff in Hok. tauto. }
  apply new_version_inv in Hrun; [| now apply keys_fresh_no_row].
  destruct Hrun as (Hv & _ & _ & _ & d & Hdiff & Hdb1).
  destruct (store_ok_opened self base db Hok Hbase) as [Hok0 Hrow0].
  rewrite <- Hv in Hok0, Hrow0.
  assert (Hvpk : version_pk v = next_pk db) by (now rewrite Hv).
  rewrite <- Hvpk in Hrow0.
  assert (Hd : store_ok (repository_of v) d = true
               /\ get_version d (version_pk v) = Some v).
  { destruct base as [b|]; simpl in Hdiff.
    - apply bind_inr in Hdiff as (d0 & d0' & Hg & Hdiff).
      unfold get_db in Hg. injection Hg as <- <-.
      apply bind_inr in Hdiff as ([] & d1 & Hrem & Hdiff).
      apply bind_inr in Hdiff as (d2 & d2' & Hg & Hadd).
      unfold get_db in Hg. injection Hg as <- <-.
      pose proof (remove_content_store_ok v
                    (exclude_in (content v (opened self (Some b) db))
                                (content b (opened self (Some b) db)))
                    (opened self (Some b) db) Hrow0 Hok0) as Hok1.
      pose proof (remove_content_frame v
                    (exclude_in (content v (opened self (Some b) db))
                                (content b (opened self (Some b) db)))
                    (opened self (Some b) db)) as Hf1.
      rewrite Hrem in Hok1, Hf1. simpl in Hok1, Hf1.
      assert (Hrow1 : get_version d1 (version_pk v) = Some v)
        by (now rewrite (get_version_same_but_ledger _ _ _ Hf1)).
      pose proof (add_content_store_ok v
                    (exclude_in (content b d1) (content v d1)) d1 Hrow1 Hok1) as Hok2.
      pose proof (add_content_frame v (exclude_in (content b d1) (content v d1)) d1)
        as Hf2.
      rewrite Hadd in Hok2, Hf2. simpl in Hok2, Hf2. split; [exact Hok2|].
      now rewrite (get_version_same_but_ledger _ _ _ Hf2).
    - unfold ret in Hdiff. injection Hdiff as <-. now split. }
  destruct Hd as [Hokd Hrowd]. split; [|split].
  - rewrite Hdb1. destruct task_current; [|exact Hokd].
    apply store_ok_created; [|exact Hokd].
    apply get_version_some in Hrowd as [Hin _].
    now apply (store_ok_version (repository_of v) d v Hokd).
  - rewrite Hdb1. destruct task_current; exact Hrowd.
  - now rewrite Hv.
Qed.

(** Instance of [new_version_keeps_integrity]: version 3 of the first
    history is opened. *)
Lemma new_version_keeps_integrity_witness :
  store_ok (repository_of Scenario.v3) Scenario.db_open3 = true
  /\ get_version Scenario.db_open3 (version_pk Scenario.v3) = Some Scenario.v3
  /\ repository_of Scenario.v3
     = mkRepository (repo_pk (mkRepository Scenario.repo 2))
                    (last_version (mkRepository Scenario.repo 2) + 1).
Proof.
  apply (new_version_keeps_integrity (mkRepository Scenario.repo 2) None true
                                     Scenario.db_readd Scenario.db_open3 Scenario.v3).
  - vm_compute. reflexivity.
  - intros b Hb. discriminate Hb.
  - vm_compute. reflexivity.
Defined.
